(** * KIRA job recommender: the recommendation engine

    A shallow embedding of the matcher ([src/models/matcher/matcher.py]),
    the recommender ([src/models/recommender/recommender.py]), the ESCO
    helper ([src/data/esco_helper.py]) and the recommender pipeline
    ([src/pipeline/recommender_pipeline.py]).

    Conventions of the embedding.
    - Profile values are floats in the source; here they are exact
      rationals ([Q]).  A Euclidean distance [d] is carried by its square:
      [d < 30] is [d * d < 900], and ordering by [d] is ordering by
      [d * d].  The floats of the source round: a property that depends on
      the value of a computed score is stated for the scores as
      scikit-learn computes them ([JobMatcher.Pairwise]), or for profiles
      whose scores are computed without rounding
      ([Props.exactly_computed], [Props.on_grid]).
    - A Python call that can raise returns a [result]; the exception is a
      constructor of [exn].
    - A pandas frame is the list of its rows, in row order.  A frame that
      the source mutates in place is returned next to the result of the
      call, as the state of the argument after the call. *)

From Stdlib Require Import List String Ascii Bool Arith ZArith QArith Lia.
From Stdlib Require Import Qabs DecimalString Permutation Sorted.
Import ListNotations.
Open Scope string_scope.

(** ** Python values and exceptions *)

Module Py.

Inductive exn : Type :=
| KeyError
| IndexError
| TypeError
| ValueError
| UnboundLocalError
| SystemExit.

Inductive result (A : Type) : Type :=
| Ok (a : A)
| Raise (e : exn).
Arguments Ok {A} a.
Arguments Raise {A} e.

Definition bind {A B : Type} (r : result A) (k : A -> result B) : result B :=
  match r with
  | Ok a => k a
  | Raise e => Raise e
  end.

(** [str(n)] for a non-negative integer. *)
Definition str (n : nat) : string := NilEmpty.string_of_uint (Nat.to_uint n).

(** [s.split(c)] for a one-character separator. *)
Fixpoint split (c : ascii) (s : string) : list string :=
  match s with
  | EmptyString => [EmptyString]
  | String a s' =>
      if Ascii.eqb a c then EmptyString :: split c s'
      else match split c s' with
           | h :: t => String a h :: t
           | [] => [String a EmptyString]
           end
  end.

(** [pat in s] for two strings: [pat] occurs in [s]. *)
Fixpoint contains (pat s : string) : bool :=
  String.prefix pat s ||
  match s with
  | EmptyString => false
  | String _ s' => contains pat s'
  end.

(** [x in l] for a list of strings, and for a list of integers. *)
Definition isin (x : string) (l : list string) : bool :=
  existsb (String.eqb x) l.

Definition isin_nat (x : nat) (l : list nat) : bool :=
  existsb (Nat.eqb x) l.

(** [re.search(pattern, s)] for a pattern that is an alternation of
    literals, [a|b|c]: one of the alternatives occurs in [s].  The patterns
    built by the matcher are decimal numerals joined by a bar; the empty
    pattern is the one empty alternative, which occurs in every string. *)
Definition re_search (pattern s : string) : bool :=
  existsb (fun alt => contains alt s) (split "|"%char pattern).

(** A cell of a column that holds a comma-separated log, its parsed list,
    or nothing. *)
Inductive cell : Type :=
| NaN
| Str (s : string)
| Lst (l : list string).

End Py.

Import Py.

Declare Scope py_scope.
Notation "x <- r ;; k" := (Py.bind r (fun x => k))
  (at level 61, r at next level, right associativity) : py_scope.
Notation "' p <- r ;; k" := (Py.bind r (fun p => k))
  (at level 61, p pattern, r at next level, right associativity) : py_scope.
Open Scope py_scope.

(** ** Vectors of profile values *)

Module Vec.

Fixpoint sqdist (x y : list Q) : Q :=
  match x, y with
  | a :: x', b :: y' => (a - b) * (a - b) + sqdist x' y'
  | _, _ => 0
  end.

Fixpoint dot (x y : list Q) : Q :=
  match x, y with
  | a :: x', b :: y' => a * b + dot x' y'
  | _, _ => 0
  end.

Definition Qltb (x y : Q) : bool := negb (Qle_bool y x).

(** The cosine of the angle between [x] and [y] is
    [dot x y / (|x| * |y|)], and 0 when a norm is 0.  It is carried by
    [c * |c|], its image under the increasing map [c => c * |c|], which
    needs no square root. *)
Definition cosine_key (x y : list Q) : Q :=
  let d := dot x y in
  (d * Qabs d) / (dot x x * dot y y).

(** [max_euclidean_distance = 30], squared. *)
Definition max_euclidean_distance_sq : Q := 900.

End Vec.

(** ** Frames *)

(** The labels of the ten skill columns of a frame: [FS1 .. FS10],
    [self_initiative .. goal_orientation], or neither. *)
Inductive Labels : Type :=
| FSLabels
| SkillLabels
| OtherLabels.

(** A row of the frame of occupation profiles ([transformed_profiles]): the
    frame is indexed by [conceptUri] and every column is a profile value. *)
Record OccProfile : Type := {
  occ_uri : string;
  occ_values : list Q
}.

Record OccFrame : Type := {
  of_labels : Labels;
  of_rows : list OccProfile
}.

(** A row of [esco2kldb]: the sector keys of an occupation. *)
Record KldbRow : Type := {
  kl_uri : string;
  kl_keys : option string
}.

(** A row of the frame of reference user profiles. *)
Record UserProfile : Type := {
  up_index : Z;
  user_id : string;
  up_values : list Q;
  professional_interests : option string;
  job_recommendations : cell;
  job_ratings : cell
}.

Record UserFrame : Type := {
  uf_labels : Labels;
  uf_rows : list UserProfile
}.

(** A row of the expanded frame of user profiles: one per recommendation
    of a user. *)
Record ExpandedRow : Type := {
  er_profile : UserProfile;
  er_conceptUri : string;
  single_job_rating : string;
  er_ID : Z
}.

(** Where a row of a candidate frame comes from, with the columns that
    come with it. *)
Inductive Origin : Type :=
| Occupation (kldb_keys : option string)
| Peer (e : ExpandedRow) (num_preferences : list nat).

(** A row of a candidate frame: the frames that [filter_by_rating] returns,
    [calculate_distances] ranks and the recommender refines.  [Distance] and
    [broaderUri] are [None] where the column is absent or holds NaN. *)
Record Row : Type := {
  conceptUri : string;
  FS : list Q;
  origin : Origin;
  Distance : option Q;
  broaderUri : option string
}.

Record DataFrame : Type := {
  labels : Labels;
  rows : list Row
}.

Definition empty (df : DataFrame) : bool :=
  match rows df with [] => true | _ => false end.

(** The one-row frame of the user the recommendation is for. *)
Record TargetProfile : Type := {
  tp_labels : Labels;
  tp_values : list Q;
  tp_job_recommendations : option string;
  tp_job_ratings : option string
}.

(** An entry of a pandas [Index]: a string, or a tuple of strings. *)
Inductive label : Type :=
| LStr (s : string)
| LTuple (t : list string).

Fixpoint tuple_eqb (a b : list string) : bool :=
  match a, b with
  | [], [] => true
  | x :: a', y :: b' => String.eqb x y && tuple_eqb a' b'
  | _, _ => false
  end.

Definition label_eqb (a b : label) : bool :=
  match a, b with
  | LStr s, LStr t => String.eqb s t
  | LTuple s, LTuple t => tuple_eqb s t
  | _, _ => false
  end.

Module Index.

Definition isin (x : label) (idx : list label) : bool :=
  existsb (label_eqb x) idx.

(** [a.union(b)]: only membership in the union is ever read. *)
Definition union (a b : list label) : list label :=
  (a ++ filter (fun x => negb (isin x a)) b)%list.

(** [pd.Index(values)] for a one-dimensional array of strings. *)
Definition of_strings (l : list string) : list label := map LStr l.

(** [pd.Index(values)] for a two-dimensional array of strings.  The
    constructor passes an array that is not numeric through
    [asarray_tuplesafe], which turns an array of two dimensions into the
    one-dimensional array of its rows as tuples: the index has one entry
    per row of the array, the tuple of its cells. *)
Definition of_matrix (m : list (list string)) : list label := map LTuple m.

End Index.

(** ** The ESCO helper *)

Module esco_helper.

Record t : Type := {
  (** [get_occupations()]: conceptUri and code of every occupation *)
  occupations : list (string * string);
  (** the rows of the look-up table that are not occupations (ISCO groups,
      skills, skill groups), with their code *)
  other_concepts : list (string * string);
  (** [get_broaderRelationsOccPillar()]: conceptUri and broaderUri *)
  broaderRelationsOccPillar : list (string * string)
}.

Definition look_up_table (h : t) : list (string * string) :=
  (occupations h ++ other_concepts h)%list.

Definition look_up_code (h : t) (uri : string) : result string :=
  match find (fun r => String.eqb (fst r) uri) (look_up_table h) with
  | Some r => Ok (snd r)
  | None => Raise KeyError
  end.

(** The selection [[["conceptUri"]]] keeps a frame of one column, and
    [.values] of it is a matrix with one cell per row. *)
Definition get_narrower_occupations (h : t) (uri : string)
  : result (list (list string)) :=
  code <- look_up_code h uri ;;
  Ok (map (fun o => [fst o])
          (filter (fun o => String.prefix code (snd o) &&
                            Nat.ltb (String.length code)
                                    (String.length (snd o)))
                  (occupations h))).

(** A dictionary from a uri to a list of uris: the keys in the order of
    their first insertion. *)
Definition broader_dict : Type := list (string * list string).

Definition get (d : broader_dict) (key : string) : option (list string) :=
  option_map snd (find (fun kv => String.eqb (fst kv) key) d).

(** [d[key].append(value)] when [key in d], [d[key] = [value]] otherwise. *)
Fixpoint append_to (d : broader_dict) (key value : string) : broader_dict :=
  match d with
  | [] => [(key, [value])]
  | (k, vs) :: d' =>
      if String.eqb k key then (k, (vs ++ [value])%list) :: d'
      else (k, vs) :: append_to d' key value
  end.

(** [broaderRelationsSkillPillar] is what [get_broaderRelationsSkillPillar]
    reads: conceptUri and broaderUri of the skills. *)
Definition create_broader_dict (h : t)
    (broaderRelationsSkillPillar : list (string * string)) (type : string)
  : result broader_dict :=
  broaderRelations <-
    (if String.eqb type "Skill" then Ok broaderRelationsSkillPillar
     else if String.eqb type "Occupation"
          then Ok (broaderRelationsOccPillar h)
          else Raise ValueError) ;;
  Ok (fold_left (fun d row => append_to d (fst row) (snd row))
                broaderRelations []).

(** [s[:-1]] *)
Fixpoint drop_last (s : string) : string :=
  match s with
  | EmptyString => EmptyString
  | String _ EmptyString => EmptyString
  | String a s' => String a (drop_last s')
  end.

Record ISCO_levels : Type := {
  il_conceptUri : string;
  ISCO_Level_4 : string;
  ISCO_Level_3 : string;
  ISCO_Level_2 : string;
  ISCO_Level_1 : string
}.

(** [isco_groups] holds the columns [conceptUri] and [iscoGroup] of
    [get_occupations()]. *)
Definition get_detailed_ISCO_levels (isco_groups : list (string * string))
  : list ISCO_levels :=
  map (fun o =>
         let level_4 := "http://data.europa.eu/esco/isco/C" ++ snd o in
         let level_3 := drop_last level_4 in
         let level_2 := drop_last level_3 in
         let level_1 := drop_last level_2 in
         {| il_conceptUri := fst o;
            ISCO_Level_4 := level_4;
            ISCO_Level_3 := level_3;
            ISCO_Level_2 := level_2;
            ISCO_Level_1 := level_1 |})
      isco_groups.

(** The rows of [esco_broader_skills_pillar] whose broader uri is [url]:
    their [conceptUri], in the order of the rows. *)
Definition narrower_concepts_of
    (esco_broader_skills_pillar : list (string * string)) (url : string)
  : list string :=
  map fst (List.filter (fun r => String.eqb (snd r) url)
                       esco_broader_skills_pillar).

(** [depth] is the number of nested calls that the interpreter still
    allows; a recursion that goes deeper ends in [RecursionError], which is
    [None] here.  A url that is the broader uri of no row adds nothing, and
    the test [bool(narrower_relations)] only skips the concatenation of an
    empty list. *)
Fixpoint __search_urls_for_narrower_skills (depth : nat)
    (esco_broader_skills_pillar : list (string * string))
    (urls : list string) : option (list string) :=
  match depth with
  | O => None
  | S depth' =>
      fold_left
        (fun relations url =>
           match relations with
           | None => None
           | Some relations =>
               match narrower_concepts_of esco_broader_skills_pillar url with
               | [] => Some relations
               | c :: cs =>
                   let narrower_concepts := c :: cs in
                   let relations := (relations ++ narrower_concepts)%list in
                   match __search_urls_for_narrower_skills
                           depth' esco_broader_skills_pillar
                           narrower_concepts with
                   | Some narrower_relations =>
                       Some (relations ++ narrower_relations)%list
                   | None => None
                   end
               end
           end)
        urls (Some [])
  end.

End esco_helper.

(** ** The matcher *)

Module JobMatcher.

(** [JobMatcher(method = "euclidean")]. *)
Record t : Type := { method : string }.

Definition default : t := {| method := "euclidean" |}.

(** [df[mask]] for a mask that may hold NaN: pandas refuses such a mask. *)
Fixpoint mask_rows {A : Type} (l : list A) (mask : list (option bool))
  : result (list A) :=
  match l, mask with
  | x :: l', Some b :: mask' =>
      kept <- mask_rows l' mask' ;;
      Ok (if b then x :: kept else kept)
  | _ :: _, None :: _ => Raise ValueError
  | _, _ => Ok []
  end.

Definition kldb_keys_of (r : Row) : option string :=
  match origin r with
  | Occupation k => k
  | Peer _ _ => None
  end.

(** [job_fs_profiles.merge(esco2kldb, left_on="conceptUri",
    right_on="conceptUri")]: an inner join that keeps the order of the left
    frame. *)
Definition merge (job_fs_profiles : OccFrame) (esco2kldb : list KldbRow)
  : DataFrame :=
  {| labels := of_labels job_fs_profiles;
     rows :=
       flat_map
         (fun o =>
            map (fun k => {| conceptUri := occ_uri o;
                             FS := occ_values o;
                             origin := Occupation (kl_keys k);
                             Distance := None;
                             broaderUri := None |})
                (filter (fun k => String.eqb (kl_uri k) (occ_uri o))
                        esco2kldb))
         (of_rows job_fs_profiles) |}.

Definition filter_by_preferences (job_fs_profiles : OccFrame)
    (esco2kldb : list KldbRow) (preferences : option (list nat))
  : result (DataFrame * DataFrame) :=
  let job_fs_profiles := merge job_fs_profiles esco2kldb in
  match preferences with
  | Some preferences =>
      let filter := String.concat "|" (map Py.str preferences) in
      let mask := map (fun r => option_map (Py.re_search filter)
                                           (kldb_keys_of r))
                      (rows job_fs_profiles) in
      kept <- mask_rows (rows job_fs_profiles) mask ;;
      let job_fs_profiles :=
        {| labels := labels job_fs_profiles; rows := kept |} in
      Ok (job_fs_profiles, job_fs_profiles)
  | None => Ok (job_fs_profiles, job_fs_profiles)
  end.

(** The branch for a frame: [x.split(",") if pd.notna(x) else np.nan] on
    the one row.  The ratings come first in the pair. *)
Definition extract_user_rating (user_profile : TargetProfile)
  : option (list string) * option (list string) :=
  (option_map (Py.split ","%char) (tp_job_ratings user_profile),
   option_map (Py.split ","%char) (tp_job_recommendations user_profile)).

(** The items of a cell that holds a list. *)
Definition items (c : cell) : list string :=
  match c with
  | Lst l => l
  | _ => []
  end.

Definition expand_rows (df : list UserProfile) : list ExpandedRow :=
  flat_map
    (fun row =>
       map (fun rr => {| er_profile := row;
                         er_conceptUri := fst rr;
                         single_job_rating := snd rr;
                         er_ID := up_index row |})
           (combine (items (job_recommendations row))
                    (items (job_ratings row))))
    df.

Definition process_column_data (item : cell) : cell :=
  match item with
  | Lst l => Lst l
  | NaN => Lst []
  | Str s => Lst (Py.split ","%char s)
  end.

Definition process_columns (u : UserProfile) : UserProfile :=
  {| up_index := up_index u;
     user_id := user_id u;
     up_values := up_values u;
     professional_interests := professional_interests u;
     job_recommendations := process_column_data (job_recommendations u);
     job_ratings := process_column_data (job_ratings u) |}.

(** The two assignments [df_user_profiles[...] = ...] write to the frame
    that was passed in: the first component is that frame after the call.
    No cell is NaN afterwards, so [dropna] drops no row. *)
Definition expand_user_profiles (df_user_profiles : UserFrame)
  : UserFrame * list ExpandedRow :=
  let df_user_profiles :=
    {| uf_labels := uf_labels df_user_profiles;
       uf_rows := map process_columns (uf_rows df_user_profiles) |} in
  (df_user_profiles, expand_rows (uf_rows df_user_profiles)).

Definition sectors_kldb : list (nat * string) :=
  [ (1, "Land-, Forst- und Tierwirtschaft und Gartenbau");
    (2, "Rohstoffgewinnung, Produktion und Fertigung");
    (3, "Bau, Architektur, Vermessung und Gebäudetechnik");
    (4, "Naturwissenschaft, Geografie und Informatik");
    (5, "Verkehr, Logistik, Schutz und Sicherheit");
    (6, "Kaufmännische Dienstleistungen, Warenhandel, Vertrieb, Hotel und Tourismus");
    (7, "Unternehmensorganisation, Buchhaltung, Recht und Verwaltung");
    (8, "Gesundheit, Soziales, Lehre und Erziehung");
    (9, "Sprach-, Geistes-, Gesellschafts- und Wirtschaftswissenschaften, Medien, Kunst und Kultur");
    (0, "Militär") ]%nat.

(** [sectorsList] is the string of the column [professional_interests]:
    [value in sectorsList] asks whether the description occurs in it. *)
Definition mapSectorsToNumbers (sectorsList : string) : list nat :=
  map fst (List.filter (fun kv => Py.contains (snd kv) sectorsList)
                       sectors_kldb).

Definition is_nan_or_empty (value : option (list string)) : bool :=
  match value with
  | None => true
  | Some [] => true
  | Some (_ :: _) => false
  end.

(** [job_fs_profiles.loc[job]], on a frame with one row per uri: for a
    uri of several rows pandas returns them all. *)
Definition loc (job_fs_profiles : OccFrame) (job : string)
  : result OccProfile :=
  match find (fun o => String.eqb (occ_uri o) job) (of_rows job_fs_profiles)
  with
  | Some o => Ok o
  | None => Raise KeyError
  end.

(** The body of the loop over the disliked jobs: the state is
    [(profiles_to_remove, narrower_jobs_to_remove)]. *)
Definition history_step (esco : esco_helper.t) (job_fs_profiles : OccFrame)
    (st : list label * list label) (job : string)
  : result (list label * list label) :=
  let '(profiles_to_remove, narrower_jobs_to_remove) := st in
  let profiles_to_remove :=
    Index.union profiles_to_remove (Index.of_strings [job]) in
  row <- loc job_fs_profiles job ;;
  let mask := fun o =>
    Vec.Qltb (Vec.sqdist (occ_values row) (occ_values o))
             Vec.max_euclidean_distance_sq in
  let removed_profiles :=
    Index.of_strings
      (map occ_uri (List.filter mask (of_rows job_fs_profiles))) in
  let profiles_to_remove :=
    Index.union profiles_to_remove removed_profiles in
  narrower_occupations <- esco_helper.get_narrower_occupations esco job ;;
  let narrower_jobs_to_remove :=
    Index.union narrower_jobs_to_remove
                (Index.of_matrix narrower_occupations) in
  Ok (profiles_to_remove, narrower_jobs_to_remove).

Fixpoint history_loop (esco : esco_helper.t) (job_fs_profiles : OccFrame)
    (st : list label * list label) (jobs : list string)
  : result (list label * list label) :=
  match jobs with
  | [] => Ok st
  | job :: jobs' =>
      st' <- history_step esco job_fs_profiles st job ;;
      history_loop esco job_fs_profiles st' jobs'
  end.

(** [job_history] is a list of dictionaries from a job uri to whether the
    user liked the job. *)
Definition filter_by_job_history (esco : esco_helper.t)
    (job_fs_profiles : OccFrame) (job_history : list (list (string * bool)))
  : result OccFrame :=
  let jobs_disliked :=
    flat_map (fun job_dict =>
                map fst (List.filter (fun kv => negb (snd kv)) job_dict))
             job_history in
  if (0 <? List.length jobs_disliked)%nat then
    '(profiles_to_remove, narrower_jobs_to_remove) <-
       history_loop esco job_fs_profiles ([], []) jobs_disliked ;;
    let all_jobs_to_remove :=
      Index.union profiles_to_remove narrower_jobs_to_remove in
    Ok {| of_labels := of_labels job_fs_profiles;
          of_rows :=
            List.filter
              (fun o => negb (Index.isin (LStr (occ_uri o))
                                         all_jobs_to_remove))
              (of_rows job_fs_profiles) |}
  else Ok job_fs_profiles.

(** [transformed_profiles[~transformed_profiles.index.isin(uris)]] *)
Definition drop_uris (transformed_profiles : OccFrame) (uris : list string)
  : OccFrame :=
  {| of_labels := of_labels transformed_profiles;
     of_rows := List.filter (fun o => negb (Py.isin (occ_uri o) uris))
                            (of_rows transformed_profiles) |}.

(** [filter_by_job_history] and then [filter_by_preferences]: the three
    lines that end each of the three content-based branches of
    [filter_by_rating]. *)
Definition by_history_and_preferences (esco : esco_helper.t)
    (esco_kldb : list KldbRow) (preferences : option (list nat))
    (job_history : list (list (string * bool))) (profiles : OccFrame)
  : result (DataFrame * DataFrame) :=
  user_profiles_by_job_history <-
    filter_by_job_history esco profiles job_history ;;
  filter_by_preferences user_profiles_by_job_history esco_kldb preferences.

Definition num_preferences_of (e : ExpandedRow) : list nat :=
  match professional_interests (er_profile e) with
  | Some x => mapSectorsToNumbers x
  | None => []
  end.

Definition is_preference_not_matched (preferences : list nat)
    (num_prefs : list nat) : bool :=
  forallb (fun pref => negb (Py.isin_nat pref num_prefs)) preferences.

Definition is_preference_matched (preferences : list nat)
    (num_prefs : list nat) : bool :=
  existsb (fun pref => Py.isin_nat pref num_prefs) preferences.

Definition peer_row (e : ExpandedRow) : Row :=
  {| conceptUri := er_conceptUri e;
     FS := up_values (er_profile e);
     origin := Peer e (num_preferences_of e);
     Distance := None;
     broaderUri := None |}.

(** The rows of the expanded frame that [filter_by_rating] keeps when the
    last rating is [rating]: the recommendations with rating 1 of the users
    who gave [rating] to [rated_conceptUri], without the uris of
    [rated_conceptUri_list]. *)
Definition peer_candidates (df_user_profiles_expanded : list ExpandedRow)
    (rated_conceptUri rating : string) (rated_conceptUri_list : list string)
  : list ExpandedRow :=
  let matching_profiles :=
    List.filter (fun e => String.eqb (er_conceptUri e) rated_conceptUri &&
                          String.eqb (single_job_rating e) rating)
                df_user_profiles_expanded in
  let relevant_ids := map (fun e => user_id (er_profile e)) matching_profiles in
  let user_profiles_prefiltered :=
    List.filter (fun e => Py.isin (user_id (er_profile e)) relevant_ids &&
                          String.eqb (single_job_rating e) "1")
                df_user_profiles_expanded in
  List.filter (fun e => negb (Py.isin (er_conceptUri e) rated_conceptUri_list))
              user_profiles_prefiltered.

Definition list_of (value : option (list string)) : list string :=
  match value with
  | Some l => l
  | None => []
  end.

(** The first component is [user_profiles] after the call.  The expanded
    frame of no row at all has no column, and reading its column
    [conceptUri] raises. *)
Definition filter_by_rating (transformed_profiles : OccFrame)
    (user_profiles : UserFrame) (esco_kldb : list KldbRow)
    (esco : esco_helper.t) (preferences : option (list nat))
    (job_history : list (list (string * bool)))
    (rated_conceptUri_list user_profile_rating_list : option (list string))
  : UserFrame * result (DataFrame * DataFrame) :=
  let '(user_profiles, df_user_profiles_expanded) :=
    expand_user_profiles user_profiles in
  (user_profiles,
   if is_nan_or_empty rated_conceptUri_list ||
      is_nan_or_empty user_profile_rating_list then
     by_history_and_preferences esco esco_kldb preferences job_history
       transformed_profiles
   else
     let rated_conceptUri_list := list_of rated_conceptUri_list in
     let rated_conceptUri := List.last rated_conceptUri_list "" in
     let user_profile_last_rating :=
       List.last (list_of user_profile_rating_list) "" in
     if String.eqb user_profile_last_rating "-1" ||
        String.eqb user_profile_last_rating "1" then
       match df_user_profiles_expanded with
       | [] => Raise KeyError
       | _ :: _ =>
           let user_profiles_filtered :=
             peer_candidates df_user_profiles_expanded rated_conceptUri
                             user_profile_last_rating
                             rated_conceptUri_list in
           match user_profiles_filtered with
           | [] =>
               by_history_and_preferences esco esco_kldb preferences
                 job_history
                 (drop_uris transformed_profiles rated_conceptUri_list)
           | _ :: _ =>
               match preferences with
               | None => Raise TypeError
               | Some preferences =>
                   let bucket := fun keep =>
                     {| labels := uf_labels user_profiles;
                        rows :=
                          map peer_row
                              (List.filter
                                 (fun e => keep preferences
                                                (num_preferences_of e))
                                 user_profiles_filtered) |} in
                   Ok (bucket is_preference_matched,
                       bucket is_preference_not_matched)
               end
           end
       end
     else
       by_history_and_preferences esco esco_kldb preferences job_history
         (drop_uris transformed_profiles rated_conceptUri_list)).

(** [np.argsort(keys)]: the positions of [keys] in ascending order of the
    key.  Positions of equal keys are kept in their order, as numpy's sort
    does on arrays of up to 16 keys; numpy promises no order among equal
    keys, and on longer arrays it keeps none. *)
Fixpoint insert (x : nat * Q) (l : list (nat * Q)) : list (nat * Q) :=
  match l with
  | [] => [x]
  | y :: l' =>
      if Qle_bool (snd x) (snd y) then x :: y :: l' else y :: insert x l'
  end.

Definition sort (l : list (nat * Q)) : list (nat * Q) :=
  fold_right insert [] l.

Definition argsort (keys : list Q) : list nat :=
  map fst (sort (combine (seq 0 (List.length keys)) keys)).

(** [a[top_indices]] and [df.iloc[top_indices]] *)
Fixpoint take {A : Type} (a : list A) (top_indices : list nat)
  : result (list A) :=
  match top_indices with
  | [] => Ok []
  | i :: top_indices' =>
      match nth_error a i with
      | Some x => xs <- take a top_indices' ;; Ok (x :: xs)
      | None => Raise IndexError
      end
  end.

Definition set_Distance (r : Row) (d : Q) : Row :=
  {| conceptUri := conceptUri r;
     FS := FS r;
     origin := origin r;
     Distance := Some d;
     broaderUri := broaderUri r |}.

(** [frame[future_skill_col_names]] *)
Definition fs_columns {A : Type} (l : Labels) (values : A) : result A :=
  match l with
  | FSLabels => Ok values
  | _ => Raise KeyError
  end.

(** The first component is [job_fs_profiles] after the call: its columns
    are renamed in place.  The pairwise functions of scikit-learn refuse an
    array of no row.  The column [Distance] holds the key the rows are
    ordered by (see [Vec]). *)
Definition calculate_distances (self : t) (query_vector : TargetProfile)
    (job_fs_profiles : DataFrame) : DataFrame * result DataFrame :=
  let job_fs_profiles :=
    match labels job_fs_profiles with
    | SkillLabels => {| labels := FSLabels; rows := rows job_fs_profiles |}
    | _ => job_fs_profiles
    end in
  (job_fs_profiles,
   query_vector_np <-
     fs_columns (tp_labels query_vector) (tp_values query_vector) ;;
   let pairwise := fun key =>
     values <- fs_columns (labels job_fs_profiles)
                          (map FS (rows job_fs_profiles)) ;;
     match values with
     | [] => Raise ValueError
     | _ :: _ => Ok (map (key query_vector_np) values)
     end in
   '(similarities, top_indices) <-
     (if String.eqb (method self) "euclidean" then
        similarities <- pairwise Vec.sqdist ;;
        Ok (similarities, argsort similarities)
      else if String.eqb (method self) "cosine" then
        similarities <- pairwise Vec.cosine_key ;;
        Ok (similarities, rev (argsort similarities))
      else Raise UnboundLocalError) ;;
   sorted_df <- take (rows job_fs_profiles) top_indices ;;
   distances <- take similarities top_indices ;;
   Ok {| labels := labels job_fs_profiles;
         rows := map (fun rd => set_Distance (fst rd) (snd rd))
                     (combine sorted_df distances) |}).

(** The two functions of scikit-learn that [calculate_distances] calls, on
    the vector of the user and the matrix of the candidates: the scores
    they compute in floating point, one per row of the matrix, whatever
    their rounding. *)
Record Pairwise : Type := {
  euclidean_distances : list Q -> list (list Q) -> list Q;
  cosine_similarity : list Q -> list (list Q) -> list Q
}.

(** The scores without rounding, carried as in [Vec]. *)
Definition exact : Pairwise :=
  {| euclidean_distances := fun x m => map (Vec.sqdist x) m;
     cosine_similarity := fun x m => map (Vec.cosine_key x) m |}.

(** [calculate_distances] with the scores that [sk] computes: the same
    lines, in which the order of the rows is the order of the computed
    scores.  With [exact] it is [calculate_distances]. *)
Definition calculate_distances_by (sk : Pairwise) (self : t)
    (query_vector : TargetProfile) (job_fs_profiles : DataFrame)
  : DataFrame * result DataFrame :=
  let job_fs_profiles :=
    match labels job_fs_profiles with
    | SkillLabels => {| labels := FSLabels; rows := rows job_fs_profiles |}
    | _ => job_fs_profiles
    end in
  (job_fs_profiles,
   query_vector_np <-
     fs_columns (tp_labels query_vector) (tp_values query_vector) ;;
   let pairwise := fun scores =>
     values <- fs_columns (labels job_fs_profiles)
                          (map FS (rows job_fs_profiles)) ;;
     match values with
     | [] => Raise ValueError
     | _ :: _ => Ok (scores query_vector_np values)
     end in
   '(similarities, top_indices) <-
     (if String.eqb (method self) "euclidean" then
        similarities <- pairwise (euclidean_distances sk) ;;
        Ok (similarities, argsort similarities)
      else if String.eqb (method self) "cosine" then
        similarities <- pairwise (cosine_similarity sk) ;;
        Ok (similarities, rev (argsort similarities))
      else Raise UnboundLocalError) ;;
   sorted_df <- take (rows job_fs_profiles) top_indices ;;
   distances <- take similarities top_indices ;;
   Ok {| labels := labels job_fs_profiles;
         rows := map (fun rd => set_Distance (fst rd) (snd rd))
                     (combine sorted_df distances) |}).

(** One position of a job profile against the user's value: [None] when
    the job is in the panic zone, the new value of the position otherwise.
    The bound 0.2 of the source is [2 # 10].  The two sums are exact; the
    sums of the source are rounded, and they are the same on the values of
    [Props.on_grid]. *)
Definition zone_value (learning_factor panic_tolerance : Q) (a u : Q)
  : option Q :=
  if Qle_bool a u then Some u
  else if Vec.Qltb u (2 # 10) && Vec.Qltb (u + panic_tolerance) a then None
  else if Qle_bool (u + learning_factor) a then Some 2
  else Some u.

(** The loop over the positions: [None] when it ends with [break]. *)
Fixpoint zone_row (learning_factor panic_tolerance : Q) (arr user : list Q)
  : option (list Q) :=
  match arr, user with
  | a :: arr', u :: user' =>
      match zone_value learning_factor panic_tolerance a u with
      | Some x =>
          option_map (cons x)
                     (zone_row learning_factor panic_tolerance arr' user')
      | None => None
      end
  | _, _ => Some []
  end.

(** The array after the loop: [[-1] * base_length] after a [break]. *)
Definition zone_array (learning_factor panic_tolerance : Q)
    (arr user : list Q) : list Q :=
  match zone_row learning_factor panic_tolerance arr user with
  | Some out => out
  | None => repeat (- (1))%Q (List.length user)
  end.

(** The number of positions where the two arrays differ. *)
Fixpoint differing (u v : list Q) : nat :=
  match u, v with
  | x :: u', y :: v' => (if Qeq_bool x y then 0 else 1) + differing u' v'
  | _, _ => 0
  end.

(** [scipy.spatial.distance.hamming(u, v)]: the share of the positions
    where [u] and [v] differ.  On arrays of no value scipy returns NaN; the
    properties of the scores are stated for a user profile of at least one
    value.  The share is exact; the product of the rounded share with the
    length is the number of the differing positions up to the length 21. *)
Definition hamming (u v : list Q) : Q :=
  inject_Z (Z.of_nat (differing u v)) / inject_Z (Z.of_nat (List.length u)).

(** [job_fs_profiles] holds the rows of the frame without its last two
    columns ([iloc[:, :-2].values]), an array of floats.  The defaults of
    the source are [learning_factor = 0.3] and [panic_tolerance = 0.1]. *)
Fixpoint zone_calculator (job_fs_profiles : list (list Q))
    (user_fs_profile : list Q) (learning_factor panic_tolerance : Q)
  : result (list Q * list (list Q)) :=
  let base_length := List.length user_fs_profile in
  match job_fs_profiles with
  | [] => Ok ([], [])
  | arr :: job_fs_profiles' =>
      if negb (List.length arr =? base_length)%nat then Raise ValueError
      else
        let arr := zone_array learning_factor panic_tolerance arr
                              user_fs_profile in
        let hamming_dist :=
          hamming user_fs_profile arr * inject_Z (Z.of_nat base_length) in
        '(output_hamming, output_arrays) <-
           zone_calculator job_fs_profiles' user_fs_profile
                           learning_factor panic_tolerance ;;
        Ok (hamming_dist :: output_hamming, arr :: output_arrays)
  end.

End JobMatcher.

(** ** The recommender *)

(** The frame that [refine_recommendations] reads the broader profiles
    from.  It selects rows by the column [conceptUri]; a frame that is
    indexed by the uri, as [transformed_profiles] is, has no such column. *)
Inductive PreferredFrame : Type :=
| IndexedByUri (f : OccFrame)
| WithUriColumn (df : DataFrame).

Module JobRecommender.

Definition get_recommendations (matches : DataFrame) : DataFrame :=
  {| labels := labels matches; rows := firstn 10 (rows matches) |}.

(** [job_fs_profile] holds the first eleven columns of the rows of one
    recommendation.  In a frame of occupations these are the ten skill
    columns and [conceptUri]; in a frame of expanded user profiles
    [conceptUri] is a later column, and dropping it raises. *)
Definition drop_conceptUri (job_fs_profile : list Row)
  : result (list (list Q)) :=
  match job_fs_profile with
  | [] => Ok []
  | r :: _ =>
      match origin r with
      | Occupation _ => Ok (map FS job_fs_profile)
      | Peer _ _ => Raise KeyError
      end
  end.

(** Both arrays are reshaped to one column, [reshape(-1, 1)], so that
    [similarities[0][0]] is the distance between the first value of the one
    and the first value of the other. *)
Definition compare_occupation_similarity (job_fs_profile : list Row)
    (broader_job_fs_profile : list Q) : result bool :=
  job_fs_profile_arr <- drop_conceptUri job_fs_profile ;;
  match List.concat job_fs_profile_arr, broader_job_fs_profile with
  | a :: _, b :: _ =>
      Ok (Vec.Qltb (Vec.sqdist [a] [b]) Vec.max_euclidean_distance_sq)
  | _, _ => Raise ValueError
  end.

(** [broader_occupations.loc[broader_occupations["conceptUri"] == uri,
    "broaderUri"].iloc[0]] *)
Definition first_broader (broader_occupations : list (string * string))
    (uri : string) : result string :=
  match find (fun r => String.eqb (fst r) uri) broader_occupations with
  | Some r => Ok (snd r)
  | None => Raise IndexError
  end.

(** [transformed_profiles_preferred.loc[
      transformed_profiles_preferred["conceptUri"] == uri]] *)
Definition select_concept (transformed_profiles_preferred : PreferredFrame)
    (uri : string) : result (list Row) :=
  match transformed_profiles_preferred with
  | WithUriColumn df =>
      Ok (List.filter (fun r => String.eqb (conceptUri r) uri) (rows df))
  | IndexedByUri _ => Raise KeyError
  end.

Definition set_broaderUri (b : option string) (r : Row) : Row :=
  {| conceptUri := conceptUri r;
     FS := FS r;
     origin := origin r;
     Distance := Distance r;
     broaderUri := b |}.

(** The body of the [try] block for one recommendation: [Ok None] when
    the broader occupation is not close enough, [Ok (Some rows)] when its
    rows take the place of the recommendation. *)
Definition try_broader (broader_occupations : list (string * string))
    (transformed_profiles_preferred : PreferredFrame)
    (occ_fs_profile_scaled_df : OccFrame)
    (job_fs_profile : list Row) (recom_broader_uri : string)
  : result (option (list Row)) :=
  broader_fs_profile <-
    JobMatcher.loc occ_fs_profile_scaled_df recom_broader_uri ;;
  close <- compare_occupation_similarity job_fs_profile
                                         (occ_values broader_fs_profile) ;;
  if close then
    let broader_fs_profile_recom_concept_uri := occ_uri broader_fs_profile in
    broader_fs_profile_recom_concept <-
      select_concept transformed_profiles_preferred
                     broader_fs_profile_recom_concept_uri ;;
    recom_broader_uri <-
      first_broader broader_occupations
                    broader_fs_profile_recom_concept_uri ;;
    Ok (Some (map (set_broaderUri (Some recom_broader_uri))
                  broader_fs_profile_recom_concept))
  else Ok None.

(** One turn of the loop.  The state is [(recommended_jobs,
    recommended_jobs_broader_occ)].  The look-up of the broader uri of the
    recommendation is outside the [try] block; whatever the block raises is
    swallowed and the state is left as it was. *)
Definition refine_step (broader_occupations : list (string * string))
    (transformed_profiles_preferred : PreferredFrame)
    (occ_fs_profile_scaled_df : OccFrame)
    (st : list Row * list Row) (recom_uri : string)
  : result (list Row * list Row) :=
  let '(recommended_jobs, recommended_jobs_broader_occ) := st in
  let job_fs_profile :=
    List.filter (fun r => String.eqb (conceptUri r) recom_uri)
                recommended_jobs in
  recom_broader_uri <- first_broader broader_occupations recom_uri ;;
  match try_broader broader_occupations transformed_profiles_preferred
                    occ_fs_profile_scaled_df job_fs_profile
                    recom_broader_uri with
  | Ok (Some broader_fs_profile_recom_concept) =>
      Ok (List.filter (fun r => negb (String.eqb (conceptUri r) recom_uri))
                      recommended_jobs,
          (recommended_jobs_broader_occ ++
             broader_fs_profile_recom_concept)%list)
  | Ok None => Ok st
  | Raise _ => Ok st
  end.

Fixpoint refine_loop (broader_occupations : list (string * string))
    (transformed_profiles_preferred : PreferredFrame)
    (occ_fs_profile_scaled_df : OccFrame)
    (st : list Row * list Row) (uris : list string)
  : result (list Row * list Row) :=
  match uris with
  | [] => Ok st
  | recom_uri :: uris' =>
      st' <- refine_step broader_occupations transformed_profiles_preferred
                         occ_fs_profile_scaled_df st recom_uri ;;
      refine_loop broader_occupations transformed_profiles_preferred
                  occ_fs_profile_scaled_df st' uris'
  end.

(** The loop runs over the uris of [recommended_jobs] as it is when the
    loop starts. *)
Definition refine_recommendations
    (broader_occupations : list (string * string))
    (recommended_jobs : list Row)
    (transformed_profiles_preferred : PreferredFrame)
    (occ_fs_profile_scaled_df : OccFrame) : result (list Row) :=
  '(recommended_jobs, recommended_jobs_broader_occ) <-
     refine_loop broader_occupations transformed_profiles_preferred
                 occ_fs_profile_scaled_df (recommended_jobs, [])
                 (map conceptUri recommended_jobs) ;;
  Ok (recommended_jobs ++ recommended_jobs_broader_occ)%list.

(** [recommended_jobs.merge(broader_occupations[["conceptUri",
    "broaderUri"]], on="conceptUri", how="left")] *)
Definition merge_broader (broader_occupations : list (string * string))
    (recommended_jobs : list Row) : list Row :=
  flat_map
    (fun r =>
       match List.filter (fun b => String.eqb (fst b) (conceptUri r))
                         broader_occupations with
       | [] => [set_broaderUri None r]
       | bs => map (fun b => set_broaderUri (Some (snd b)) r) bs
       end)
    recommended_jobs.

Definition option_string_eqb (a b : option string) : bool :=
  match a, b with
  | Some x, Some y => String.eqb x y
  | None, None => true
  | _, _ => false
  end.

(** [drop_duplicates(subset=["broaderUri"], keep="first")]; [seen] holds
    the broader uris of the rows before. *)
Fixpoint drop_duplicates_from (seen : list (option string)) (l : list Row)
  : list Row :=
  match l with
  | [] => []
  | r :: l' =>
      if existsb (option_string_eqb (broaderUri r)) seen
      then drop_duplicates_from seen l'
      else r :: drop_duplicates_from (broaderUri r :: seen) l'
  end.

Definition drop_duplicates (l : list Row) : list Row :=
  drop_duplicates_from [] l.

Definition get_comfort_zone_recommendation (top_jobs : DataFrame)
    (transformed_profiles_preferred : PreferredFrame)
    (transformed_profiles : OccFrame) (esco : esco_helper.t)
  : result DataFrame :=
  let broader_occupations := esco_helper.broaderRelationsOccPillar esco in
  let recommended_jobs := rows top_jobs in
  let recommended_jobs := merge_broader broader_occupations recommended_jobs in
  let recommended_jobs := drop_duplicates recommended_jobs in
  final_recom <-
    refine_recommendations broader_occupations (firstn 5 recommended_jobs)
                           transformed_profiles_preferred
                           transformed_profiles ;;
  Ok {| labels := labels top_jobs;
        rows := map (set_broaderUri None) final_recom |}.

End JobRecommender.

(** ** The pipeline *)

Module RecommenderPipeline.

(** The operations of the matcher and of the recommender that the
    pipeline calls. *)
Record Matcher : Type := {
  extract_user_rating :
    TargetProfile -> option (list string) * option (list string);
  filter_by_rating :
    OccFrame -> UserFrame -> list KldbRow -> esco_helper.t ->
    option (list nat) -> list (list (string * bool)) ->
    option (list string) -> option (list string) ->
    UserFrame * result (DataFrame * DataFrame);
  calculate_distances :
    TargetProfile -> DataFrame -> DataFrame * result DataFrame
}.

Record Recommender : Type := {
  get_comfort_zone_recommendation :
    DataFrame -> PreferredFrame -> OccFrame -> esco_helper.t ->
    result DataFrame;
  get_recommendations : DataFrame -> DataFrame
}.

Definition job_matcher (m : JobMatcher.t) : Matcher :=
  {| extract_user_rating := JobMatcher.extract_user_rating;
     filter_by_rating := JobMatcher.filter_by_rating;
     calculate_distances := JobMatcher.calculate_distances m |}.

Definition job_recommender : Recommender :=
  {| get_comfort_zone_recommendation :=
       JobRecommender.get_comfort_zone_recommendation;
     get_recommendations := JobRecommender.get_recommendations |}.

(** The pipeline with what it reads from the paths of [path_dict]. *)
Record t : Type := {
  matcher : Matcher;
  recommender : Recommender;
  ESCO2kldb : list KldbRow;
  ESCO : esco_helper.t
}.

(** [frame[1]]: the columns of a frame are labelled by strings, and no
    column answers to the key [1]. *)
Definition getitem (frame : DataFrame) (key : nat) : result DataFrame :=
  Raise KeyError.

(** The first component is [user_profiles] after the call.  With
    [learning_zone] the matcher's [zone_calculator] is called without its
    arguments. *)
Definition match_user_profile (self : t) (target_profile : TargetProfile)
    (transformed_profiles : OccFrame) (user_profiles : UserFrame)
    (preferences : option (list nat))
    (job_history : list (list (string * bool))) (learning_zone : bool)
  : UserFrame * result (DataFrame * OccFrame) :=
  let esco_kldb := ESCO2kldb self in
  let '(user_profile_rating_list, rated_conceptUri_list) :=
    extract_user_rating (matcher self) target_profile in
  let '(user_profiles, filtered_profiles) :=
    filter_by_rating (matcher self) transformed_profiles user_profiles
                     esco_kldb (ESCO self) preferences job_history
                     rated_conceptUri_list user_profile_rating_list in
  (user_profiles,
   filtered_profiles <- filtered_profiles ;;
   filtered_profiles <-
     (if JobMatcher.is_nan_or_empty user_profile_rating_list then
        let filtered_profiles := fst filtered_profiles in
        if empty filtered_profiles then getitem filtered_profiles 1
        else Ok filtered_profiles
      else if empty (fst filtered_profiles) ||
              (List.length (JobMatcher.list_of user_profile_rating_list)
               =? 0)%nat
      then Ok (snd filtered_profiles)
      else Ok (fst filtered_profiles)) ;;
   matchings <-
     snd (calculate_distances (matcher self) target_profile
                              filtered_profiles) ;;
   matchings <- (if learning_zone then Raise TypeError else Ok matchings) ;;
   Ok (matchings, transformed_profiles)).

Definition recommend_occupation (self : t) (matches : DataFrame)
    (transformed_profiles_preferred : PreferredFrame)
    (transformed_profiles : OccFrame) (comfort_zone : bool)
  : result DataFrame :=
  if comfort_zone then
    get_comfort_zone_recommendation (recommender self) matches
      transformed_profiles_preferred transformed_profiles (ESCO self)
  else Ok (get_recommendations (recommender self) matches).

(** [except Exception: ... sys.exit()]: whatever a stage raises leaves
    [run] as [SystemExit]. *)
Definition run (self : t) (target_profile : TargetProfile)
    (preferences : option (list nat))
    (job_history : list (list (string * bool)))
    (transformed_profiles : OccFrame) (user_profiles : UserFrame)
  : UserFrame * result DataFrame :=
  let '(user_profiles, matched) :=
    match_user_profile self target_profile transformed_profiles
                       user_profiles preferences job_history false in
  (user_profiles,
   match
     ('(matches, transformed_profiles_preferred) <- matched ;;
      recommend_occupation self matches
        (IndexedByUri transformed_profiles_preferred)
        transformed_profiles true)
   with
   | Ok recommendations => Ok recommendations
   | Raise _ => Raise SystemExit
   end).

End RecommenderPipeline.

(** ** The route of the recommendations *)

Module App.

(** The data of a job of the request: its uri and whether the user liked
    it. *)
Record JobData : Type := {
  jd_uri : string;
  jd_liked : bool
}.

(** The body of a request to [/recommendations]. *)
Record RequestData : Type := {
  profile : list Q;
  preferenced_sectors : option (list nat);
  last_job : option JobData;
  second_last_job : option JobData;
  previous_job : option JobData;
  rq_job_recommendations : list string;
  rq_job_ratings : list Z
}.

(** [str(rating)] for an integer. *)
Definition str (rating : Z) : string :=
  NilEmpty.string_of_int (Z.to_int rating).

Definition job_dict (job_data : option JobData)
  : option (list (string * bool)) :=
  option_map (fun j => [(jd_uri j, jd_liked j)]) job_data.

(** [[job for job in [last_job, second_last_job, previous_job]
      if job is not None]] *)
Definition job_history (data : RequestData) : list (list (string * bool)) :=
  flat_map (fun job => match job with Some d => [d] | None => [] end)
           [job_dict (last_job data); job_dict (second_last_job data);
            job_dict (previous_job data)].

(** [",".join(items) if items else "NaN"] *)
Definition joined (items : list string) : string :=
  match items with
  | [] => "NaN"
  | _ :: _ => String.concat "," items
  end.

(** The frame [target_profile] of the route, for a request whose profile
    has the ten values of the ten skill columns; the properties of the
    route are stated for such requests. *)
Definition target_profile (data : RequestData) : TargetProfile :=
  {| tp_labels := FSLabels;
     tp_values := profile data;
     tp_job_recommendations := Some (joined (rq_job_recommendations data));
     tp_job_ratings := Some (joined (map str (rq_job_ratings data))) |}.

(** The pipeline of the route: the matcher with its default method. *)
Definition recom_pipe (esco2kldb : list KldbRow) (esco : esco_helper.t)
  : RecommenderPipeline.t :=
  {| RecommenderPipeline.matcher :=
       RecommenderPipeline.job_matcher JobMatcher.default;
     RecommenderPipeline.recommender := RecommenderPipeline.job_recommender;
     RecommenderPipeline.ESCO2kldb := esco2kldb;
     RecommenderPipeline.ESCO := esco |}.

(** [recommendations.iloc[0]["conceptUri"]] *)
Definition first_uri (recommendations : DataFrame) : result string :=
  match rows recommendations with
  | r :: _ => Ok (conceptUri r)
  | [] => Raise IndexError
  end.

(** The route up to the uri whose detail it returns.  The first component
    is the frame of reference user profiles after the request. *)
Definition recommendation_detail (esco2kldb : list KldbRow)
    (esco : esco_helper.t) (transformed_occ_profiles : OccFrame)
    (reference_user_profiles : UserFrame) (data : RequestData)
  : UserFrame * result string :=
  let '(reference_user_profiles, recommendations) :=
    RecommenderPipeline.run (recom_pipe esco2kldb esco) (target_profile data)
      (preferenced_sectors data) (job_history data)
      transformed_occ_profiles reference_user_profiles in
  (reference_user_profiles,
   recommendations <- recommendations ;; first_uri recommendations).

End App.

(** ** Notions used to state the properties *)

Module Props.

(** The character is a decimal digit; it is the digit [p]. *)
Definition is_digit (a : ascii) : bool :=
  ((48 <=? nat_of_ascii a) && (nat_of_ascii a <=? 57))%nat.

Definition digit_of (a : ascii) (p : nat) : bool :=
  is_digit a && (p =? nat_of_ascii a - 48)%nat.

(** The sector codes written in a string of sector keys: its decimal
    digits. *)
Fixpoint sector_membership (kldb_keys : string) : list nat :=
  match kldb_keys with
  | EmptyString => []
  | String c s =>
      if is_digit c
      then (nat_of_ascii c - 48)%nat :: sector_membership s
      else sector_membership s
  end.

Definition intersects (preferences : list nat) (r : Row) : bool :=
  match JobMatcher.kldb_keys_of r with
  | Some keys =>
      existsb (fun p => Py.isin_nat p (sector_membership keys)) preferences
  | None => false
  end.

(** The frame of user profiles after [expand_user_profiles]. *)
Definition processed (ups : UserFrame) : UserFrame :=
  {| uf_labels := uf_labels ups;
     uf_rows := map JobMatcher.process_columns (uf_rows ups) |}.

(** The uris of the two frames that a filter returns. *)
Definition uris_of (r : result (DataFrame * DataFrame))
  : option (list string * list string) :=
  match r with
  | Ok (preferred, alternate) =>
      Some (map conceptUri (rows preferred), map conceptUri (rows alternate))
  | Raise _ => None
  end.

(** The disliked jobs of a job history, as [filter_by_job_history]
    collects them. *)
Definition disliked (job_history : list (list (string * bool)))
  : list string :=
  flat_map (fun job_dict =>
              map fst (List.filter (fun kv => negb (snd kv)) job_dict))
           job_history.

(** The order of the pairs of a position and a key that [argsort] sorts. *)
Definition le_key (a b : nat * Q) : Prop := (snd a <= snd b)%Q.

(** The uris of a ranking, in rank order. *)
Definition ranking (r : result DataFrame) : option (list string) :=
  match r with
  | Ok df => Some (map conceptUri (rows df))
  | Raise _ => None
  end.

(** The row of the join of an occupation with a row of sector keys. *)
Definition joined_row (o : OccProfile) (k : KldbRow) : Row :=
  {| conceptUri := occ_uri o;
     FS := occ_values o;
     origin := Occupation (kl_keys k);
     Distance := None;
     broaderUri := None |}.

(** The key that [calculate_distances] orders the rows by. *)
Definition euclidean_key (query : TargetProfile) (r : Row) : Q :=
  Vec.sqdist (tp_values query) (FS r).

Definition cosine_key (query : TargetProfile) (r : Row) : Q :=
  Vec.cosine_key (tp_values query) (FS r).

(** [e] is a recommendation with rating 1 of a user who gave [rating] to
    [uri], and it is not one of the uris [shown]. *)
Definition qualifies (expanded : list ExpandedRow) (uri rating : string)
    (shown : list string) (e : ExpandedRow) : Prop :=
  In e expanded /\
  single_job_rating e = "1" /\
  ~ In (er_conceptUri e) shown /\
  exists e', In e' expanded /\
             user_id (er_profile e') = user_id (er_profile e) /\
             er_conceptUri e' = uri /\
             single_job_rating e' = rating.

(** In the log of the user [u], [v] is rated 1 at a position after a
    position where [uri] is rated [rating]. *)
Definition rated_after (u : UserProfile) (uri rating v : string) : Prop :=
  exists i j : nat,
    (i < j)%nat /\
    nth_error (combine (JobMatcher.items (job_recommendations u))
                       (JobMatcher.items (job_ratings u))) i
      = Some (uri, rating) /\
    nth_error (combine (JobMatcher.items (job_recommendations u))
                       (JobMatcher.items (job_ratings u))) j
      = Some (v, "1").

(** The Euclidean distance between the skill vectors is below 30. *)
Definition close (x y : list Q) : Prop :=
  (Vec.sqdist x y < Vec.max_euclidean_distance_sq)%Q.


(** What [refine_recommendations] does with the recommendation [c]:
    [Some rows] when [rows] take its place, [None] when it is kept. *)
Definition broadened (broader_occupations : list (string * string))
    (preferred : PreferredFrame) (pool : OccFrame) (c : Row)
  : option (list Row) :=
  match JobRecommender.first_broader broader_occupations (conceptUri c) with
  | Ok b =>
      match JobRecommender.try_broader broader_occupations preferred pool
                                       [c] b with
      | Ok (Some rows) => Some rows
      | _ => None
      end
  | Raise _ => None
  end.

Definition kept (broader_occupations : list (string * string))
    (preferred : PreferredFrame) (pool : OccFrame) (c : Row) : bool :=
  match broadened broader_occupations preferred pool c with
  | Some _ => false
  | None => true
  end.


(** The job [d] is a row of the pool and a row of the look-up table of
    ESCO. *)
Definition resolvable (h : esco_helper.t) (pool : OccFrame) (d : string)
  : bool :=
  existsb (fun o => String.eqb (occ_uri o) d) (of_rows pool) &&
  existsb (fun r => String.eqb (fst r) d) (esco_helper.look_up_table h).

(** The uri has a row in the broader relations. *)
Definition has_broader (broader_occupations : list (string * string))
    (uri : string) : bool :=
  existsb (fun r => String.eqb (fst r) uri) broader_occupations.

(** The values of a profile are whole numbers of at most 1000 in absolute
    value, and there are at most 1000 of them: on such profiles the sums,
    the products and the square root of the Euclidean distance are computed
    in floating point without rounding where it matters, and the
    comparisons of the computed distances are those of the exact ones. *)
Definition exactly_computed (x : list Q) : Prop :=
  (List.length x <= 1000)%nat /\
  Forall (fun q => Qden q = 1%positive /\ (Z.abs (Qnum q) <= 1000)%Z) x.

Definition wholeb (x : list Q) : bool :=
  (List.length x <=? 1000)%nat &&
  forallb (fun q => Pos.eqb (Qden q) 1 && (Z.abs (Qnum q) <=? 1000)%Z) x.

(** The value is a multiple of 1/1024 of at most 1024 in absolute value:
    the sum of two such values is computed in floating point without
    rounding. *)
Definition on_grid (q : Q) : Prop :=
  exists k : Z, (q == k # 1024)%Q /\ (Z.abs k <= 1048576)%Z.

(** The rows of a frame with their scores in the column [Distance]. *)
Definition annotated (rs : list Row) (scores : list Q) : list Row :=
  map (fun rd => JobMatcher.set_Distance (fst rd) (snd rd))
      (combine rs scores).

(** In the ranking [top_indices], the row at the position [i] of the frame
    comes before the row at its position [j]. *)
Definition before (top_indices : list nat) (i j : nat) : Prop :=
  exists p q : nat,
    (p < q)%nat /\
    nth_error top_indices p = Some i /\ nth_error top_indices q = Some j.

(** The order in which a sort that keeps the order of equal keys leaves
    the pairs of a position and a key. *)
Definition stable_lt (a b : nat * Q) : Prop :=
  (snd a < snd b)%Q \/ ((snd a == snd b)%Q /\ (fst a < fst b)%nat).

(** The score of the row at the position [i] of the frame. *)
Definition score (scores : list Q) (i : nat) (s : Q) : Prop :=
  nth_error scores i = Some s.

(** The integer is one of the three ratings -1, 0 and 1. *)
Definition is_rating (z : Z) : Prop := z = (-1)%Z \/ z = 0%Z \/ z = 1%Z.

(** The string holds no comma. *)
Definition comma_free (s : string) : Prop :=
  ~ In ","%char (list_ascii_of_string s).

(** A position of a job, given as the pair of the job's value and of the
    user's value, lies in the panic zone; in the learning zone. *)
Definition panic (panic_tolerance : Q) (au : Q * Q) : bool :=
  negb (Qle_bool (fst au) (snd au)) &&
  (Vec.Qltb (snd au) (2 # 10) &&
   Vec.Qltb (snd au + panic_tolerance) (fst au)).

Definition learning (learning_factor : Q) (au : Q * Q) : bool :=
  negb (Qle_bool (fst au) (snd au)) &&
  Qle_bool (snd au + learning_factor) (fst au).

(** The code [b] extends the code [a] by at least one character. *)
Definition extends (a b : string) : bool :=
  String.prefix a b && Nat.ltb (String.length a) (String.length b).

(** [c] lies below [b] in the broader relations: a chain of rows leads
    from [c] up to [b]. *)
Inductive descendant (pillar : list (string * string))
  : string -> string -> Prop :=
| descendant_child : forall c b,
    In (c, b) pillar -> descendant pillar b c
| descendant_step : forall c m b,
    In (m, b) pillar -> descendant pillar m c -> descendant pillar b c.

(** The broader uris of the rows of [relations] whose concept is [c], in
    the order of the rows; [None] when there is no such row. *)
Definition group (relations : list (string * string)) (c : string)
  : option (list string) :=
  match List.filter (fun r => String.eqb (fst r) c) relations with
  | [] => None
  | r :: rs => Some (map snd (r :: rs))
  end.

End Props.

(** ** Concrete frames *)

Module Examples.

Definition v (a b : Q) : list Q := [a; b; 0; 0; 0; 0; 0; 0; 0; 0].

Definition occ (uri : string) (values : list Q) : OccProfile :=
  {| occ_uri := uri; occ_values := values |}.

(** Three occupations: B is at distance 5 of A, C at distance 40. *)
Definition pool : OccFrame :=
  {| of_labels := FSLabels;
     of_rows := [occ "A" (v 10 90); occ "B" (v 15 90); occ "C" (v 10 50)] |}.

Definition esco2kldb : list KldbRow :=
  [ {| kl_uri := "A"; kl_keys := Some "[3 5]" |};
    {| kl_uri := "B"; kl_keys := Some "[1]" |};
    {| kl_uri := "C"; kl_keys := Some "[5 9]" |} ].

(** The codes of B and C extend the code of A. *)
Definition esco : esco_helper.t :=
  {| esco_helper.occupations :=
       [("A", "2512"); ("B", "2512.1"); ("C", "2512.2")];
     esco_helper.other_concepts := [];
     esco_helper.broaderRelationsOccPillar :=
       [("B", "A"); ("C", "A"); ("A", "G")] |}.

Definition user (ratings : option (string * string)) : TargetProfile :=
  {| tp_labels := FSLabels;
     tp_values := v 10 90;
     tp_job_recommendations := option_map fst ratings;
     tp_job_ratings := option_map snd ratings |}.

(** A user whose columns are not the skill columns. *)
Definition user_without_skill_columns : TargetProfile :=
  {| tp_labels := OtherLabels;
     tp_values := [];
     tp_job_recommendations := None;
     tp_job_ratings := None |}.

Definition peer (id : string) (recs ratings : string) : UserProfile :=
  {| up_index := 0;
     user_id := id;
     up_values := v 20 80;
     professional_interests := Some "Militär";
     job_recommendations := Str recs;
     job_ratings := Str ratings |}.

Definition peers (l : list UserProfile) : UserFrame :=
  {| uf_labels := SkillLabels; uf_rows := l |}.

(** The row of the expanded profiles for the recommendation [uri], rated
    [rating], of a user. *)
Definition expanded_row (u : UserProfile) (uri rating : string)
  : ExpandedRow :=
  {| er_profile := JobMatcher.process_columns u;
     er_conceptUri := uri;
     single_job_rating := rating;
     er_ID := up_index u |}.

Definition pipeline : RecommenderPipeline.t :=
  {| RecommenderPipeline.matcher :=
       RecommenderPipeline.job_matcher JobMatcher.default;
     RecommenderPipeline.recommender := RecommenderPipeline.job_recommender;
     RecommenderPipeline.ESCO2kldb := esco2kldb;
     RecommenderPipeline.ESCO := esco |}.

Definition candidate (uri : string) (values : list Q) : Row :=
  {| conceptUri := uri;
     FS := values;
     origin := Occupation None;
     Distance := None;
     broaderUri := None |}.




(** Two candidates with the same profile, the profile of the user. *)
Definition clones : DataFrame :=
  {| labels := FSLabels;
     rows := [candidate "A" (v 10 90); candidate "B" (v 10 90)] |}.

(** Two candidates in the same direction as the user. *)
Definition twins : DataFrame :=
  {| labels := FSLabels;
     rows := [candidate "A" (v 10 90); candidate "B" (v 20 180)] |}.

(** A request of a user who liked the last job A, was shown A and then B,
    liked the one and skipped the other, and prefers the sector 5. *)
Definition request : App.RequestData :=
  {| App.profile := v 10 50;
     App.preferenced_sectors := Some [5%nat];
     App.last_job := Some {| App.jd_uri := "A"; App.jd_liked := true |};
     App.second_last_job := None;
     App.previous_job := None;
     App.rq_job_recommendations := ["A"; "B"];
     App.rq_job_ratings := [1%Z; 0%Z] |}.

(** The first request of the same user: nothing shown, nothing rated. *)
Definition first_request : App.RequestData :=
  {| App.profile := v 10 50;
     App.preferenced_sectors := Some [5%nat];
     App.last_job := Some {| App.jd_uri := "A"; App.jd_liked := true |};
     App.second_last_job := None;
     App.previous_job := None;
     App.rq_job_recommendations := [];
     App.rq_job_ratings := [] |}.

End Examples.

(** * Properties *)

Import Examples.

(** ** Membership *)

Lemma isin_In : forall x l, Py.isin x l = true <-> In x l.
Proof.
  intros x l. unfold Py.isin. rewrite existsb_exists. split.
  - intros [y [Hy E]]. apply String.eqb_eq in E. subst. assumption.
  - intros H. exists x. split; [assumption|apply String.eqb_refl].
Qed.

Lemma isin_false : forall x l, Py.isin x l = false <-> ~ In x l.
Proof.
  intros x l. rewrite <- isin_In. destruct (Py.isin x l).
  - split; intro H; [discriminate | exfalso; apply H; reflexivity].
  - split; intro H; [intro H'; discriminate | reflexivity].
Qed.

(** ** The recommender without the comfort zone *)

(** C10.  With the comfort zone off, the pipeline returns
    [get_recommendations(matches)]: the first [min 10 (len matches)] rows of
    [matches], in their order. *)
Theorem recommend_occupation_head_10 :
  forall (m : RecommenderPipeline.Matcher) (kldb : list KldbRow)
         (h : esco_helper.t) (matches : DataFrame)
         (preferred : PreferredFrame) (pool : OccFrame),
    let self := {| RecommenderPipeline.matcher := m;
                   RecommenderPipeline.recommender :=
                     RecommenderPipeline.job_recommender;
                   RecommenderPipeline.ESCO2kldb := kldb;
                   RecommenderPipeline.ESCO := h |} in
    let out := JobRecommender.get_recommendations matches in
    RecommenderPipeline.recommend_occupation self matches preferred pool false
      = Ok out /\
    rows out = firstn 10 (rows matches) /\
    List.length (rows out) = Nat.min 10 (List.length (rows matches)) /\
    exists rest, rows matches = (rows out ++ rest)%list.
Proof.
  intros m kldb h matches preferred pool0 self out.
  split; [reflexivity|].
  split; [reflexivity|].
  split.
  - change (rows out) with (firstn 10 (rows matches)).
    apply length_firstn.
  - exists (skipn 10 (rows matches)).
    change (rows out) with (firstn 10 (rows matches)).
    symmetry; apply firstn_skipn.
Qed.

(** ** The choice of the bucket *)

(** The choice between the two frames when the user has a rating. *)
Lemma match_user_profile_rated_choice :
  forall self target pool ups prefs hist ratings rated ups' preferred alternate,
    RecommenderPipeline.extract_user_rating
      (RecommenderPipeline.matcher self) target = (ratings, rated) ->
    JobMatcher.is_nan_or_empty ratings = false ->
    RecommenderPipeline.filter_by_rating (RecommenderPipeline.matcher self)
      pool ups (RecommenderPipeline.ESCO2kldb self)
      (RecommenderPipeline.ESCO self) prefs hist rated ratings
      = (ups', Ok (preferred, alternate)) ->
    snd (RecommenderPipeline.match_user_profile self target pool ups prefs
                                                hist false)
    = (matchings <-
         snd (RecommenderPipeline.calculate_distances
                (RecommenderPipeline.matcher self) target
                (if empty preferred then alternate else preferred)) ;;
       Ok (matchings, pool)).
Proof.
  intros self target pool0 ups prefs hist ratings rated ups' preferred
         alternate Hext Hnan Hfilter.
  unfold RecommenderPipeline.match_user_profile.
  rewrite Hext, Hfilter; simpl.
  rewrite Hnan.
  destruct ratings as [[|r rs]|]; try discriminate.
  simpl. rewrite Bool.orb_false_r.
  destruct (empty preferred); simpl;
    match goal with
    | |- context [snd ?c] => destruct (snd c)
    end; reflexivity.
Qed.

(** C1, at a user without any rating whose preference (sector 7) matches
    no occupation: [filter_by_rating] returns two frames of no row, and
    [match_user_profile] raises [KeyError] where it should take the second
    one. *)
Theorem match_user_profile_no_rating_empty_bucket :
  snd (JobMatcher.filter_by_rating pool (peers []) esco2kldb esco
         (Some [7%nat]) [] None None)
    = Ok ({| labels := FSLabels; rows := [] |},
          {| labels := FSLabels; rows := [] |}) /\
  snd (RecommenderPipeline.match_user_profile pipeline (user None) pool
         (peers []) (Some [7%nat]) [] false)
    = Raise KeyError.
Proof. split; vm_compute; reflexivity. Qed.

(** ** The filter by job history *)

Lemma label_eqb_eq : forall a b, label_eqb a b = true -> a = b.
Proof.
  assert (Ht : forall s t, tuple_eqb s t = true -> s = t).
  { induction s as [|x s IH]; intros [|y t] H; simpl in H;
      try reflexivity; try discriminate.
    apply Bool.andb_true_iff in H. destruct H as [H1 H2].
    apply String.eqb_eq in H1. rewrite (IH t H2), H1. reflexivity. }
  intros [s|s] [t|t] H; simpl in H; try discriminate.
  - apply String.eqb_eq in H. rewrite H. reflexivity.
  - rewrite (Ht s t H). reflexivity.
Qed.

Lemma isin_union :
  forall x a b,
    Index.isin x (Index.union a b) = Index.isin x a || Index.isin x b.
Proof.
  intros x a b. unfold Index.union, Index.isin at 1.
  rewrite existsb_app. fold (Index.isin x a).
  destruct (Index.isin x a) eqn:Ea; [reflexivity|]. simpl.
  induction b as [|y b IH]; simpl.
  - reflexivity.
  - destruct (Index.isin y a) eqn:Ey; simpl.
    + destruct (label_eqb x y) eqn:Exy.
      * apply label_eqb_eq in Exy. subst. congruence.
      * exact IH.
    + rewrite IH. reflexivity.
Qed.

Lemma isin_of_strings :
  forall s l, Index.isin (LStr s) (Index.of_strings l) = Py.isin s l.
Proof.
  intros s l. unfold Index.isin, Index.of_strings, Py.isin.
  induction l as [|t l IH]; simpl; [reflexivity|].
  rewrite IH. reflexivity.
Qed.

Lemma Qltb_lt : forall x y, Vec.Qltb x y = true <-> (x < y)%Q.
Proof.
  intros x y. unfold Vec.Qltb. rewrite Bool.negb_true_iff. split.
  - intros H. apply Qnot_le_lt. intro Hle.
    apply Qle_bool_iff in Hle. congruence.
  - intros H. destruct (Qle_bool y x) eqn:E; [|reflexivity].
    apply Qle_bool_iff in E. exfalso.
    eapply Qlt_irrefl. eapply Qlt_le_trans; eassumption.
Qed.

(** What one turn of the loop of [filter_by_job_history] adds to the
    profiles to remove. *)
Lemma history_step_adds :
  forall h pool pr nr job pr' nr',
    JobMatcher.history_step h pool (pr, nr) job = Ok (pr', nr') ->
    (forall x, Index.isin x pr = true -> Index.isin x pr' = true) /\
    Index.isin (LStr job) pr' = true /\
    (forall p o,
        JobMatcher.loc pool job = Ok p -> In o (of_rows pool) ->
        Props.close (occ_values p) (occ_values o) ->
        Index.isin (LStr (occ_uri o)) pr' = true).
Proof.
  intros h pool0 pr nr job pr' nr'. unfold JobMatcher.history_step.
  destruct (JobMatcher.loc pool0 job) as [row|e]; [|discriminate].
  cbn [Py.bind].
  destruct (esco_helper.get_narrower_occupations h job) as [narrower|e];
    [|discriminate].
  cbn [Py.bind]. intros H. inversion H; subst. clear H.
  split; [|split].
  - intros x Hx. rewrite !isin_union, Hx. reflexivity.
  - rewrite !isin_union, isin_of_strings. simpl.
    rewrite String.eqb_refl, Bool.orb_true_r. reflexivity.
  - intros p o Hp Ho Hclose. inversion Hp; subst.
    rewrite isin_union, isin_of_strings.
    apply Bool.orb_true_iff. right. apply isin_In.
    apply in_map. apply filter_In. split; [exact Ho|].
    apply Qltb_lt. exact Hclose.
Qed.

Lemma history_loop_adds :
  forall h pool jobs pr nr pr' nr',
    JobMatcher.history_loop h pool (pr, nr) jobs = Ok (pr', nr') ->
    (forall x, Index.isin x pr = true -> Index.isin x pr' = true) /\
    (forall job, In job jobs ->
       Index.isin (LStr job) pr' = true /\
       (forall p o,
           JobMatcher.loc pool job = Ok p -> In o (of_rows pool) ->
           Props.close (occ_values p) (occ_values o) ->
           Index.isin (LStr (occ_uri o)) pr' = true)).
Proof.
  intros h pool0 jobs. induction jobs as [|job jobs IH];
    intros pr nr pr' nr' H; cbn [JobMatcher.history_loop] in H.
  - inversion H; subst. split; [auto|]. intros job [].
  - destruct (JobMatcher.history_step h pool0 (pr, nr) job)
      as [[pr1 nr1]|e] eqn:E; [|discriminate].
    cbn [Py.bind] in H.
    destruct (history_step_adds _ _ _ _ _ _ _ E) as [Hm [Hj Hn]].
    destruct (IH _ _ _ _ H) as [Hm' Hall].
    split; [intros x Hx; apply Hm', Hm, Hx|].
    intros job' [<-|Hin].
    + split; [apply Hm', Hj|].
      intros p o Hp Ho Hc. apply Hm'. eapply Hn; eassumption.
    + apply Hall. exact Hin.
Qed.

(** The part of C5 that the filter keeps: what it returns is a part of
    the pool without the disliked jobs and without the occupations at a
    distance below 30 of a disliked job; a history without disliked job
    leaves the pool as it is. *)
Lemma filter_by_job_history_removes_disliked_and_close :
  forall h pool job_history out,
    JobMatcher.filter_by_job_history h pool job_history = Ok out ->
    (forall o, In o (of_rows out) -> In o (of_rows pool)) /\
    (Props.disliked job_history = [] -> out = pool) /\
    (forall d o,
        In d (Props.disliked job_history) -> In o (of_rows out) ->
        occ_uri o <> d /\
        (forall p, JobMatcher.loc pool d = Ok p ->
                   ~ Props.close (occ_values p) (occ_values o))).
Proof.
  intros h pool0 job_history out.
  unfold JobMatcher.filter_by_job_history. fold (Props.disliked job_history).
  destruct (Props.disliked job_history) as [|d0 ds] eqn:Ed.
  - simpl. intros H; inversion H; subst.
    split; [auto|]. split; [reflexivity|]. intros d o [].
  - cbn [List.length Nat.ltb Nat.leb].
    destruct (JobMatcher.history_loop h pool0 ([], []) (d0 :: ds))
      as [[pr nr]|e] eqn:E; [|discriminate].
    cbn [Py.bind]. intros H; inversion H; subst. clear H. cbn [of_rows].
    destruct (history_loop_adds _ _ _ _ _ _ _ E) as [_ Hall].
    split; [|split].
    + intros o Ho. apply filter_In in Ho. tauto.
    + discriminate.
    + intros d o Hd Ho. apply filter_In in Ho. destruct Ho as [Ho Hkeep].
      apply Bool.negb_true_iff in Hkeep. rewrite isin_union in Hkeep.
      apply Bool.orb_false_iff in Hkeep. destruct Hkeep as [Hpr _].
      destruct (Hall d Hd) as [Hd' Hnear]. split.
      * intros Heq. subst d. congruence.
      * intros p Hp Hc. rewrite (Hnear p o Hp Ho Hc) in Hpr. discriminate.
Qed.

(** C5, at the history [{A: disliked}]: the code of C is a proper
    extension of the code of A, and C is at distance 40 of A; the filter
    removes A and B and keeps C. *)
Theorem filter_by_job_history_keeps_narrower :
  esco_helper.get_narrower_occupations esco "A" = Ok [["B"]; ["C"]] /\
  JobMatcher.filter_by_job_history esco pool [[("A", false)]]
    = Ok {| of_labels := FSLabels; of_rows := [occ "C" (v 10 50)] |}.
Proof. split; vm_compute; reflexivity. Qed.

(** ** The failure boundary of the pipeline *)

(** C7 (amended).  Whatever a stage raises, [run] leaves with
    [SystemExit] and returns no recommendation; it returns recommendations
    only when both stages returned. *)
Theorem run_exits_on_stage_error :
  forall self target prefs hist pool ups,
    let matched :=
      snd (RecommenderPipeline.match_user_profile self target pool ups
                                                  prefs hist false) in
    let out := snd (RecommenderPipeline.run self target prefs hist pool ups) in
    (forall e, matched = Raise e -> out = Raise SystemExit) /\
    (forall matches preferred e,
        matched = Ok (matches, preferred) ->
        RecommenderPipeline.recommend_occupation self matches
          (IndexedByUri preferred) pool true = Raise e ->
        out = Raise SystemExit) /\
    (forall recommendations,
        out = Ok recommendations ->
        exists matches preferred,
          matched = Ok (matches, preferred) /\
          RecommenderPipeline.recommend_occupation self matches
            (IndexedByUri preferred) pool true = Ok recommendations) /\
    (forall e, out = Raise e -> e = SystemExit).
Proof.
  intros self target prefs hist pool0 ups matched out.
  subst matched out. unfold RecommenderPipeline.run.
  destruct (RecommenderPipeline.match_user_profile self target pool0 ups
              prefs hist false) as [ups' m] eqn:Hm.
  cbn [snd].
  destruct m as [[matches preferred]|e0]; cbn [Py.bind].
  - destruct (RecommenderPipeline.recommend_occupation self matches
                (IndexedByUri preferred) pool0 true) as [recs|e1] eqn:Hr.
    + repeat split.
      * intros e H; discriminate.
      * intros m' p' e H H0; inversion H; subst; congruence.
      * intros recs' H; inversion H; subst.
        exists matches, preferred. split; [reflexivity|assumption].
      * intros e H; discriminate.
    + repeat split; try reflexivity.
      * intros recs' H; discriminate.
      * intros e H; inversion H; reflexivity.
  - repeat split; try reflexivity.
    + intros recs' H; discriminate.
    + intros e H; inversion H; reflexivity.
Qed.

(** The witness of C7: the user disliked a job Z that is not in the pool;
    the history filter raises [KeyError] and [run] leaves with
    [SystemExit]. *)
Lemma run_exits_on_unknown_disliked_job :
  snd (RecommenderPipeline.run pipeline (user None) None [[("Z", false)]]
         pool (peers []))
    = Raise SystemExit.
Proof.
  apply (proj1 (run_exits_on_stage_error
                  pipeline (user None) None [[("Z", false)]] pool (peers []))
               KeyError).
  vm_compute. reflexivity.
Defined.

(** C7, at a user whose columns are not the ten skill columns:
    [calculate_distances] raises [KeyError], and [run] does not hand it to
    its caller: it leaves with [SystemExit]. *)
Lemma run_schema_mismatch_exits :
  snd (RecommenderPipeline.match_user_profile pipeline
         user_without_skill_columns pool (peers []) None [] false)
    = Raise KeyError /\
  snd (RecommenderPipeline.run pipeline user_without_skill_columns None []
         pool (peers []))
    = Raise SystemExit.
Proof. split; vm_compute; reflexivity. Qed.

(** ** The filter by preferences *)

Lemma prefix_empty : forall s, String.prefix "" s = true.
Proof. destruct s; reflexivity. Qed.

Lemma prefix_single :
  forall c a s, String.prefix (String c "") (String a s) = Ascii.eqb c a.
Proof.
  intros c a s. simpl.
  destruct (ascii_dec c a) as [->|Hne].
  - rewrite prefix_empty, Ascii.eqb_refl. reflexivity.
  - symmetry. apply Ascii.eqb_neq. assumption.
Qed.

Lemma contains_empty : forall s, Py.contains "" s = true.
Proof. destruct s; reflexivity. Qed.

Lemma contains_single :
  forall c s,
    Py.contains (String c "") s
    = existsb (Ascii.eqb c) (list_ascii_of_string s).
Proof.
  intros c s. induction s as [|a s IH].
  - reflexivity.
  - change (Py.contains (String c "") (String a s))
      with (String.prefix (String c "") (String a s)
            || Py.contains (String c "") s).
    rewrite prefix_single, IH. reflexivity.
Qed.

Lemma sector_membership_cons :
  forall a s,
    Props.sector_membership (String a s)
    = if Props.is_digit a
      then (nat_of_ascii a - 48)%nat :: Props.sector_membership s
      else Props.sector_membership s.
Proof. reflexivity. Qed.

Lemma isin_sector_membership :
  forall p s,
    Py.isin_nat p (Props.sector_membership s)
    = existsb (fun a => Props.digit_of a p) (list_ascii_of_string s).
Proof.
  intros p s. induction s as [|a s IH].
  - reflexivity.
  - rewrite sector_membership_cons.
    change (list_ascii_of_string (String a s))
      with (a :: list_ascii_of_string s).
    cbn [existsb]. rewrite <- IH. unfold Props.digit_of.
    destruct (Props.is_digit a); reflexivity.
Qed.

Lemma digit_eqb :
  forall p a, (p < 10)%nat ->
    Ascii.eqb (ascii_of_nat (48 + p)) a = Props.digit_of a p.
Proof.
  intros p a Hp. unfold Props.digit_of, Props.is_digit.
  destruct (Ascii.eqb (ascii_of_nat (48 + p)) a) eqn:E.
  - apply Ascii.eqb_eq in E. subst a.
    rewrite nat_ascii_embedding by lia.
    symmetry. apply andb_true_intro. split.
    + apply andb_true_intro. split; apply Nat.leb_le; lia.
    + apply Nat.eqb_eq. lia.
  - symmetry. apply not_true_is_false. intro H.
    apply andb_prop in H. destruct H as [H H3].
    apply andb_prop in H. destruct H as [H1 H2].
    apply Nat.leb_le in H1, H2. apply Nat.eqb_eq in H3.
    apply Ascii.eqb_neq in E. apply E.
    replace (48 + p)%nat with (nat_of_ascii a) by lia.
    apply ascii_nat_embedding.
Qed.

Lemma str_digit :
  forall p, (p < 10)%nat -> Py.str p = String (ascii_of_nat (48 + p)) "".
Proof.
  intros p Hp.
  do 10 (destruct p as [|p]; [reflexivity|]). lia.
Qed.

(** For a sector code, the numeral occurs in the keys exactly when the code
    is one of the digits of the keys. *)
Lemma contains_str_digit :
  forall p s, (p < 10)%nat ->
    Py.contains (Py.str p) s = Py.isin_nat p (Props.sector_membership s).
Proof.
  intros p s Hp.
  rewrite (str_digit p Hp), contains_single, isin_sector_membership.
  induction (list_ascii_of_string s) as [|a l IH]; cbn [existsb].
  - reflexivity.
  - rewrite IH, (digit_eqb p a Hp). reflexivity.
Qed.

Lemma split_no_bar :
  forall x, ~ In "|"%char (list_ascii_of_string x) ->
    Py.split "|"%char x = [x].
Proof.
  induction x as [|a x IH]; intros H.
  - reflexivity.
  - simpl in *. destruct (Ascii.eqb a "|") eqn:E.
    + apply Ascii.eqb_eq in E. exfalso. apply H. left. assumption.
    + rewrite IH; [reflexivity|]. intro Hin. apply H. right. assumption.
Qed.

Lemma split_append_bar :
  forall x rest, ~ In "|"%char (list_ascii_of_string x) ->
    Py.split "|"%char (x ++ String "|" rest) = x :: Py.split "|"%char rest.
Proof.
  induction x as [|a x IH]; intros rest H.
  - reflexivity.
  - simpl in *. destruct (Ascii.eqb a "|") eqn:E.
    + apply Ascii.eqb_eq in E. exfalso. apply H. left. assumption.
    + rewrite IH; [reflexivity|]. intro Hin. apply H. right. assumption.
Qed.

Lemma split_concat_bar :
  forall x l,
    Forall (fun y => ~ In "|"%char (list_ascii_of_string y)) (x :: l) ->
    Py.split "|"%char (String.concat "|" (x :: l)) = x :: l.
Proof.
  intros x l. revert x. induction l as [|y l IH]; intros x H.
  - simpl. apply split_no_bar. inversion H; assumption.
  - inversion H as [|? ? Hx Hl]; subst.
    change (String.concat "|" (x :: y :: l))
      with (x ++ String "|" (String.concat "|" (y :: l))).
    rewrite split_append_bar by assumption.
    rewrite IH by assumption. reflexivity.
Qed.

Lemma str_digit_no_bar :
  forall p, (p < 10)%nat -> ~ In "|"%char (list_ascii_of_string (Py.str p)).
Proof.
  intros p Hp.
  do 10 (destruct p as [|p];
         [simpl; intros [H|[]]; discriminate|]). lia.
Qed.

(** The search of the pattern built from the preferences. *)
Lemma re_search_preferences :
  forall p preferences s,
    Forall (fun q => q < 10)%nat (p :: preferences) ->
    Py.re_search (String.concat "|" (map Py.str (p :: preferences))) s
    = existsb (fun q => Py.isin_nat q (Props.sector_membership s))
              (p :: preferences).
Proof.
  intros p preferences s H. unfold Py.re_search.
  change (map Py.str (p :: preferences))
    with (Py.str p :: map Py.str preferences).
  rewrite split_concat_bar.
  - change (Py.str p :: map Py.str preferences)
      with (map Py.str (p :: preferences)).
    induction H as [|q l Hq Hl IH]; [reflexivity|].
    simpl. rewrite (contains_str_digit q s Hq). f_equal. exact IH.
  - change (Py.str p :: map Py.str preferences)
      with (map Py.str (p :: preferences)).
    apply Forall_map.
    eapply Forall_impl; [|exact H].
    intros q Hq. apply str_digit_no_bar. exact Hq.
Qed.

Lemma mask_rows_total :
  forall (g : string -> bool) (l : list Row),
    (forall r, In r l -> JobMatcher.kldb_keys_of r <> None) ->
    JobMatcher.mask_rows l
      (map (fun r => option_map g (JobMatcher.kldb_keys_of r)) l)
    = Ok (List.filter
            (fun r => match JobMatcher.kldb_keys_of r with
                      | Some keys => g keys
                      | None => false
                      end) l).
Proof.
  intros g l. induction l as [|r l IH]; intros H.
  - reflexivity.
  - simpl.
    destruct (JobMatcher.kldb_keys_of r) as [keys|] eqn:E.
    + simpl. rewrite IH.
      * simpl. reflexivity.
      * intros r' Hr'. apply H. right. assumption.
    + exfalso. apply (H r); [left; reflexivity|assumption].
Qed.

Lemma filter_all :
  forall (A : Type) (f : A -> bool) (l : list A),
    (forall x, In x l -> f x = true) -> List.filter f l = l.
Proof.
  intros A f l. induction l as [|x l IH]; intros H.
  - reflexivity.
  - simpl. rewrite (H x) by (left; reflexivity).
    f_equal. apply IH. intros y Hy. apply H. right. assumption.
Qed.

(** C8 (amended).  [filter_by_preferences] first joins the pool with the
    table of sector keys, on the uri.  Without preferences, and with the
    empty list of preferences, it returns the joined pool; with preferences
    (sector codes 0 to 9) it keeps, in order, the rows of the joined pool
    whose sector keys hold one of the preferred codes.  Both frames of the
    pair are this one frame. *)
Theorem filter_by_preferences_keeps_matching_sectors :
  forall (pool : OccFrame) (kldb : list KldbRow),
    let joined := JobMatcher.merge pool kldb in
    (forall r, In r (rows joined) <->
               exists o k, In o (of_rows pool) /\ In k kldb /\
                           kl_uri k = occ_uri o /\
                           r = Props.joined_row o k) /\
    JobMatcher.filter_by_preferences pool kldb None = Ok (joined, joined) /\
    (forall preferences,
        (forall r, In r (rows joined) ->
                   JobMatcher.kldb_keys_of r <> None) ->
        Forall (fun p => p < 10)%nat preferences ->
        let kept :=
          {| labels := labels joined;
             rows := match preferences with
                     | [] => rows joined
                     | _ :: _ =>
                         List.filter (Props.intersects preferences)
                                     (rows joined)
                     end |} in
        JobMatcher.filter_by_preferences pool kldb (Some preferences)
        = Ok (kept, kept)).
Proof.
  intros pool0 kldb joined. split; [|split].
  - intros r. unfold joined, JobMatcher.merge. simpl.
    rewrite in_flat_map. split.
    + intros [o [Ho Hr]]. apply in_map_iff in Hr.
      destruct Hr as [k [Hk Hin]]. apply filter_In in Hin.
      destruct Hin as [Hin Heq]. apply String.eqb_eq in Heq.
      exists o, k. repeat split; auto.
    + intros [o [k [Ho [Hk [Heq Hr]]]]]. exists o. split; [assumption|].
      apply in_map_iff. exists k. split; [symmetry; exact Hr|].
      apply filter_In. split; [assumption|].
      apply String.eqb_eq. assumption.
  - reflexivity.
  - intros preferences Hkeys Hcodes kept.
    unfold JobMatcher.filter_by_preferences. fold joined.
    rewrite mask_rows_total by assumption.
    cbn [Py.bind]. unfold kept.
    destruct preferences as [|p preferences].
    + rewrite filter_all; [destruct joined; reflexivity|].
      intros r Hr. destruct (JobMatcher.kldb_keys_of r) as [keys|] eqn:E.
      * unfold Py.re_search. cbn [String.concat map Py.split existsb].
        rewrite contains_empty. reflexivity.
      * exfalso. apply (Hkeys r Hr E).
    + erewrite filter_ext; [reflexivity|].
      intros r. unfold Props.intersects.
      destruct (JobMatcher.kldb_keys_of r) as [keys|]; [|reflexivity].
      apply re_search_preferences. assumption.
Qed.

(** C8, at a table of sector keys that has no row for C: without
    preferences the filter returns A and B, not the pool. *)
Lemma filter_by_preferences_drops_unmapped :
  map occ_uri (of_rows pool) = ["A"; "B"; "C"] /\
  Props.uris_of
    (JobMatcher.filter_by_preferences pool (firstn 2 esco2kldb) None)
    = Some (["A"; "B"], ["A"; "B"]).
Proof. split; vm_compute; reflexivity. Qed.

(** The witness of C8: the occupations of sector 5 of the example. *)
Lemma filter_by_preferences_sector_5 :
  Props.uris_of
    (JobMatcher.filter_by_preferences pool esco2kldb (Some [5%nat]))
    = Some (["A"; "C"], ["A"; "C"]).
Proof.
  destruct (filter_by_preferences_keeps_matching_sectors pool esco2kldb)
    as [_ [_ H]].
  rewrite (H [5%nat]).
  - vm_compute. reflexivity.
  - intros r Hr. vm_compute in Hr.
    repeat (destruct Hr as [<-|Hr]; [discriminate|]). destruct Hr.
  - repeat constructor.
Defined.

(** ** The filter by rating *)

(** The candidates that come from the peers are the rows that qualify. *)
Lemma peer_candidates_qualify :
  forall expanded uri rating shown e,
    In e (JobMatcher.peer_candidates expanded uri rating shown)
    <-> Props.qualifies expanded uri rating shown e.
Proof.
  intros expanded uri rating shown e.
  unfold JobMatcher.peer_candidates, Props.qualifies.
  rewrite !filter_In, Bool.andb_true_iff, Bool.negb_true_iff.
  rewrite isin_false, isin_In, String.eqb_eq, in_map_iff.
  split.
  - intros [[He [[e' [Hid He']] Hone]] Hshown].
    apply filter_In in He'. destruct He' as [He' Hm].
    apply Bool.andb_true_iff in Hm. destruct Hm as [Hu Hr].
    apply String.eqb_eq in Hu, Hr.
    repeat split; auto. exists e'. repeat split; auto.
  - intros [He [Hone [Hshown [e' [He' [Hid [Hu Hr]]]]]]].
    repeat split; auto. exists e'. split; [assumption|].
    apply filter_In. split; [assumption|].
    apply Bool.andb_true_iff. split; apply String.eqb_eq; assumption.
Qed.

Lemma not_matched_negb :
  forall preferences num_prefs,
    JobMatcher.is_preference_not_matched preferences num_prefs
    = negb (JobMatcher.is_preference_matched preferences num_prefs).
Proof.
  intros preferences num_prefs.
  unfold JobMatcher.is_preference_not_matched,
         JobMatcher.is_preference_matched.
  induction preferences as [|p l IH]; simpl.
  - reflexivity.
  - rewrite IH, Bool.negb_orb. reflexivity.
Qed.

Lemma decisive_eqb :
  forall r, r = "1" \/ r = "-1" ->
    (String.eqb r "-1" || String.eqb r "1") = true.
Proof. intros r [->| ->]; reflexivity. Qed.

(** C2 (amended).  When the last rating [r] of the user is 1 or -1, on
    the uri [u], and the preferences are given, every row of the expanded
    user profiles that qualifies (a recommendation rated 1, at any position
    of the log, by a user who gave [r] to [u], and not yet shown) is in
    exactly one of the two frames: in the first when the sectors of its
    user's professional interests meet the preferences, in the second
    otherwise; and the frames hold nothing else. *)
Theorem filter_by_rating_keeps_peer_candidates :
  forall pool ups kldb h preferences hist rated ratings,
    JobMatcher.is_nan_or_empty rated = false ->
    JobMatcher.is_nan_or_empty ratings = false ->
    let shown := JobMatcher.list_of rated in
    let u := List.last shown "" in
    let r := List.last (JobMatcher.list_of ratings) "" in
    r = "1" \/ r = "-1" ->
    let expanded := snd (JobMatcher.expand_user_profiles ups) in
    let matched := fun e =>
      JobMatcher.is_preference_matched preferences
                                       (JobMatcher.num_preferences_of e) in
    forall e,
      Props.qualifies expanded u r shown e ->
      exists preferred alternate,
        snd (JobMatcher.filter_by_rating pool ups kldb h (Some preferences)
                                         hist rated ratings)
          = Ok (preferred, alternate) /\
        (forall row,
            In row (rows preferred) <->
            exists e', Props.qualifies expanded u r shown e' /\
                       matched e' = true /\ row = JobMatcher.peer_row e') /\
        (forall row,
            In row (rows alternate) <->
            exists e', Props.qualifies expanded u r shown e' /\
                       matched e' = false /\ row = JobMatcher.peer_row e') /\
        (In (JobMatcher.peer_row e) (rows preferred) \/
         In (JobMatcher.peer_row e) (rows alternate)).
Proof.
  intros pool0 ups kldb h preferences hist rated ratings Hrated Hratings
         shown u r Hr expanded matched e He.
  unfold JobMatcher.filter_by_rating.
  change (JobMatcher.expand_user_profiles ups)
    with (fst (JobMatcher.expand_user_profiles ups), expanded).
  cbn [snd]. rewrite Hrated, Hratings. cbn [orb].
  fold shown. fold u. fold r. rewrite (decisive_eqb r Hr).
  pose proof (proj2 (peer_candidates_qualify expanded u r shown e) He) as Hin.
  destruct expanded as [|e0 expanded'] eqn:Hexp.
  { destruct He as [[] _]. }
  rewrite <- Hexp in *.
  destruct (JobMatcher.peer_candidates expanded u r shown)
    as [|c cands] eqn:Hc.
  { destruct Hin. }
  rewrite <- Hc in *.
  eexists. eexists. split; [reflexivity|].
  cbn [rows].
  assert (Hchar : forall keep row,
             In row (map JobMatcher.peer_row
                         (List.filter
                            (fun e' => keep
                                         (JobMatcher.num_preferences_of e'))
                            (JobMatcher.peer_candidates expanded u r shown)))
             <-> exists e', Props.qualifies expanded u r shown e' /\
                            keep (JobMatcher.num_preferences_of e') = true /\
                            row = JobMatcher.peer_row e').
  { intros keep row. rewrite in_map_iff. split.
    - intros [e' [Hrow He']]. apply filter_In in He'.
      destruct He' as [He' Hk]. apply peer_candidates_qualify in He'.
      exists e'. split; [exact He'|split; [exact Hk|symmetry; exact Hrow]].
    - intros [e' [Hq [Hk Hrow]]]. exists e'. split; [auto|].
      apply filter_In. split; [|assumption].
      apply peer_candidates_qualify. assumption. }
  split; [|split].
  - intros row. apply (Hchar (JobMatcher.is_preference_matched preferences)).
  - intros row.
    rewrite (Hchar (JobMatcher.is_preference_not_matched preferences)).
    split; intros [e' [Hq [Hk Hrow]]]; exists e';
      (split; [exact Hq|split; [|exact Hrow]]).
    + rewrite not_matched_negb in Hk.
      apply Bool.negb_true_iff in Hk. exact Hk.
    + rewrite not_matched_negb. apply Bool.negb_true_iff. exact Hk.
  - destruct (matched e) eqn:Hm.
    + left.
      apply (Hchar (JobMatcher.is_preference_matched preferences)).
      exists e. split; [exact He|split; [exact Hm|reflexivity]].
    + right.
      apply (Hchar (JobMatcher.is_preference_not_matched preferences)).
      exists e. split; [exact He|split; [|reflexivity]].
      rewrite not_matched_negb. apply Bool.negb_true_iff. exact Hm.
Qed.

(** The witness of C2: a peer liked A and then C; the user liked A. *)
Lemma filter_by_rating_peer_liked_later :
  exists preferred alternate,
    snd (JobMatcher.filter_by_rating pool (peers [peer "p1" "A,C" "1,1"])
           esco2kldb esco (Some [0%nat]) [] (Some ["A"]) (Some ["1"]))
      = Ok (preferred, alternate) /\
    (In (JobMatcher.peer_row (expanded_row (peer "p1" "A,C" "1,1") "C" "1"))
        (rows preferred) \/
     In (JobMatcher.peer_row (expanded_row (peer "p1" "A,C" "1,1") "C" "1"))
        (rows alternate)).
Proof.
  destruct (filter_by_rating_keeps_peer_candidates
              pool (peers [peer "p1" "A,C" "1,1"]) esco2kldb esco [0%nat] []
              (Some ["A"]) (Some ["1"]) eq_refl eq_refl
              (or_introl eq_refl)
              (expanded_row (peer "p1" "A,C" "1,1") "C" "1"))
    as [preferred [alternate [H1 [_ [_ H4]]]]].
  - split; [right; left; reflexivity|].
    split; [reflexivity|].
    split; [intros [H|[]]; discriminate|].
    exists (expanded_row (peer "p1" "A,C" "1,1") "A" "1").
    split; [left; reflexivity|].
    split; [reflexivity|]. split; reflexivity.
  - exists preferred, alternate. split; assumption.
Defined.

(** C2, at a peer who liked W before A: the user liked A, and W is in
    the first frame although the peer did not rate it after A. *)
Lemma filter_by_rating_peer_liked_before :
  Props.uris_of
    (snd (JobMatcher.filter_by_rating pool (peers [peer "p1" "W,A" "1,1"])
            esco2kldb esco (Some [0%nat]) [] (Some ["A"]) (Some ["1"])))
    = Some (["W"], []) /\
  ~ Props.rated_after (JobMatcher.process_columns (peer "p1" "W,A" "1,1"))
                      "A" "1" "W".
Proof.
  split; [vm_compute; reflexivity|].
  intros [i [j [Hlt [Hi Hj]]]].
  destruct j as [|j]; [lia|].
  destruct j as [|j]; [discriminate Hj|].
  destruct j; discriminate Hj.
Qed.

Lemma by_history_and_preferences_one_frame :
  forall h kldb prefs hist profiles preferred alternate,
    JobMatcher.by_history_and_preferences h kldb prefs hist profiles
      = Ok (preferred, alternate) ->
    preferred = alternate.
Proof.
  intros h kldb prefs hist profiles preferred alternate.
  unfold JobMatcher.by_history_and_preferences.
  destruct (JobMatcher.filter_by_job_history h profiles hist) as [f|e];
    [|discriminate].
  cbn [Py.bind]. unfold JobMatcher.filter_by_preferences.
  destruct prefs as [preferences|].
  - match goal with
    | |- context [JobMatcher.mask_rows ?l ?m] =>
        destruct (JobMatcher.mask_rows l m)
    end; [|discriminate].
    cbn [Py.bind]. intros H; inversion H; reflexivity.
  - intros H; inversion H; reflexivity.
Qed.

(** C6 (amended).  When the last rating is 1 or -1 and no row of the
    expanded user profiles qualifies, [filter_by_rating] returns what the
    history filter and then the preference filter make of the pool without
    the uris already shown to the user: the same frame twice. *)
Theorem filter_by_rating_fallback_without_shown :
  forall pool ups kldb h prefs hist rated ratings,
    JobMatcher.is_nan_or_empty rated = false ->
    JobMatcher.is_nan_or_empty ratings = false ->
    let shown := JobMatcher.list_of rated in
    let r := List.last (JobMatcher.list_of ratings) "" in
    r = "1" \/ r = "-1" ->
    let expanded := snd (JobMatcher.expand_user_profiles ups) in
    expanded <> [] ->
    JobMatcher.peer_candidates expanded (List.last shown "") r shown = [] ->
    let out := snd (JobMatcher.filter_by_rating pool ups kldb h prefs hist
                                                rated ratings) in
    out = (by_history <-
             JobMatcher.filter_by_job_history
               h (JobMatcher.drop_uris pool shown) hist ;;
           JobMatcher.filter_by_preferences by_history kldb prefs) /\
    (forall preferred alternate,
        out = Ok (preferred, alternate) -> preferred = alternate).
Proof.
  intros pool0 ups kldb h prefs hist rated ratings Hrated Hratings shown r
         Hr expanded Hexp Hnone out.
  assert (Hout : out = JobMatcher.by_history_and_preferences
                         h kldb prefs hist
                         (JobMatcher.drop_uris pool0 shown)).
  { unfold out, JobMatcher.filter_by_rating.
    change (JobMatcher.expand_user_profiles ups)
      with (fst (JobMatcher.expand_user_profiles ups), expanded).
    cbn [snd]. rewrite Hrated, Hratings. cbn [orb].
    fold shown. fold r. rewrite (decisive_eqb r Hr).
    destruct expanded as [|e0 expanded'] eqn:E; [contradiction|].
    rewrite <- E in *. rewrite Hnone. reflexivity. }
  split.
  - exact Hout.
  - intros preferred alternate H. rewrite Hout in H.
    eapply by_history_and_preferences_one_frame. exact H.
Qed.

(** The witness of C6: the user liked A, and the one peer rated only X. *)
Lemma filter_by_rating_fallback_example :
  Props.uris_of
    (snd (JobMatcher.filter_by_rating pool (peers [peer "p1" "X" "1"])
            esco2kldb esco None [] (Some ["A"]) (Some ["1"])))
    = Some (["B"; "C"], ["B"; "C"]).
Proof.
  rewrite (proj1 (filter_by_rating_fallback_without_shown
                    pool (peers [peer "p1" "X" "1"]) esco2kldb esco None []
                    (Some ["A"]) (Some ["1"]) eq_refl eq_refl
                    (or_introl eq_refl)
                    ltac:(vm_compute; discriminate) eq_refl)).
  vm_compute. reflexivity.
Defined.

(** C6, at the same input: the fallback returns B and C; the filters on
    the entire pool, as for a user without rating, return A, B and C. *)
Lemma filter_by_rating_fallback_is_not_no_signal :
  JobMatcher.peer_candidates
    (snd (JobMatcher.expand_user_profiles (peers [peer "p1" "X" "1"])))
    "A" "1" ["A"] = [] /\
  Props.uris_of
    (snd (JobMatcher.filter_by_rating pool (peers [peer "p1" "X" "1"])
            esco2kldb esco None [] (Some ["A"]) (Some ["1"])))
    = Some (["B"; "C"], ["B"; "C"]) /\
  Props.uris_of
    (snd (JobMatcher.filter_by_rating pool (peers [peer "p1" "X" "1"])
            esco2kldb esco None [] None None))
    = Some (["A"; "B"; "C"], ["A"; "B"; "C"]).
Proof. repeat split; vm_compute; reflexivity. Qed.

(** ** What the matcher writes to *)

Lemma process_column_data_idempotent :
  forall c, JobMatcher.process_column_data (JobMatcher.process_column_data c)
            = JobMatcher.process_column_data c.
Proof. destruct c; reflexivity. Qed.

Lemma process_columns_idempotent :
  forall u, JobMatcher.process_columns (JobMatcher.process_columns u)
            = JobMatcher.process_columns u.
Proof.
  intros u. unfold JobMatcher.process_columns. cbn.
  rewrite !process_column_data_idempotent. reflexivity.
Qed.

Lemma processed_idempotent :
  forall ups, Props.processed (Props.processed ups) = Props.processed ups.
Proof.
  intros ups. unfold Props.processed. cbn. f_equal.
  rewrite map_map. apply map_ext. apply process_columns_idempotent.
Qed.

(** C9 (amended).  [filter_by_rating] writes to the frame of user
    profiles it is given: it leaves it with the columns
    [job_recommendations] and [job_ratings] turned into lists, whatever it
    returns, and a second call changes nothing more; so does [run], which
    calls it.  [calculate_distances] writes to the frame of candidates it
    is given: it renames the skill columns to [FS1 .. FS10] and leaves the
    rows as they are. *)
Theorem matcher_in_place_effects :
  (forall pool ups kldb h prefs hist rated ratings,
      fst (JobMatcher.filter_by_rating pool ups kldb h prefs hist rated
                                       ratings)
      = Props.processed ups) /\
  (forall pool ups kldb h prefs hist rated ratings
          pool' kldb' h' prefs' hist' rated' ratings',
      let ups' := fst (JobMatcher.filter_by_rating pool ups kldb h prefs
                                                   hist rated ratings) in
      fst (JobMatcher.filter_by_rating pool' ups' kldb' h' prefs' hist'
                                       rated' ratings')
      = ups') /\
  (forall m recommender kldb h target prefs hist pool ups,
      fst (RecommenderPipeline.run
             {| RecommenderPipeline.matcher :=
                  RecommenderPipeline.job_matcher m;
                RecommenderPipeline.recommender := recommender;
                RecommenderPipeline.ESCO2kldb := kldb;
                RecommenderPipeline.ESCO := h |}
             target prefs hist pool ups)
      = Props.processed ups) /\
  (forall m query df,
      fst (JobMatcher.calculate_distances m query df)
      = {| labels := match labels df with
                     | SkillLabels => FSLabels
                     | l => l
                     end;
           rows := rows df |}).
Proof.
  assert (H1 : forall pool ups kldb h prefs hist rated ratings,
             fst (JobMatcher.filter_by_rating pool ups kldb h prefs hist
                                              rated ratings)
             = Props.processed ups) by reflexivity.
  split; [exact H1|]. split; [|split].
  - intros. unfold ups'. rewrite !H1. apply processed_idempotent.
  - intros. unfold RecommenderPipeline.run,
      RecommenderPipeline.match_user_profile.
    cbn [RecommenderPipeline.matcher RecommenderPipeline.job_matcher
         RecommenderPipeline.extract_user_rating
         RecommenderPipeline.filter_by_rating
         RecommenderPipeline.ESCO2kldb RecommenderPipeline.ESCO].
    destruct (JobMatcher.extract_user_rating target) as [ratings rated].
    destruct (JobMatcher.filter_by_rating pool0 ups kldb h prefs hist rated
                                          ratings) as [ups' out] eqn:E.
    rewrite <- (H1 pool0 ups kldb h prefs hist rated ratings).
    rewrite E. reflexivity.
  - intros m query df. unfold JobMatcher.calculate_distances. cbn [fst].
    destruct df as [l rs]. destruct l; reflexivity.
Qed.

(** C9, at a frame of user profiles read from a file: after
    [filter_by_rating] the logs of the user are lists, no longer the
    strings they were. *)
Lemma filter_by_rating_rewrites_user_profiles :
  fst (JobMatcher.filter_by_rating pool (peers [peer "p1" "A,C" "1,1"])
         esco2kldb esco None [] None None)
    = peers [ {| up_index := 0;
                 user_id := "p1";
                 up_values := v 20 80;
                 professional_interests := Some "Militär";
                 job_recommendations := Lst ["A"; "C"];
                 job_ratings := Lst ["1"; "1"] |} ] /\
  fst (JobMatcher.filter_by_rating pool (peers [peer "p1" "A,C" "1,1"])
         esco2kldb esco None [] None None)
    <> peers [peer "p1" "A,C" "1,1"].
Proof. split; [reflexivity|discriminate]. Qed.

(** ** The ranking *)

Lemma insert_perm :
  forall x l, Permutation (JobMatcher.insert x l) (x :: l).
Proof.
  intros x l. induction l as [|y l IH]; simpl.
  - apply Permutation_refl.
  - destruct (Qle_bool (snd x) (snd y)).
    + apply Permutation_refl.
    + eapply Permutation_trans; [|apply perm_swap].
      apply perm_skip. exact IH.
Qed.

Lemma sort_perm : forall l, Permutation (JobMatcher.sort l) l.
Proof.
  induction l as [|x l IH]; simpl.
  - apply Permutation_refl.
  - eapply Permutation_trans; [apply insert_perm|].
    apply perm_skip. exact IH.
Qed.

Lemma insert_sorted :
  forall x l,
    StronglySorted Props.le_key l -> StronglySorted Props.le_key (JobMatcher.insert x l).
Proof.
  intros x l H. induction H as [|y l Hs IH Hy]; simpl.
  - constructor; constructor.
  - destruct (Qle_bool (snd x) (snd y)) eqn:E.
    + apply Qle_bool_iff in E.
      constructor; [constructor; assumption|].
      constructor; [exact E|].
      eapply Forall_impl; [|exact Hy].
      intros z Hz. unfold Props.le_key in *. eapply Qle_trans; eassumption.
    + constructor; [exact IH|].
      eapply Permutation_Forall;
        [apply Permutation_sym; apply insert_perm|].
      constructor; [|exact Hy].
      unfold Props.le_key. apply Qlt_le_weak. apply Qnot_le_lt.
      intro Hle. apply Qle_bool_iff in Hle. congruence.
Qed.

Lemma sort_sorted : forall l, StronglySorted Props.le_key (JobMatcher.sort l).
Proof.
  induction l as [|x l IH]; simpl.
  - constructor.
  - apply insert_sorted. exact IH.
Qed.

Lemma sort_keys_sorted :
  forall l, StronglySorted Qle (map snd (JobMatcher.sort l)).
Proof.
  intros l. pose proof (sort_sorted l) as H.
  induction H as [|y l' Hs IH Hy]; simpl; constructor.
  - exact IH.
  - apply Forall_map. exact Hy.
Qed.

Lemma StronglySorted_rev :
  forall (A : Type) (R : A -> A -> Prop) (l : list A),
    StronglySorted R l -> StronglySorted (fun a b => R b a) (rev l).
Proof.
  intros A R l H. induction H as [|x l Hs IH Hx]; simpl.
  - constructor.
  - assert (Happ : forall l1 l2,
               StronglySorted (fun a b => R b a) l1 ->
               StronglySorted (fun a b => R b a) l2 ->
               (forall a b, In a l1 -> In b l2 -> R b a) ->
               StronglySorted (fun a b => R b a) (l1 ++ l2)).
    { induction l1 as [|a l1 IH1]; intros l2 H1 H2 H12; simpl.
      - exact H2.
      - inversion H1 as [|? ? Hs1 Ha]; subst. constructor.
        + apply IH1; auto. intros a' b Ha' Hb. apply H12; [right|]; auto.
        + apply Forall_app. split; [exact Ha|].
          apply Forall_forall. intros b Hb. apply H12; [left|]; auto. }
    apply Happ.
    + exact IH.
    + constructor; constructor.
    + intros a b Ha [<-|[]]. apply in_rev in Ha.
      rewrite Forall_forall in Hx. apply Hx. exact Ha.
Qed.

Lemma StronglySorted_impl_key :
  forall (A : Type) (R R' : A -> A -> Prop) (l : list A),
    (forall x y, R x y -> R' x y) ->
    StronglySorted R l -> StronglySorted R' l.
Proof.
  intros A R R' l HR H. induction H as [|x l Hs IH Hx]; constructor.
  - exact IH.
  - eapply Forall_impl; [|exact Hx]. intros y. apply HR.
Qed.

Lemma StronglySorted_map_inv :
  forall (A B : Type) (f : A -> B) (R : B -> B -> Prop) (l : list A),
    StronglySorted R (map f l) ->
    StronglySorted (fun a b => R (f a) (f b)) l.
Proof.
  intros A B f R l. induction l as [|x l IH]; simpl; intros H.
  - constructor.
  - inversion H as [|? ? Hs Hx]; subst. constructor.
    + apply IH. exact Hs.
    + rewrite Forall_map in Hx. exact Hx.
Qed.

(** In a sorted list, an entry that is strictly before another one in the
    order is before it in the list. *)
Lemma StronglySorted_ranks :
  forall (A : Type) (key : A -> Q) (l : list A),
    StronglySorted (fun a b => key a <= key b)%Q l ->
    forall i j a b,
      nth_error l i = Some a -> nth_error l j = Some b ->
      (key a < key b)%Q -> (i < j)%nat.
Proof.
  intros A key l H. induction H as [|x l Hs IH Hx]; intros i j a b Hi Hj Hlt.
  - destruct i; discriminate.
  - destruct i as [|i], j as [|j]; simpl in *.
    + inversion Hi; inversion Hj; subst.
      exfalso. eapply Qlt_irrefl. exact Hlt.
    + lia.
    + inversion Hj; subst. apply nth_error_In in Hi.
      rewrite Forall_forall in Hx. specialize (Hx a Hi).
      exfalso. eapply Qlt_irrefl. eapply Qlt_le_trans; eassumption.
    + apply -> Nat.succ_lt_mono. eapply IH; eassumption.
Qed.

Lemma take_seq :
  forall (A : Type) (pre a : list A),
    JobMatcher.take (pre ++ a) (seq (List.length pre) (List.length a))
    = Ok a.
Proof.
  intros A pre a. revert pre. induction a as [|x a IH]; intros pre; simpl.
  - reflexivity.
  - rewrite nth_error_app2 by lia. rewrite Nat.sub_diag. simpl.
    replace (pre ++ x :: a)%list with ((pre ++ [x]) ++ a)%list
      by (rewrite <- app_assoc; reflexivity).
    replace (S (List.length pre)) with (List.length (pre ++ [x])%list)
      by (rewrite length_app; simpl; lia).
    rewrite IH. reflexivity.
Qed.

Lemma take_perm :
  forall (A : Type) (a : list A) (idx idx' : list nat),
    Permutation idx idx' ->
    forall xs, JobMatcher.take a idx = Ok xs ->
               exists xs', JobMatcher.take a idx' = Ok xs' /\
                           Permutation xs xs'.
Proof.
  intros A a idx idx' H.
  induction H as [|i l l' Hp IH|i j l|l l' l'' H1 IH1 H2 IH2]; intros xs Hxs.
  - exists xs. split; [exact Hxs|apply Permutation_refl].
  - simpl in *. destruct (nth_error a i) as [x|]; [|discriminate].
    destruct (JobMatcher.take a l) as [ys|] eqn:E; [|discriminate].
    inversion Hxs; subst. destruct (IH ys eq_refl) as [ys' [E' Hys]].
    rewrite E'. exists (x :: ys'). split; [reflexivity|].
    apply perm_skip. exact Hys.
  - simpl in *.
    destruct (nth_error a j) as [y|]; [|discriminate].
    destruct (nth_error a i) as [x|]; [|discriminate].
    destruct (JobMatcher.take a l) as [ys|]; [|discriminate].
    inversion Hxs; subst. exists (x :: y :: ys).
    split; [reflexivity|apply perm_swap].
  - destruct (IH1 xs Hxs) as [xs' [E' Hp']].
    destruct (IH2 xs' E') as [xs'' [E'' Hp'']].
    exists xs''. split; [exact E''|].
    eapply Permutation_trans; eassumption.
Qed.

Lemma take_map :
  forall (A B : Type) (f : A -> B) (a : list A) (idx : list nat) (xs : list A),
    JobMatcher.take a idx = Ok xs ->
    JobMatcher.take (map f a) idx = Ok (map f xs).
Proof.
  intros A B f a idx. induction idx as [|i idx IH]; intros xs H; simpl in *.
  - inversion H; reflexivity.
  - rewrite nth_error_map.
    destruct (nth_error a i) as [x|]; [|discriminate]. simpl.
    destruct (JobMatcher.take a idx) as [ys|]; [|discriminate].
    inversion H; subst. rewrite (IH ys eq_refl). reflexivity.
Qed.

Lemma take_pairs :
  forall (keys : list Q) (sp : list (nat * Q)),
    Forall (fun p => nth_error keys (fst p) = Some (snd p)) sp ->
    JobMatcher.take keys (map fst sp) = Ok (map snd sp).
Proof.
  intros keys sp H. induction H as [|p sp Hp Hs IH]; simpl.
  - reflexivity.
  - rewrite Hp, IH. reflexivity.
Qed.

Lemma combine_seq_nth :
  forall (keys pre : list Q),
    Forall (fun p => nth_error (pre ++ keys) (fst p) = Some (snd p))
           (combine (seq (List.length pre) (List.length keys)) keys).
Proof.
  intros keys. induction keys as [|k keys IH]; intros pre; simpl.
  - constructor.
  - constructor.
    + simpl. rewrite nth_error_app2 by lia. rewrite Nat.sub_diag. reflexivity.
    + specialize (IH (pre ++ [k])%list).
      rewrite <- app_assoc in IH. simpl in IH.
      rewrite length_app in IH. simpl in IH.
      rewrite Nat.add_1_r in IH. exact IH.
Qed.

Lemma combine_with_map :
  forall (A B C : Type) (f : A -> B) (g : A -> B -> C) (l : list A),
    map (fun rd => g (fst rd) (snd rd)) (combine l (map f l))
    = map (fun r => g r (f r)) l.
Proof.
  intros A B C f g l. induction l as [|x l IH]; simpl.
  - reflexivity.
  - rewrite IH. reflexivity.
Qed.

Lemma map_fst_combine_same_length :
  forall (A B : Type) (l : list A) (l' : list B),
    List.length l = List.length l' -> map fst (combine l l') = l.
Proof.
  intros A B l. induction l as [|x l IH]; intros [|y l'] H; simpl in *;
    try reflexivity; try discriminate.
  rewrite IH by lia. reflexivity.
Qed.

(** The rows taken at a permutation [idx] of the positions of [rs], and
    the keys taken at the same positions. *)
Lemma take_ranked :
  forall (key : Row -> Q) (rs : list Row) (sp : list (nat * Q)),
    Permutation sp (combine (seq 0 (List.length rs)) (map key rs)) ->
    exists ranked,
      JobMatcher.take rs (map fst sp) = Ok ranked /\
      JobMatcher.take (map key rs) (map fst sp) = Ok (map key ranked) /\
      Permutation ranked rs /\
      map key ranked = map snd sp.
Proof.
  intros key rs sp Hp.
  assert (Hidx : Permutation (seq 0 (List.length rs)) (map fst sp)).
  { apply Permutation_sym.
    eapply Permutation_trans; [apply Permutation_map; exact Hp|].
    rewrite map_fst_combine_same_length; [apply Permutation_refl|].
    rewrite length_seq, length_map. reflexivity. }
  destruct (take_perm Row rs _ _ Hidx rs (take_seq Row [] rs))
    as [ranked [Ht Hr]].
  exists ranked. split; [exact Ht|].
  pose proof (take_map _ _ key rs _ _ Ht) as Hk.
  split; [exact Hk|]. split; [apply Permutation_sym; exact Hr|].
  assert (Hf : Forall (fun p => nth_error (map key rs) (fst p) = Some (snd p))
                      sp).
  { eapply Permutation_Forall; [apply Permutation_sym; exact Hp|].
    pose proof (combine_seq_nth (map key rs) []) as H.
    simpl in H. rewrite length_map in H. exact H. }
  rewrite (take_pairs _ _ Hf) in Hk. inversion Hk; reflexivity.
Qed.

Lemma rank_rows :
  forall (key : Row -> Q) (rs : list Row) (sp : list (nat * Q)),
    Permutation sp (combine (seq 0 (List.length rs)) (map key rs)) ->
    exists ranked,
      (sorted_df <- JobMatcher.take rs (map fst sp) ;;
       distances <- JobMatcher.take (map key rs) (map fst sp) ;;
       Ok {| labels := FSLabels;
             rows := map (fun rd => JobMatcher.set_Distance (fst rd) (snd rd))
                         (combine sorted_df distances) |})
      = Ok {| labels := FSLabels;
              rows := map (fun r => JobMatcher.set_Distance r (key r))
                          ranked |} /\
      Permutation ranked rs /\
      map key ranked = map snd sp.
Proof.
  intros key rs sp Hp.
  destruct (take_ranked key rs sp Hp) as [ranked [Ht [Hk [Hperm Hkeys]]]].
  exists ranked. rewrite Ht, Hk. cbn [Py.bind].
  rewrite (combine_with_map _ _ _ key JobMatcher.set_Distance).
  repeat split; assumption.
Qed.

(** With the scores without rounding, the ranking by computed scores is
    the ranking of [calculate_distances]. *)
Lemma calculate_distances_by_exact :
  forall self query df,
    JobMatcher.calculate_distances_by JobMatcher.exact self query df
    = JobMatcher.calculate_distances self query df.
Proof. reflexivity. Qed.

Lemma nth_error_combine :
  forall (A B : Type) (l : list A) (l' : list B) (i : nat) (a : A) (b : B),
    nth_error l i = Some a -> nth_error l' i = Some b ->
    nth_error (combine l l') i = Some (a, b).
Proof.
  intros A B l. induction l as [|x l IH]; intros l' i a b Ha Hb.
  - destruct i; discriminate.
  - destruct l' as [|y l']; [destruct i; discriminate|].
    destruct i as [|i]; cbn [nth_error combine] in *.
    + inversion Ha; inversion Hb; reflexivity.
    + apply IH; assumption.
Qed.

(** The rows and the scores taken at the same positions are the rows with
    their scores taken at these positions. *)
Lemma take_annotated :
  forall (rs : list Row) (scores : list Q) (idx : list nat),
    List.length scores = List.length rs ->
    Forall (fun i => (i < List.length rs)%nat) idx ->
    exists a b,
      JobMatcher.take rs idx = Ok a /\
      JobMatcher.take scores idx = Ok b /\
      JobMatcher.take (Props.annotated rs scores) idx
      = Ok (map (fun rd => JobMatcher.set_Distance (fst rd) (snd rd))
                (combine a b)).
Proof.
  intros rs scores idx Hlen H. induction H as [|i idx Hi H IH].
  - exists [], []. repeat split; reflexivity.
  - destruct IH as [a [b [Ha [Hb Hab]]]].
    destruct (nth_error rs i) as [r|] eqn:Er;
      [|apply nth_error_Some in Er; [destruct Er|exact Hi]].
    destruct (nth_error scores i) as [s|] eqn:Es;
      [|apply nth_error_Some in Es; [destruct Es|rewrite Hlen; exact Hi]].
    exists (r :: a), (s :: b). cbn [JobMatcher.take].
    rewrite Er, Es, Ha, Hb. cbn [Py.bind].
    split; [reflexivity|]. split; [reflexivity|].
    unfold Props.annotated in *. rewrite nth_error_map.
    rewrite (nth_error_combine _ _ rs scores i r s Er Es).
    cbn [option_map]. rewrite Hab. reflexivity.
Qed.

Lemma in_combine_seq :
  forall (keys : list Q) (start i : nat) (s : Q),
    nth_error keys i = Some s ->
    In ((start + i)%nat, s) (combine (seq start (List.length keys)) keys).
Proof.
  induction keys as [|k keys IH]; intros start i s H.
  - destruct i; discriminate.
  - cbn [List.length seq combine]. destruct i as [|i]; cbn [nth_error] in H.
    + inversion H; subst. left. rewrite Nat.add_0_r. reflexivity.
    + right. rewrite <- Nat.add_succ_comm. apply IH. exact H.
Qed.

Lemma combine_seq_above :
  forall (keys : list Q) (start n : nat),
    Forall (fun y => (start <= fst y)%nat) (combine (seq start n) keys).
Proof.
  intros keys start n. apply Forall_forall. intros [i s] Hin.
  apply in_combine_l in Hin. apply in_seq in Hin. cbn [fst]. lia.
Qed.

Lemma stable_lt_asym :
  forall a b, Props.stable_lt a b -> Props.stable_lt b a -> False.
Proof.
  intros a b [Hab|[Eab Iab]] [Hba|[Eba Iba]].
  - apply (Qlt_irrefl (snd a)). eapply Qlt_trans; eassumption.
  - apply (Qlt_not_eq _ _ Hab). symmetry. exact Eba.
  - apply (Qlt_not_eq _ _ Hba). symmetry. exact Eab.
  - lia.
Qed.

(** The sort keeps an entry of a smaller position before the entries of
    the same key. *)
Lemma insert_stable :
  forall x l,
    StronglySorted Props.stable_lt l ->
    Forall (fun y => (fst x < fst y)%nat) l ->
    StronglySorted Props.stable_lt (JobMatcher.insert x l).
Proof.
  intros x l H. induction H as [|y l Hs IH Hy]; intros Hx;
    cbn [JobMatcher.insert].
  - constructor; constructor.
  - inversion Hx as [|? ? Hxy Hxl]; subst.
    destruct (Qle_bool (snd x) (snd y)) eqn:E.
    + apply Qle_bool_iff in E.
      constructor; [constructor; assumption|].
      assert (Hxy' : Props.stable_lt x y).
      { apply Qle_lteq in E. destruct E as [E|E]; [left; exact E|].
        right. split; assumption. }
      constructor; [exact Hxy'|].
      rewrite Forall_forall in *. intros z Hz.
      specialize (Hy z Hz). specialize (Hxl z Hz).
      destruct Hxy' as [Hlt|[Heq _]]; destruct Hy as [Hyz|[Eyz _]].
      * left. eapply Qlt_trans; eassumption.
      * left. rewrite <- Eyz. exact Hlt.
      * left. rewrite Heq. exact Hyz.
      * right. split; [rewrite Heq; exact Eyz|exact Hxl].
    + constructor; [apply IH; exact Hxl|].
      eapply Permutation_Forall;
        [apply Permutation_sym; apply insert_perm|].
      constructor; [|exact Hy].
      left. apply Qnot_le_lt. intro Hle. apply Qle_bool_iff in Hle.
      congruence.
Qed.

Lemma sort_stable :
  forall (keys : list Q) (start : nat),
    StronglySorted Props.stable_lt
      (JobMatcher.sort (combine (seq start (List.length keys)) keys)).
Proof.
  induction keys as [|k keys IH]; intros start.
  - constructor.
  - cbn [List.length seq combine]. unfold JobMatcher.sort.
    cbn [fold_right]. apply insert_stable.
    + apply IH.
    + eapply Permutation_Forall;
        [apply Permutation_sym; apply sort_perm|].
      eapply Forall_impl; [|apply (combine_seq_above keys (S start))].
      intros y Hy. cbn beta in Hy. cbn [fst]. lia.
Qed.

Lemma StronglySorted_nth :
  forall (A : Type) (R : A -> A -> Prop) (l : list A),
    StronglySorted R l ->
    forall p q a b,
      (p < q)%nat -> nth_error l p = Some a -> nth_error l q = Some b ->
      R a b.
Proof.
  intros A R l H. induction H as [|x l Hs IH Hx]; intros p q a b Hpq Hp Hq.
  - destruct p; discriminate.
  - destruct q as [|q]; [lia|]. cbn [nth_error] in Hq.
    destruct p as [|p]; cbn [nth_error] in Hp.
    + inversion Hp; subst. rewrite Forall_forall in Hx. apply Hx.
      eapply nth_error_In. exact Hq.
    + apply (IH p q); [lia|assumption|assumption].
Qed.

(** In a list sorted by [stable_lt], an entry that is below another one
    comes before it. *)
Lemma sorted_before :
  forall (sp : list (nat * Q)) (x y : nat * Q),
    StronglySorted Props.stable_lt sp ->
    In x sp -> In y sp -> Props.stable_lt x y ->
    Props.before (map fst sp) (fst x) (fst y).
Proof.
  intros sp x y Hs Hx Hy Hxy.
  apply In_nth_error in Hx. destruct Hx as [p Hp].
  apply In_nth_error in Hy. destruct Hy as [q Hq].
  destruct (Nat.lt_trichotomy p q) as [Hlt|[Heq|Hgt]].
  - exists p, q. split; [exact Hlt|].
    rewrite !nth_error_map, Hp, Hq. split; reflexivity.
  - exfalso. subst q. rewrite Hp in Hq. inversion Hq; subst y.
    exact (stable_lt_asym x x Hxy Hxy).
  - exfalso. apply (stable_lt_asym x y Hxy).
    exact (StronglySorted_nth _ _ sp Hs q p y x Hgt Hq Hp).
Qed.

Lemma before_rev :
  forall (l : list nat) (i j : nat),
    Props.before l j i -> Props.before (rev l) i j.
Proof.
  intros l i j [p [q [Hpq [Hp Hq]]]].
  assert (Hql : (q < List.length l)%nat)
    by (apply nth_error_Some; rewrite Hq; discriminate).
  exists (List.length l - S q)%nat, (List.length l - S p)%nat.
  split; [lia|]. rewrite !nth_error_rev.
  replace (List.length l - S q <? List.length l)%nat with true
    by (symmetry; apply Nat.ltb_lt; lia).
  replace (List.length l - S p <? List.length l)%nat with true
    by (symmetry; apply Nat.ltb_lt; lia).
  replace (List.length l - S (List.length l - S q))%nat with q by lia.
  replace (List.length l - S (List.length l - S p))%nat with p by lia.
  split; assumption.
Qed.

(** What [argsort] gives on the scores of a frame of [n] rows: a
    permutation of the positions, at which the rows and the scores can be
    taken, in the order of the scores, the positions of equal scores in
    their order. *)
Lemma argsort_ranks :
  forall (scores : list Q),
    Permutation (JobMatcher.argsort scores) (seq 0 (List.length scores)) /\
    (forall i j si sj,
        Props.score scores i si -> Props.score scores j sj ->
        (si < sj)%Q -> Props.before (JobMatcher.argsort scores) i j) /\
    (forall i j si sj,
        Props.score scores i si -> Props.score scores j sj ->
        (si == sj)%Q -> (i < j)%nat ->
        Props.before (JobMatcher.argsort scores) i j).
Proof.
  intros scores. unfold JobMatcher.argsort, Props.score.
  pose proof (sort_perm (combine (seq 0 (List.length scores)) scores))
    as Hperm.
  pose proof (sort_stable scores 0) as Hs.
  split; [|split].
  - eapply Permutation_trans; [apply Permutation_map; exact Hperm|].
    rewrite map_fst_combine_same_length; [apply Permutation_refl|].
    apply length_seq.
  - intros i j si sj Hi Hj Hlt.
    apply (sorted_before _ (i, si) (j, sj) Hs).
    + apply (Permutation_in _ (Permutation_sym Hperm)).
      exact (in_combine_seq scores 0 i si Hi).
    + apply (Permutation_in _ (Permutation_sym Hperm)).
      exact (in_combine_seq scores 0 j sj Hj).
    + left. exact Hlt.
  - intros i j si sj Hi Hj Heq Hij.
    apply (sorted_before _ (i, si) (j, sj) Hs).
    + apply (Permutation_in _ (Permutation_sym Hperm)).
      exact (in_combine_seq scores 0 i si Hi).
    + apply (Permutation_in _ (Permutation_sym Hperm)).
      exact (in_combine_seq scores 0 j sj Hj).
    + right. split; [exact Heq|exact Hij].
Qed.

(** The rows of the frame taken at a permutation of its positions, with
    their scores. *)
Lemma ranked_by :
  forall (rs : list Row) (scores : list Q) (top_indices : list nat),
    List.length scores = List.length rs ->
    Permutation top_indices (seq 0 (List.length rs)) ->
    exists out,
      (sorted_df <- JobMatcher.take rs top_indices ;;
       distances <- JobMatcher.take scores top_indices ;;
       Ok {| labels := FSLabels;
             rows := map (fun rd => JobMatcher.set_Distance (fst rd) (snd rd))
                         (combine sorted_df distances) |})
      = Ok {| labels := FSLabels; rows := out |} /\
      JobMatcher.take (Props.annotated rs scores) top_indices = Ok out.
Proof.
  intros rs scores top_indices Hlen Hperm.
  destruct (take_annotated rs scores top_indices Hlen)
    as [a [b [Ha [Hb Hab]]]].
  { apply Forall_forall. intros i Hi.
    apply (Permutation_in _ Hperm) in Hi. apply in_seq in Hi. lia. }
  eexists. rewrite Ha, Hb. cbn [Py.bind].
  split; [reflexivity|exact Hab].
Qed.

(** C4 (amended).  On a frame of at least one row, with the skill columns
    of the user and of the frame in place, [calculate_distances] returns
    the rows at a permutation of their positions, each with the score that
    scikit-learn computed for it.  With the Euclidean method a row with a
    strictly smaller computed distance comes before a row with a larger
    one; with the cosine method a row with a strictly greater computed
    similarity comes first.  Rows of equal computed scores are not ordered
    by one rule: on a frame of up to 16 rows they keep the order of the
    frame with the Euclidean method, and come in the reverse of it with
    the cosine method. *)
Theorem calculate_distances_ranks :
  forall (sk : JobMatcher.Pairwise) (self : JobMatcher.t)
         (query : TargetProfile) (df : DataFrame),
    tp_labels query = FSLabels ->
    labels df <> OtherLabels ->
    rows df <> [] ->
    (JobMatcher.method self = "euclidean" ->
     let scores :=
       JobMatcher.euclidean_distances sk (tp_values query)
                                      (map FS (rows df)) in
     List.length scores = List.length (rows df) ->
     exists top_indices out,
       snd (JobMatcher.calculate_distances_by sk self query df)
       = Ok {| labels := FSLabels; rows := out |} /\
       Permutation top_indices (seq 0 (List.length (rows df))) /\
       JobMatcher.take (Props.annotated (rows df) scores) top_indices
       = Ok out /\
       (forall i j si sj,
           Props.score scores i si -> Props.score scores j sj ->
           (si < sj)%Q -> Props.before top_indices i j) /\
       ((List.length (rows df) <= 16)%nat ->
        forall i j si sj,
          Props.score scores i si -> Props.score scores j sj ->
          (si == sj)%Q -> (i < j)%nat -> Props.before top_indices i j)) /\
    (JobMatcher.method self = "cosine" ->
     let scores :=
       JobMatcher.cosine_similarity sk (tp_values query)
                                    (map FS (rows df)) in
     List.length scores = List.length (rows df) ->
     exists top_indices out,
       snd (JobMatcher.calculate_distances_by sk self query df)
       = Ok {| labels := FSLabels; rows := out |} /\
       Permutation top_indices (seq 0 (List.length (rows df))) /\
       JobMatcher.take (Props.annotated (rows df) scores) top_indices
       = Ok out /\
       (forall i j si sj,
           Props.score scores i si -> Props.score scores j sj ->
           (sj < si)%Q -> Props.before top_indices i j) /\
       ((List.length (rows df) <= 16)%nat ->
        forall i j si sj,
          Props.score scores i si -> Props.score scores j sj ->
          (si == sj)%Q -> (i < j)%nat -> Props.before top_indices j i)).
Proof.
  intros sk self query [l rs] Hq Hl Hrows. cbn [labels rows] in *.
  assert (Hbody :
    snd (JobMatcher.calculate_distances_by
           sk self query {| labels := l; rows := rs |})
    = ('(similarities, top_indices) <-
         (if String.eqb (JobMatcher.method self) "euclidean" then
            Ok (JobMatcher.euclidean_distances sk (tp_values query)
                                               (map FS rs),
                JobMatcher.argsort
                  (JobMatcher.euclidean_distances sk (tp_values query)
                                                  (map FS rs)))
          else if String.eqb (JobMatcher.method self) "cosine" then
            Ok (JobMatcher.cosine_similarity sk (tp_values query)
                                             (map FS rs),
                rev (JobMatcher.argsort
                       (JobMatcher.cosine_similarity sk (tp_values query)
                                                     (map FS rs))))
          else Raise UnboundLocalError) ;;
       sorted_df <- JobMatcher.take rs top_indices ;;
       distances <- JobMatcher.take similarities top_indices ;;
       Ok {| labels := FSLabels;
             rows := map (fun rd => JobMatcher.set_Distance (fst rd) (snd rd))
                         (combine sorted_df distances) |})).
  { unfold JobMatcher.calculate_distances_by. cbn [snd]. rewrite Hq.
    cbn [JobMatcher.fs_columns Py.bind].
    destruct rs as [|r0 rs']; [contradiction|].
    destruct l; [| |contradiction];
      cbn [labels rows JobMatcher.fs_columns Py.bind map];
      (destruct (String.eqb (JobMatcher.method self) "euclidean");
       [reflexivity|];
       destruct (String.eqb (JobMatcher.method self) "cosine");
       reflexivity). }
  rewrite Hbody. clear Hbody. split; intros Hm Hlen; rewrite Hm.
  - cbn [String.eqb Ascii.eqb Bool.eqb andb Py.bind].
    set (scores := JobMatcher.euclidean_distances sk (tp_values query)
                                                  (map FS rs)) in *.
    destruct (argsort_ranks scores) as [Hperm [Hstrict Hties]].
    rewrite Hlen in Hperm.
    destruct (ranked_by rs scores (JobMatcher.argsort scores) Hlen Hperm)
      as [out [Hout Htake]].
    exists (JobMatcher.argsort scores), out.
    split; [exact Hout|]. split; [exact Hperm|]. split; [exact Htake|].
    split; [exact Hstrict|]. intros _. exact Hties.
  - cbn [String.eqb Ascii.eqb Bool.eqb andb Py.bind].
    set (scores := JobMatcher.cosine_similarity sk (tp_values query)
                                                (map FS rs)) in *.
    destruct (argsort_ranks scores) as [Hperm [Hstrict Hties]].
    rewrite Hlen in Hperm.
    assert (Hperm' : Permutation (rev (JobMatcher.argsort scores))
                                 (seq 0 (List.length rs))).
    { eapply Permutation_trans;
        [apply Permutation_sym; apply Permutation_rev|exact Hperm]. }
    destruct (ranked_by rs scores (rev (JobMatcher.argsort scores)) Hlen
                        Hperm') as [out [Hout Htake]].
    exists (rev (JobMatcher.argsort scores)), out.
    split; [exact Hout|]. split; [exact Hperm'|]. split; [exact Htake|].
    split.
    + intros i j si sj Hi Hj Hlt. apply before_rev.
      exact (Hstrict j i sj si Hj Hi Hlt).
    + intros _ i j si sj Hi Hj Heq Hij. apply before_rev.
      exact (Hties i j si sj Hi Hj Heq Hij).
Qed.

(** The witness of C4: the Euclidean ranking of the two candidates of the
    example, with the scores without rounding. *)
Lemma calculate_distances_ranks_twins :
  exists top_indices out,
    snd (JobMatcher.calculate_distances_by
           JobMatcher.exact JobMatcher.default (user None) twins)
    = Ok {| labels := FSLabels; rows := out |} /\
    Permutation top_indices (seq 0 2) /\
    JobMatcher.take (Props.annotated (rows twins) [0; 8200]%Q) top_indices
    = Ok out /\
    (forall i j si sj,
        Props.score [0; 8200]%Q i si -> Props.score [0; 8200]%Q j sj ->
        (si < sj)%Q -> Props.before top_indices i j) /\
    ((2 <= 16)%nat ->
     forall i j si sj,
       Props.score [0; 8200]%Q i si -> Props.score [0; 8200]%Q j sj ->
       (si == sj)%Q -> (i < j)%nat -> Props.before top_indices i j).
Proof.
  exact (proj1 (calculate_distances_ranks
                  JobMatcher.exact JobMatcher.default (user None) twins
                  eq_refl ltac:(discriminate) ltac:(discriminate))
               eq_refl eq_refl).
Defined.

(** C4, at two candidates with the same profile, hence the same computed
    similarity to the user, A before B in the frame: the cosine ranking
    puts B before A. *)
Lemma calculate_distances_cosine_reverses_ties :
  FS (candidate "A" (v 10 90)) = FS (candidate "B" (v 10 90)) /\
  map conceptUri (rows clones) = ["A"; "B"] /\
  Props.ranking
    (snd (JobMatcher.calculate_distances {| JobMatcher.method := "cosine" |}
                                         (user None) clones))
    = Some ["B"; "A"].
Proof. repeat split; vm_compute; reflexivity. Qed.

(** ** The refinement of the recommendations *)








(** [compare_occupation_similarity] reads the first skill only: it accepts
    a broader profile at distance 100 whose first value is the same. *)
Remark compare_occupation_similarity_first_value :
  JobRecommender.compare_occupation_similarity [candidate "X" (v 10 0)]
                                               (v 10 100)
  = Ok true /\
  ~ Props.close (v 10 0) (v 10 100).
Proof.
  split; [vm_compute; reflexivity|].
  unfold Props.close. vm_compute. discriminate.
Qed.

(** * Further properties *)

(** ** Profiles whose distances are computed without rounding *)

Lemma wholeb_exactly_computed :
  forall x, Props.wholeb x = true -> Props.exactly_computed x.
Proof.
  intros x H. unfold Props.wholeb in H. apply Bool.andb_true_iff in H.
  destruct H as [Hlen Hall]. split.
  - apply Nat.leb_le. exact Hlen.
  - apply Forall_forall. intros q Hq.
    rewrite forallb_forall in Hall. specialize (Hall q Hq).
    apply Bool.andb_true_iff in Hall. destruct Hall as [Hd Hn].
    split; [apply Pos.eqb_eq; exact Hd|apply Z.leb_le; exact Hn].
Qed.

Lemma wholeb_pool :
  forall l : list OccProfile,
    forallb (fun o => Props.wholeb (occ_values o)) l = true ->
    Forall (fun o => Props.exactly_computed (occ_values o)) l.
Proof.
  intros l H. apply Forall_forall. intros o Ho.
  rewrite forallb_forall in H. apply wholeb_exactly_computed.
  apply H. exact Ho.
Qed.

Lemma wholeb_rows :
  forall l : list Row,
    forallb (fun r => Props.wholeb (FS r)) l = true ->
    Forall (fun r => Props.exactly_computed (FS r)) l.
Proof.
  intros l H. apply Forall_forall. intros r Hr.
  rewrite forallb_forall in H. apply wholeb_exactly_computed.
  apply H. exact Hr.
Qed.

Lemma wholeb_peers :
  forall l : list UserProfile,
    forallb (fun u => Props.wholeb (up_values u)) l = true ->
    Forall (fun u => Props.exactly_computed (up_values u)) l.
Proof.
  intros l H. apply Forall_forall. intros u Hu.
  rewrite forallb_forall in H. apply wholeb_exactly_computed.
  apply H. exact Hu.
Qed.

Lemma pool_one_row_per_uri : NoDup (map occ_uri (of_rows pool)).
Proof. repeat constructor; cbn; intuition discriminate. Qed.

(** ** When the filter by job history returns *)

Lemma find_existsb :
  forall (A : Type) (f : A -> bool) (l : list A),
    existsb f l = match find f l with Some _ => true | None => false end.
Proof.
  intros A f l. induction l as [|x l IH]; simpl.
  - reflexivity.
  - destruct (f x); [reflexivity|exact IH].
Qed.

Lemma history_step_outcome :
  forall h pool st job,
    if Props.resolvable h pool job
    then exists st', JobMatcher.history_step h pool st job = Ok st'
    else JobMatcher.history_step h pool st job = Raise KeyError.
Proof.
  intros h pool0 [pr nr] job.
  unfold Props.resolvable, JobMatcher.history_step, JobMatcher.loc,
         esco_helper.get_narrower_occupations, esco_helper.look_up_code.
  rewrite !find_existsb.
  destruct (find (fun o => String.eqb (occ_uri o) job) (of_rows pool0));
    cbn [andb Py.bind]; [|reflexivity].
  destruct (find (fun r => String.eqb (fst r) job)
                 (esco_helper.look_up_table h)); cbn [Py.bind].
  - eexists. reflexivity.
  - reflexivity.
Qed.

Lemma history_loop_outcome :
  forall h pool jobs st,
    if forallb (Props.resolvable h pool) jobs
    then exists st', JobMatcher.history_loop h pool st jobs = Ok st'
    else JobMatcher.history_loop h pool st jobs = Raise KeyError.
Proof.
  intros h pool0 jobs. induction jobs as [|job jobs IH]; intros st.
  - simpl. exists st. reflexivity.
  - cbn [forallb JobMatcher.history_loop].
    pose proof (history_step_outcome h pool0 st job) as Hs.
    destruct (Props.resolvable h pool0 job); cbn [andb].
    + destruct Hs as [st' ->]. cbn [Py.bind]. apply IH.
    + rewrite Hs. reflexivity.
Qed.

(** On a pool with one row per uri, [filter_by_job_history] returns a
    pool when every disliked job of the history is a row of the pool and
    of the look-up table of ESCO; it raises [KeyError] as soon as one of
    them is not. *)
Theorem filter_by_job_history_returns_iff_resolvable :
  forall h pool job_history,
    NoDup (map occ_uri (of_rows pool)) ->
    if forallb (Props.resolvable h pool) (Props.disliked job_history)
    then exists out,
        JobMatcher.filter_by_job_history h pool job_history = Ok out
    else JobMatcher.filter_by_job_history h pool job_history
         = Raise KeyError.
Proof.
  intros h pool0 job_history _.
  unfold JobMatcher.filter_by_job_history.
  fold (Props.disliked job_history).
  pose proof (history_loop_outcome h pool0 (Props.disliked job_history)
                                   ([], [])) as Hl.
  destruct (Props.disliked job_history) as [|d ds].
  - simpl. eexists. reflexivity.
  - cbn [List.length Nat.ltb Nat.leb].
    destruct (forallb (Props.resolvable h pool0) (d :: ds)).
    + destruct Hl as [[pr nr] ->]. cbn [Py.bind]. eexists. reflexivity.
    + rewrite Hl. reflexivity.
Qed.

(** The witness: the pool of the example, where the disliked job A is a
    row of the pool and of the look-up table. *)
Lemma filter_by_job_history_returns_example :
  exists out,
    JobMatcher.filter_by_job_history esco pool [[("A", false)]] = Ok out.
Proof.
  exact (filter_by_job_history_returns_iff_resolvable
           esco pool [[("A", false)]] pool_one_row_per_uri).
Defined.

(** On a pool with one row per uri, whose profiles are computed without
    rounding, what [filter_by_job_history] returns is a part of the pool
    without the disliked jobs and without the occupations at a distance
    below 30 of a disliked job; a history without disliked job leaves the
    pool as it is. *)
Theorem filter_by_job_history_removes_disliked :
  forall h pool job_history out,
    NoDup (map occ_uri (of_rows pool)) ->
    Forall (fun o => Props.exactly_computed (occ_values o)) (of_rows pool) ->
    JobMatcher.filter_by_job_history h pool job_history = Ok out ->
    (forall o, In o (of_rows out) -> In o (of_rows pool)) /\
    (Props.disliked job_history = [] -> out = pool) /\
    (forall d o,
        In d (Props.disliked job_history) -> In o (of_rows out) ->
        occ_uri o <> d /\
        (forall p, JobMatcher.loc pool d = Ok p ->
                   ~ Props.close (occ_values p) (occ_values o))).
Proof.
  intros h pool0 job_history out _ _ H.
  exact (filter_by_job_history_removes_disliked_and_close
           h pool0 job_history out H).
Qed.

(** The witness: the history [{A: disliked}] on the pool of the example;
    A and B go, C stays. *)
Lemma filter_by_job_history_removes_disliked_example :
  (forall o, In o [occ "C" (v 10 50)] -> In o (of_rows pool)) /\
  (Props.disliked [[("A", false)]] = [] ->
   {| of_labels := FSLabels; of_rows := [occ "C" (v 10 50)] |} = pool) /\
  (forall d o,
      In d (Props.disliked [[("A", false)]]) ->
      In o [occ "C" (v 10 50)] ->
      occ_uri o <> d /\
      (forall p, JobMatcher.loc pool d = Ok p ->
                 ~ Props.close (occ_values p) (occ_values o))).
Proof.
  exact (filter_by_job_history_removes_disliked
           esco pool [[("A", false)]]
           {| of_labels := FSLabels; of_rows := [occ "C" (v 10 50)] |}
           pool_one_row_per_uri (wholeb_pool (of_rows pool) eq_refl)
           eq_refl).
Defined.





(** ** The choice of the bucket, with a rating *)

(** The witness of [match_user_profile_rated_choice]: the user skipped A
    and prefers sector 5; the one frame holds C. *)
Lemma match_user_profile_rated_choice_example :
  snd (RecommenderPipeline.match_user_profile
         pipeline (user (Some ("A", "0"))) pool (peers []) (Some [5%nat]) []
         false)
  = (matchings <-
       snd (JobMatcher.calculate_distances
              JobMatcher.default (user (Some ("A", "0")))
              {| labels := FSLabels;
                 rows := [Props.joined_row
                            (occ "C" (v 10 50))
                            {| kl_uri := "C"; kl_keys := Some "[5 9]" |}] |}) ;;
     Ok (matchings, pool)).
Proof.
  exact (match_user_profile_rated_choice
           pipeline (user (Some ("A", "0"))) pool (peers []) (Some [5%nat]) []
           (Some ["0"]) (Some ["A"]) (peers [])
           {| labels := FSLabels;
              rows := [Props.joined_row
                         (occ "C" (v 10 50))
                         {| kl_uri := "C"; kl_keys := Some "[5 9]" |}] |}
           {| labels := FSLabels;
              rows := [Props.joined_row
                         (occ "C" (v 10 50))
                         {| kl_uri := "C"; kl_keys := Some "[5 9]" |}] |}
           eq_refl eq_refl eq_refl).
Defined.

(** With [learning_zone] the pipeline calls [zone_calculator] of the
    matcher without the two arguments it requires: whatever the input,
    [match_user_profile] returns nothing, it raises. *)
Theorem match_user_profile_learning_zone_raises :
  forall m recommender kldb h target pool ups prefs hist,
    exists e,
      snd (RecommenderPipeline.match_user_profile
             {| RecommenderPipeline.matcher :=
                  RecommenderPipeline.job_matcher m;
                RecommenderPipeline.recommender := recommender;
                RecommenderPipeline.ESCO2kldb := kldb;
                RecommenderPipeline.ESCO := h |}
             target pool ups prefs hist true)
      = Raise e.
Proof.
  intros m recommender kldb h target pool0 ups prefs hist.
  unfold RecommenderPipeline.match_user_profile.
  cbn [RecommenderPipeline.matcher RecommenderPipeline.job_matcher
       RecommenderPipeline.extract_user_rating
       RecommenderPipeline.filter_by_rating
       RecommenderPipeline.calculate_distances
       RecommenderPipeline.ESCO2kldb RecommenderPipeline.ESCO].
  destruct (JobMatcher.extract_user_rating target) as [ratings rated].
  destruct (JobMatcher.filter_by_rating pool0 ups kldb h prefs hist rated
                                        ratings) as [ups' [fp|e]];
    cbn [snd Py.bind]; [|eexists; reflexivity].
  match goal with
  | |- context [Py.bind ?c _] =>
      destruct c as [selected|e]; cbn [Py.bind]; [|eexists; reflexivity]
  end.
  destruct (snd (JobMatcher.calculate_distances m target selected));
    cbn [Py.bind]; eexists; reflexivity.
Qed.

(** ** What the ranking returns and raises *)

Lemma rank_rows_length :
  forall (key : Row -> Q) (rs ranked : list Row),
    Permutation ranked rs ->
    List.length (map (fun r => JobMatcher.set_Distance r (key r)) ranked)
    = List.length rs.
Proof.
  intros key rs ranked Hp. rewrite length_map.
  apply Permutation_length. exact Hp.
Qed.

(** The ranking with a known method, on the skill columns of the user and
    of a frame of at least one row. *)
Lemma calculate_distances_rows :
  forall self query l rs,
    tp_labels query = FSLabels ->
    l <> OtherLabels ->
    rs <> [] ->
    (JobMatcher.method self = "euclidean" ->
     exists ranked,
       snd (JobMatcher.calculate_distances
              self query {| labels := l; rows := rs |})
       = Ok {| labels := FSLabels;
               rows := map (fun r => JobMatcher.set_Distance
                                       r (Props.euclidean_key query r))
                           ranked |} /\
       Permutation ranked rs /\
       StronglySorted
         (fun a b => Props.euclidean_key query a
                     <= Props.euclidean_key query b)%Q ranked) /\
    (JobMatcher.method self = "cosine" ->
     exists ranked,
       snd (JobMatcher.calculate_distances
              self query {| labels := l; rows := rs |})
       = Ok {| labels := FSLabels;
               rows := map (fun r => JobMatcher.set_Distance
                                       r (Props.cosine_key query r))
                           ranked |} /\
       Permutation ranked rs).
Proof.
  intros self query l rs Hq Hl Hrows.
  assert (Hbody :
    forall key : (list Q -> list Q -> Q),
      (values <- JobMatcher.fs_columns
                   (labels match l with
                           | SkillLabels => {| labels := FSLabels; rows := rs |}
                           | _ => {| labels := l; rows := rs |}
                           end)
                   (map FS (rows match l with
                                 | SkillLabels =>
                                     {| labels := FSLabels; rows := rs |}
                                 | _ => {| labels := l; rows := rs |}
                                 end)) ;;
       match values with
       | [] => Raise ValueError
       | _ :: _ => Ok (map (key (tp_values query)) values)
       end)
      = Ok (map (fun r => key (tp_values query) (FS r)) rs)).
  { intros key. destruct rs as [|r0 rs']; [contradiction|].
    destruct l; [| |contradiction];
      cbn [labels rows JobMatcher.fs_columns Py.bind map];
      rewrite map_map; reflexivity. }
  assert (Hlab : labels match l with
                        | SkillLabels => {| labels := FSLabels; rows := rs |}
                        | _ => {| labels := l; rows := rs |}
                        end = FSLabels)
    by (destruct l; [reflexivity|reflexivity|contradiction]).
  assert (Hrs : rows match l with
                     | SkillLabels => {| labels := FSLabels; rows := rs |}
                     | _ => {| labels := l; rows := rs |}
                     end = rs)
    by (destruct l; reflexivity).
  split; intros Hm.
  - destruct (rank_rows (Props.euclidean_key query) rs
                (JobMatcher.sort
                   (combine (seq 0 (List.length rs))
                            (map (Props.euclidean_key query) rs)))
                (sort_perm _)) as [ranked [Hout [Hperm Hkeys]]].
    exists ranked. split; [|split; [exact Hperm|]].
    + unfold JobMatcher.calculate_distances. cbn [snd labels rows].
      rewrite Hq. cbn [JobMatcher.fs_columns Py.bind]. rewrite Hm.
      cbn [String.eqb Ascii.eqb Bool.eqb andb].
      rewrite (Hbody Vec.sqdist). cbn [Py.bind].
      rewrite Hlab, Hrs. unfold JobMatcher.argsort. rewrite length_map.
      exact Hout.
    + apply StronglySorted_map_inv with (R := Qle).
      rewrite Hkeys. apply sort_keys_sorted.
  - destruct (rank_rows (Props.cosine_key query) rs
                (rev (JobMatcher.sort
                        (combine (seq 0 (List.length rs))
                                 (map (Props.cosine_key query) rs)))))
      as [ranked [Hout [Hperm Hkeys]]].
    { eapply Permutation_trans;
        [apply Permutation_sym; apply Permutation_rev|apply sort_perm]. }
    exists ranked. split; [|exact Hperm].
    unfold JobMatcher.calculate_distances. cbn [snd labels rows].
    rewrite Hq. cbn [JobMatcher.fs_columns Py.bind]. rewrite Hm.
    cbn [String.eqb Ascii.eqb Bool.eqb andb].
    rewrite (Hbody Vec.cosine_key). cbn [Py.bind].
    rewrite Hlab, Hrs. unfold JobMatcher.argsort. rewrite length_map.
    rewrite <- map_rev. exact Hout.
Qed.

Lemma set_Distance_some :
  forall (key : Row -> Q) (l : list Row),
    Forall (fun r => Distance r <> None)
           (map (fun r => JobMatcher.set_Distance r (key r)) l).
Proof.
  intros key l. apply Forall_map. apply Forall_forall.
  intros r _. discriminate.
Qed.

(** [calculate_distances] raises [KeyError] when the user has no skill
    columns, [UnboundLocalError] when the method of the matcher is neither
    [euclidean] nor [cosine], [KeyError] when the frame has no skill
    columns, and [ValueError] on a frame of no row, in this order;
    otherwise it returns a frame of as many rows as it was given, each with
    a distance. *)
Theorem calculate_distances_outcome :
  forall self query df,
    let out := snd (JobMatcher.calculate_distances self query df) in
    let known := JobMatcher.method self = "euclidean" \/
                 JobMatcher.method self = "cosine" in
    (tp_labels query <> FSLabels -> out = Raise KeyError) /\
    (tp_labels query = FSLabels -> ~ known ->
     out = Raise UnboundLocalError) /\
    (tp_labels query = FSLabels -> known -> labels df = OtherLabels ->
     out = Raise KeyError) /\
    (tp_labels query = FSLabels -> known -> labels df <> OtherLabels ->
     rows df = [] -> out = Raise ValueError) /\
    (tp_labels query = FSLabels -> known -> labels df <> OtherLabels ->
     rows df <> [] ->
     exists ranked,
       out = Ok ranked /\
       labels ranked = FSLabels /\
       List.length (rows ranked) = List.length (rows df) /\
       Forall (fun r => Distance r <> None) (rows ranked)).
Proof.
  intros self query [l rs] out known. subst out known.
  cbn [labels rows]. repeat split.
  - intros Hq. unfold JobMatcher.calculate_distances. cbn [snd].
    destruct (tp_labels query); [contradiction| |]; reflexivity.
  - intros Hq Hm. unfold JobMatcher.calculate_distances. cbn [snd].
    rewrite Hq. cbn [JobMatcher.fs_columns Py.bind].
    destruct (String.eqb (JobMatcher.method self) "euclidean") eqn:E1.
    { apply String.eqb_eq in E1. exfalso. apply Hm. left. exact E1. }
    destruct (String.eqb (JobMatcher.method self) "cosine") eqn:E2.
    { apply String.eqb_eq in E2. exfalso. apply Hm. right. exact E2. }
    reflexivity.
  - intros Hq Hm Hl. subst l. unfold JobMatcher.calculate_distances.
    cbn [snd labels rows]. rewrite Hq.
    cbn [JobMatcher.fs_columns Py.bind].
    destruct Hm as [-> | ->]; reflexivity.
  - intros Hq Hm Hl Hrs. subst rs. unfold JobMatcher.calculate_distances.
    cbn [snd labels rows]. rewrite Hq.
    cbn [JobMatcher.fs_columns Py.bind].
    destruct l; [| |contradiction];
      destruct Hm as [-> | ->]; reflexivity.
  - intros Hq Hm Hl Hrs.
    destruct (calculate_distances_rows self query l rs Hq Hl Hrs)
      as [He Hc].
    destruct Hm as [Hm|Hm].
    + destruct (He Hm) as [ranked [Hout [Hperm _]]].
      eexists. split; [exact Hout|]. cbn [labels rows].
      split; [reflexivity|]. split.
      * apply rank_rows_length. exact Hperm.
      * apply set_Distance_some.
    + destruct (Hc Hm) as [ranked [Hout Hperm]].
      eexists. split; [exact Hout|]. cbn [labels rows].
      split; [reflexivity|]. split.
      * apply rank_rows_length. exact Hperm.
      * apply set_Distance_some.
Qed.

Lemma calculate_distances_ok_euclidean :
  forall self query df out,
    JobMatcher.method self = "euclidean" ->
    snd (JobMatcher.calculate_distances self query df) = Ok out ->
    exists ranked,
      rows out = map (fun r => JobMatcher.set_Distance
                                 r (Props.euclidean_key query r)) ranked /\
      Permutation ranked (rows df) /\
      StronglySorted
        (fun a b => Props.euclidean_key query a
                    <= Props.euclidean_key query b)%Q ranked /\
      rows df <> [].
Proof.
  intros self query [l rs] out Hm Hout.
  assert (Hq : tp_labels query = FSLabels).
  { unfold JobMatcher.calculate_distances in Hout. cbn [snd] in Hout.
    destruct (tp_labels query); [reflexivity|discriminate|discriminate]. }
  assert (Hl : l <> OtherLabels).
  { intro E. subst l. unfold JobMatcher.calculate_distances in Hout.
    cbn [snd labels rows] in Hout. rewrite Hq, Hm in Hout.
    discriminate. }
  assert (Hrs : rs <> []).
  { intro E. subst rs. unfold JobMatcher.calculate_distances in Hout.
    cbn [snd labels rows] in Hout. rewrite Hq, Hm in Hout.
    destruct l; [discriminate|discriminate|contradiction]. }
  destruct (proj1 (calculate_distances_rows self query l rs Hq Hl Hrs) Hm)
    as [ranked [Hok [Hperm Hsorted]]].
  rewrite Hok in Hout. inversion Hout; subst out. cbn [rows].
  exists ranked. split; [reflexivity|]. split; [exact Hperm|].
  split; [exact Hsorted|exact Hrs].
Qed.

Lemma sorted_head_least :
  forall (key : Row -> Q) (r : Row) (ranked rs : list Row),
    Permutation (r :: ranked) rs ->
    StronglySorted (fun a b => key a <= key b)%Q (r :: ranked) ->
    In r rs /\ forall c, In c rs -> (key r <= key c)%Q.
Proof.
  intros key r ranked rs Hperm Hsorted. split.
  - apply (Permutation_in r Hperm). left. reflexivity.
  - intros c Hc.
    apply (Permutation_in c (Permutation_sym Hperm)) in Hc.
    inversion Hsorted as [|? ? Hs Hall]; subst.
    destruct Hc as [<-|Hc].
    + apply Qle_refl.
    + rewrite Forall_forall in Hall. apply Hall. exact Hc.
Qed.

(** With the Euclidean method, on profiles whose distances are computed
    without rounding, the first row of the ranking is a candidate of the
    frame, with its distance, and no candidate of the frame is strictly
    closer to the user than it is. *)
Theorem calculate_distances_first_is_closest :
  forall self query df out,
    JobMatcher.method self = "euclidean" ->
    Props.exactly_computed (tp_values query) ->
    Forall (fun c => Props.exactly_computed (FS c)) (rows df) ->
    snd (JobMatcher.calculate_distances self query df) = Ok out ->
    exists r rest,
      In r (rows df) /\
      rows out
      = JobMatcher.set_Distance r (Props.euclidean_key query r) :: rest /\
      forall c, In c (rows df) ->
                (Props.euclidean_key query r
                 <= Props.euclidean_key query c)%Q.
Proof.
  intros self query df out Hm _ _ Hout.
  destruct (calculate_distances_ok_euclidean self query df out Hm Hout)
    as [ranked [Hrows [Hperm [Hsorted Hne]]]].
  destruct ranked as [|r ranked'].
  { apply Permutation_nil in Hperm. contradiction. }
  destruct (sorted_head_least (Props.euclidean_key query) r ranked' (rows df)
                              Hperm Hsorted) as [Hin Hleast].
  exists r. eexists. split; [exact Hin|]. split; [exact Hrows|exact Hleast].
Qed.

(** The witness: of two candidates at the distances 0 and 20 of the user,
    the first one comes first. *)
Lemma calculate_distances_first_is_closest_example :
  exists r rest,
    In r (rows twins) /\
    rows {| labels := FSLabels;
            rows := [JobMatcher.set_Distance (candidate "A" (v 10 90)) 0;
                     JobMatcher.set_Distance (candidate "B" (v 20 180))
                                             8200] |}
    = JobMatcher.set_Distance r (Props.euclidean_key (user None) r) :: rest /\
    forall c, In c (rows twins) ->
              (Props.euclidean_key (user None) r
               <= Props.euclidean_key (user None) c)%Q.
Proof.
  apply (calculate_distances_first_is_closest
           JobMatcher.default (user None) twins _ eq_refl
           (wholeb_exactly_computed (tp_values (user None)) eq_refl)
           (wholeb_rows (rows twins) eq_refl)).
  vm_compute. reflexivity.
Defined.

(** ** The expanded user profiles *)

Lemma in_combine_nth :
  forall (A B : Type) (l : list A) (l' : list B) (a : A) (b : B),
    In (a, b) (combine l l') <->
    exists i, nth_error l i = Some a /\ nth_error l' i = Some b.
Proof.
  intros A B l. induction l as [|x l IH]; intros l' a b.
  - simpl. split; [intros []|].
    intros [i [H _]]. destruct i; discriminate.
  - destruct l' as [|y l'].
    + simpl. split; [intros []|].
      intros [i [_ H]]. destruct i; discriminate.
    + simpl. split.
      * intros [H|H].
        -- inversion H; subst. exists 0%nat. split; reflexivity.
        -- apply IH in H. destruct H as [i [H1 H2]].
           exists (S i). split; assumption.
      * intros [[|i] [H1 H2]]; simpl in *.
        -- inversion H1; inversion H2; subst. left. reflexivity.
        -- right. apply IH. exists i. split; assumption.
Qed.

Lemma length_flat_map_sum :
  forall (A B : Type) (f : A -> list B) (l : list A),
    List.length (flat_map f l)
    = list_sum (map (fun x => List.length (f x)) l).
Proof.
  intros A B f l. induction l as [|x l IH]; simpl.
  - reflexivity.
  - rewrite length_app, IH. reflexivity.
Qed.

(** [expand_user_profiles] makes one row of every position that the two
    logs of a user share: the recommendation and the rating of a row stand
    at the same position of the logs of its user, and a user gives as many
    rows as the shorter of its two logs is long.  A user whose logs are NaN
    gives no row. *)
Theorem expand_user_profiles_pairs_positions :
  forall df,
    let users := uf_rows (fst (JobMatcher.expand_user_profiles df)) in
    let expanded := snd (JobMatcher.expand_user_profiles df) in
    (forall e,
        In e expanded <->
        exists u i,
          In u users /\
          er_profile e = u /\ er_ID e = up_index u /\
          nth_error (JobMatcher.items (job_recommendations u)) i
            = Some (er_conceptUri e) /\
          nth_error (JobMatcher.items (job_ratings u)) i
            = Some (single_job_rating e)) /\
    List.length expanded
    = list_sum
        (map (fun u =>
                Nat.min
                  (List.length (JobMatcher.items (job_recommendations u)))
                  (List.length (JobMatcher.items (job_ratings u))))
             users) /\
    (forall u, In u (uf_rows df) ->
               job_recommendations u = NaN \/ job_ratings u = NaN ->
               forall e, In e expanded ->
                         er_profile e <> JobMatcher.process_columns u).
Proof.
  intros df users expanded. subst users expanded.
  unfold JobMatcher.expand_user_profiles. cbn [fst snd uf_rows].
  set (users := map JobMatcher.process_columns (uf_rows df)).
  assert (Hin : forall e,
             In e (JobMatcher.expand_rows users) <->
             exists u i,
               In u users /\
               er_profile e = u /\ er_ID e = up_index u /\
               nth_error (JobMatcher.items (job_recommendations u)) i
                 = Some (er_conceptUri e) /\
               nth_error (JobMatcher.items (job_ratings u)) i
                 = Some (single_job_rating e)).
  { intros e. unfold JobMatcher.expand_rows. rewrite in_flat_map. split.
    - intros [u [Hu He]]. apply in_map_iff in He.
      destruct He as [[uri rating] [He Hrr]].
      apply in_combine_nth in Hrr. destruct Hrr as [i [H1 H2]].
      subst e. exists u, i. cbn. repeat split; assumption.
    - intros [u [i [Hu [Hp [Hid [H1 H2]]]]]]. exists u. split; [exact Hu|].
      apply in_map_iff. exists (er_conceptUri e, single_job_rating e).
      split.
      + destruct e as [p c r id]. cbn in *. subst. reflexivity.
      + apply in_combine_nth. exists i. split; assumption. }
  split; [exact Hin|]. split.
  - unfold JobMatcher.expand_rows. rewrite length_flat_map_sum.
    f_equal. apply map_ext. intros u.
    rewrite length_map, length_combine. reflexivity.
  - intros u Hu Hnan e He Heq. apply Hin in He.
    destruct He as [u' [i [_ [Hp [_ [H1 H2]]]]]].
    rewrite Heq in Hp. subst u'.
    destruct Hnan as [Hn|Hn]; unfold JobMatcher.process_columns in H1, H2;
      cbn in H1, H2; rewrite Hn in *; cbn in *;
      destruct i; discriminate.
Qed.

(** ** The sectors of the professional interests *)

Lemma NoDup_map_filter :
  forall (A B : Type) (f : A -> B) (g : A -> bool) (l : list A),
    NoDup (map f l) -> NoDup (map f (List.filter g l)).
Proof.
  intros A B f g l. induction l as [|x l IH]; simpl; intros H.
  - constructor.
  - inversion H as [|? ? Hx Hl]; subst.
    destruct (g x); simpl.
    + constructor; [|apply IH; exact Hl].
      intro Hin. apply Hx. apply in_map_iff in Hin.
      destruct Hin as [y [Hy Hin]]. apply filter_In in Hin.
      apply in_map_iff. exists y. tauto.
    + apply IH. exact Hl.
Qed.

(** [mapSectorsToNumbers] returns sector codes from 0 to 9, each at most
    once: the code of every sector whose description occurs in the string
    of interests, and no other. *)
Theorem mapSectorsToNumbers_codes :
  forall sectorsList,
    NoDup (JobMatcher.mapSectorsToNumbers sectorsList) /\
    Forall (fun k => k < 10)%nat (JobMatcher.mapSectorsToNumbers sectorsList) /\
    (forall k,
        In k (JobMatcher.mapSectorsToNumbers sectorsList) <->
        exists description,
          In (k, description) JobMatcher.sectors_kldb /\
          Py.contains description sectorsList = true).
Proof.
  intros sectorsList. unfold JobMatcher.mapSectorsToNumbers.
  split; [|split].
  - apply NoDup_map_filter. cbn.
    repeat (constructor; [cbn; intuition discriminate|]). constructor.
  - apply Forall_forall. intros k Hk. apply in_map_iff in Hk.
    destruct Hk as [[k' d] [<- Hin]]. apply filter_In in Hin.
    destruct Hin as [Hin _]. cbn in Hin.
    repeat (destruct Hin as [Hin|Hin];
            [inversion Hin; subst; cbn; lia|]).
    destruct Hin.
  - intros k. rewrite in_map_iff. split.
    + intros [[k' d] [<- Hin]]. apply filter_In in Hin.
      exists d. exact Hin.
    + intros [d [Hin Hc]]. exists (k, d). split; [reflexivity|].
      apply filter_In. split; assumption.
Qed.

(** ** The removal of duplicates of the comfort zone *)

Lemma option_string_eqb_eq :
  forall a b, JobRecommender.option_string_eqb a b = true <-> a = b.
Proof.
  intros [x|] [y|]; simpl; split; intros H;
    try discriminate; try reflexivity.
  - apply String.eqb_eq in H. subst. reflexivity.
  - inversion H. apply String.eqb_refl.
Qed.

Lemma seen_In :
  forall b seen,
    existsb (JobRecommender.option_string_eqb b) seen = true <-> In b seen.
Proof.
  intros b seen. rewrite existsb_exists. split.
  - intros [x [Hx E]]. apply option_string_eqb_eq in E. subst. exact Hx.
  - intros H. exists b. split; [exact H|]. apply option_string_eqb_eq.
    reflexivity.
Qed.

Lemma drop_duplicates_from_spec :
  forall l seen,
    (forall r, In r (JobRecommender.drop_duplicates_from seen l) ->
               In r l /\ ~ In (broaderUri r) seen) /\
    NoDup (map broaderUri (JobRecommender.drop_duplicates_from seen l)) /\
    (forall r, In r l ->
               In (broaderUri r) seen \/
               In (broaderUri r)
                  (map broaderUri
                       (JobRecommender.drop_duplicates_from seen l))) /\
    (forall before r after,
        l = (before ++ r :: after)%list ->
        ~ In (broaderUri r) (map broaderUri before) ->
        ~ In (broaderUri r) seen ->
        In r (JobRecommender.drop_duplicates_from seen l)).
Proof.
  induction l as [|x l IH]; intros seen.
  - simpl. split; [intros r []|]. split; [constructor|].
    split; [intros r []|].
    intros [|y0 before0] r0 after0 H; discriminate.
  - cbn [JobRecommender.drop_duplicates_from].
    destruct (existsb (JobRecommender.option_string_eqb (broaderUri x)) seen)
      eqn:E.
    + apply seen_In in E.
      destruct (IH seen) as [H1 [H2 [H3 H4]]].
      split; [|split; [|split]].
      * intros r Hr. destruct (H1 r Hr) as [Ha Hb]. split; [right|]; auto.
      * exact H2.
      * intros r [<-|Hr]; [left; exact E|apply H3; exact Hr].
      * intros before r after Hl Hb Hs. destruct before as [|y before].
        -- inversion Hl; subst. contradiction.
        -- inversion Hl; subst. apply (H4 before r after eq_refl); auto.
           intro Hin. apply Hb. right. exact Hin.
    + assert (Hx : ~ In (broaderUri x) seen).
      { intro Hin. apply seen_In in Hin. congruence. }
      destruct (IH (broaderUri x :: seen)) as [H1 [H2 [H3 H4]]].
      split; [|split; [|split]].
      * intros r [<-|Hr]; [split; [left; reflexivity|exact Hx]|].
        destruct (H1 r Hr) as [Ha Hb]. split; [right; exact Ha|].
        intro Hin. apply Hb. right. exact Hin.
      * cbn [map]. constructor; [|exact H2].
        intro Hin. apply in_map_iff in Hin. destruct Hin as [r [Hb Hr]].
        destruct (H1 r Hr) as [_ Hn]. apply Hn. left. symmetry. exact Hb.
      * intros r [<-|Hr]; [right; left; reflexivity|].
        destruct (H3 r Hr) as [[Heq|Hs]|Hin].
        -- right. left. exact Heq.
        -- left. exact Hs.
        -- right. right. exact Hin.
      * intros before r after Hl Hb Hs. destruct before as [|y before].
        -- inversion Hl; subst. left. reflexivity.
        -- inversion Hl; subst. right.
           apply (H4 before r after eq_refl).
           ++ intro Hin. apply Hb. right. exact Hin.
           ++ intros [Heq|Hin]; [|contradiction].
              apply Hb. left. exact Heq.
Qed.

(** [drop_duplicates] keeps, of the rows that share a broader uri, the
    first one and no other: the rows it returns are rows of the frame with
    pairwise different broader uris (NaN counts as one uri), every broader
    uri of the frame is still there, and a row is kept when no row before
    it has its broader uri. *)
Theorem drop_duplicates_keeps_first_of_each_group :
  forall l,
    (forall r, In r (JobRecommender.drop_duplicates l) -> In r l) /\
    NoDup (map broaderUri (JobRecommender.drop_duplicates l)) /\
    (forall r, In r l ->
               In (broaderUri r)
                  (map broaderUri (JobRecommender.drop_duplicates l))) /\
    (forall before r after,
        l = (before ++ r :: after)%list ->
        ~ In (broaderUri r) (map broaderUri before) ->
        In r (JobRecommender.drop_duplicates l)).
Proof.
  intros l. unfold JobRecommender.drop_duplicates.
  destruct (drop_duplicates_from_spec l []) as [H1 [H2 [H3 H4]]].
  split; [|split; [|split]].
  - intros r Hr. apply H1. exact Hr.
  - exact H2.
  - intros r Hr. destruct (H3 r Hr) as [[]|H]. exact H.
  - intros before r after Hl Hb. apply (H4 before r after Hl Hb).
    intros [].
Qed.

(** ** The comfort zone as the pipeline runs it *)

Lemma try_broader_indexed :
  forall bo f pool job_fs_profile b new_rows,
    JobRecommender.try_broader bo (IndexedByUri f) pool job_fs_profile b
    <> Ok (Some new_rows).
Proof.
  intros bo f pool0 job_fs_profile b new_rows.
  unfold JobRecommender.try_broader.
  destruct (JobMatcher.loc pool0 b) as [p|e]; cbn [Py.bind];
    [|discriminate].
  destruct (JobRecommender.compare_occupation_similarity
              job_fs_profile (occ_values p)) as [[|]|e];
    cbn [Py.bind JobRecommender.select_concept]; discriminate.
Qed.

Lemma refine_loop_indexed :
  forall bo f pool uris st,
    JobRecommender.refine_loop bo (IndexedByUri f) pool st uris
    = if forallb (Props.has_broader bo) uris then Ok st
      else Raise IndexError.
Proof.
  intros bo f pool0 uris. induction uris as [|uri uris IH]; intros st.
  - reflexivity.
  - cbn [JobRecommender.refine_loop forallb].
    unfold JobRecommender.refine_step, JobRecommender.first_broader,
           Props.has_broader at 1.
    destruct st as [recs acc]. rewrite find_existsb.
    destruct (find (fun r => String.eqb (fst r) uri) bo) as [r|];
      cbn [andb Py.bind]; [|reflexivity].
    pose proof (try_broader_indexed
                  bo f pool0
                  (List.filter (fun r0 => String.eqb (conceptUri r0) uri)
                               recs) (snd r)) as Hn.
    destruct (JobRecommender.try_broader
                bo (IndexedByUri f) pool0
                (List.filter (fun r0 => String.eqb (conceptUri r0) uri) recs)
                (snd r)) as [[new_rows|]|e].
    + exfalso. apply (Hn new_rows). reflexivity.
    + cbn [Py.bind]. apply IH.
    + cbn [Py.bind]. apply IH.
Qed.

Lemma forallb_map_compose :
  forall (A B : Type) (f : A -> B) (g : B -> bool) (l : list A),
    forallb g (map f l) = forallb (fun x => g (f x)) l.
Proof.
  intros A B f g l. induction l as [|x l IH]; simpl.
  - reflexivity.
  - rewrite IH. reflexivity.
Qed.

(** As [run] calls it, with the frame of occupation profiles (indexed by
    the uri) as the preferred frame, [get_comfort_zone_recommendation]
    never puts a broader occupation in the place of a match: it returns the
    first five matches that differ in their broader uri, as they are, and
    raises [IndexError] when one of them has no broader relation. *)
Theorem get_comfort_zone_recommendation_indexed_frame :
  forall top_jobs f pool h,
    let broader_occupations := esco_helper.broaderRelationsOccPillar h in
    let recommended_jobs :=
      firstn 5 (JobRecommender.drop_duplicates
                  (JobRecommender.merge_broader broader_occupations
                                                (rows top_jobs))) in
    JobRecommender.get_comfort_zone_recommendation
      top_jobs (IndexedByUri f) pool h
    = if forallb (fun r => Props.has_broader broader_occupations
                                             (conceptUri r))
                 recommended_jobs
      then Ok {| labels := labels top_jobs;
                 rows := map (JobRecommender.set_broaderUri None)
                             recommended_jobs |}
      else Raise IndexError.
Proof.
  intros top_jobs f pool0 h bo recs. subst bo recs.
  unfold JobRecommender.get_comfort_zone_recommendation,
         JobRecommender.refine_recommendations.
  rewrite refine_loop_indexed. rewrite forallb_map_compose.
  match goal with
  | |- context [forallb ?g ?l] => destruct (forallb g l)
  end; cbn [Py.bind]; [|reflexivity].
  rewrite app_nil_r. reflexivity.
Qed.

(** ** The logs of the request *)

Lemma split_not_nil : forall c s, Py.split c s <> [].
Proof.
  intros c s. destruct s as [|a s]; simpl.
  - discriminate.
  - destruct (Ascii.eqb a c); [discriminate|].
    destruct (Py.split c s); discriminate.
Qed.

Lemma split_no_separator :
  forall c x, ~ In c (list_ascii_of_string x) -> Py.split c x = [x].
Proof.
  intros c. induction x as [|a x IH]; intros H.
  - reflexivity.
  - simpl in *. destruct (Ascii.eqb a c) eqn:E.
    + apply Ascii.eqb_eq in E. exfalso. apply H. left. exact E.
    + rewrite IH; [reflexivity|]. intro Hin. apply H. right. exact Hin.
Qed.

Lemma split_append_separator :
  forall c x rest,
    ~ In c (list_ascii_of_string x) ->
    Py.split c (x ++ String c rest) = x :: Py.split c rest.
Proof.
  intros c. induction x as [|a x IH]; intros rest H.
  - simpl. rewrite Ascii.eqb_refl. reflexivity.
  - simpl in *. destruct (Ascii.eqb a c) eqn:E.
    + apply Ascii.eqb_eq in E. exfalso. apply H. left. exact E.
    + rewrite IH; [reflexivity|]. intro Hin. apply H. right. exact Hin.
Qed.

(** Splitting at the commas undoes joining with commas, on a list of at
    least one item whose items hold no comma. *)
Lemma split_concat_comma :
  forall x l,
    Forall Props.comma_free (x :: l) ->
    Py.split ","%char (String.concat "," (x :: l)) = x :: l.
Proof.
  intros x l. revert x. induction l as [|y l IH]; intros x H.
  - simpl. apply split_no_separator. inversion H; assumption.
  - inversion H as [|? ? Hx Hl]; subst.
    change (String.concat "," (x :: y :: l))
      with (x ++ String "," (String.concat "," (y :: l))).
    rewrite split_append_separator by exact Hx.
    rewrite IH by exact Hl. reflexivity.
Qed.

Lemma str_rating_comma_free :
  forall z, Props.is_rating z -> Props.comma_free (App.str z).
Proof.
  intros z [->|[->| ->]]; unfold Props.comma_free; cbn;
    intuition discriminate.
Qed.

Lemma extract_joined :
  forall items,
    Forall Props.comma_free items ->
    Py.split ","%char (App.joined items)
    = match items with
      | [] => ["NaN"]
      | _ :: _ => items
      end.
Proof.
  intros [|x l] H.
  - reflexivity.
  - apply split_concat_comma. exact H.
Qed.

(** The logs of a request come back from [extract_user_rating] as they
    were sent, when no uri holds a comma and the ratings are -1, 0 or 1;
    empty logs come back as the one item [NaN]. *)
Theorem route_logs_round_trip :
  forall data,
    List.length (App.profile data) = 10%nat ->
    Forall Props.comma_free (App.rq_job_recommendations data) ->
    Forall Props.is_rating (App.rq_job_ratings data) ->
    JobMatcher.extract_user_rating (App.target_profile data)
    = (Some match App.rq_job_ratings data with
            | [] => ["NaN"]
            | _ :: _ => map App.str (App.rq_job_ratings data)
            end,
       Some match App.rq_job_recommendations data with
            | [] => ["NaN"]
            | _ :: _ => App.rq_job_recommendations data
            end).
Proof.
  intros data _ Hrecs Hratings.
  unfold JobMatcher.extract_user_rating, App.target_profile.
  cbn [tp_job_ratings tp_job_recommendations option_map].
  rewrite (extract_joined (App.rq_job_recommendations data) Hrecs).
  rewrite (extract_joined (map App.str (App.rq_job_ratings data))).
  - destruct (App.rq_job_ratings data); reflexivity.
  - apply Forall_map. eapply Forall_impl; [|exact Hratings].
    intros z Hz. apply str_rating_comma_free. exact Hz.
Qed.

(** [extract_user_rating] never returns an empty list: a log is NaN or
    has at least one item.  The test [len(user_profile_rating_list) == 0]
    of [match_user_profile] never holds on what it returns. *)
Theorem extract_user_rating_never_empty :
  forall target,
    (JobMatcher.is_nan_or_empty (fst (JobMatcher.extract_user_rating target))
     = true <-> tp_job_ratings target = None) /\
    (JobMatcher.is_nan_or_empty (snd (JobMatcher.extract_user_rating target))
     = true <-> tp_job_recommendations target = None) /\
    fst (JobMatcher.extract_user_rating target) <> Some [] /\
    snd (JobMatcher.extract_user_rating target) <> Some [].
Proof.
  intros target. unfold JobMatcher.extract_user_rating. cbn [fst snd].
  assert (Hsome : forall s,
             JobMatcher.is_nan_or_empty (Some (Py.split ","%char s)) = false).
  { intros s. destruct (Py.split ","%char s) eqn:E.
    - exfalso. exact (split_not_nil _ _ E).
    - reflexivity. }
  assert (Hne : forall s, Some (Py.split ","%char s) <> Some []).
  { intros s H. inversion H as [H']. exact (split_not_nil _ _ H'). }
  split; [|split; [|split]].
  - destruct (tp_job_ratings target) as [s|]; cbn [option_map].
    + rewrite Hsome. split; discriminate.
    + split; reflexivity.
  - destruct (tp_job_recommendations target) as [s|]; cbn [option_map].
    + rewrite Hsome. split; discriminate.
    + split; reflexivity.
  - destruct (tp_job_ratings target) as [s|]; cbn [option_map].
    + apply Hne.
    + discriminate.
  - destruct (tp_job_recommendations target) as [s|]; cbn [option_map].
    + apply Hne.
    + discriminate.
Qed.

(** The witness: the logs of the request of the example. *)
Lemma route_logs_round_trip_example :
  JobMatcher.extract_user_rating (App.target_profile request)
  = (Some ["1"; "0"], Some ["A"; "B"]).
Proof.
  apply (route_logs_round_trip request eq_refl).
  - repeat constructor; unfold Props.comma_free; cbn; intuition discriminate.
  - repeat constructor; unfold Props.is_rating; lia.
Defined.

(** ** The route of the recommendations *)

Lemma filter_neg_isin_single :
  forall (uri : string) (l : list OccProfile),
    (forall o, In o l -> occ_uri o <> uri) ->
    List.filter (fun o => negb (Py.isin (occ_uri o) [uri])) l = l.
Proof.
  intros uri l H. apply filter_all. intros o Ho.
  destruct (Py.isin (occ_uri o) [uri]) eqn:E; [|reflexivity].
  apply isin_In in E. destruct E as [E|[]].
  exfalso. apply (H o Ho). symmetry. exact E.
Qed.

(** The first request of a user, with nothing shown and nothing rated,
    reaches [filter_by_rating] with the logs [[NaN]]: it follows the branch
    of a skipped job on the uri [NaN], and when no occupation of the pool
    has this uri the two frames are those of the filter by job history and
    then by preferences on the whole pool. *)
Theorem route_first_request_filters_whole_pool :
  forall kldb esco pool ups data,
    List.length (App.profile data) = 10%nat ->
    App.rq_job_recommendations data = [] ->
    App.rq_job_ratings data = [] ->
    (forall o, In o (of_rows pool) -> occ_uri o <> "NaN") ->
    JobMatcher.extract_user_rating (App.target_profile data)
    = (Some ["NaN"], Some ["NaN"]) /\
    snd (JobMatcher.filter_by_rating
           pool ups kldb esco (App.preferenced_sectors data)
           (App.job_history data) (Some ["NaN"]) (Some ["NaN"]))
    = JobMatcher.by_history_and_preferences
        esco kldb (App.preferenced_sectors data) (App.job_history data) pool.
Proof.
  intros kldb esco0 pool0 ups data _ Hrecs Hratings Hpool. split.
  - unfold JobMatcher.extract_user_rating, App.target_profile.
    cbn [tp_job_ratings tp_job_recommendations option_map].
    rewrite Hrecs, Hratings. reflexivity.
  - unfold JobMatcher.filter_by_rating.
    destruct (JobMatcher.expand_user_profiles ups) as [ups' expanded].
    cbn [snd].
    replace (JobMatcher.drop_uris pool0 (JobMatcher.list_of (Some ["NaN"])))
      with pool0; [reflexivity|].
    destruct pool0 as [l rs]. unfold JobMatcher.drop_uris.
    cbn [of_labels of_rows JobMatcher.list_of].
    rewrite filter_neg_isin_single; [reflexivity|exact Hpool].
Qed.

(** The witness: the first request of the example on the pool A, B, C. *)
Lemma route_first_request_example :
  JobMatcher.extract_user_rating (App.target_profile first_request)
  = (Some ["NaN"], Some ["NaN"]) /\
  snd (JobMatcher.filter_by_rating
         pool (peers []) esco2kldb esco (Some [5%nat]) [[("A", true)]]
         (Some ["NaN"]) (Some ["NaN"]))
  = JobMatcher.by_history_and_preferences
      esco esco2kldb (Some [5%nat]) [[("A", true)]] pool.
Proof.
  apply (route_first_request_filters_whole_pool
           esco2kldb esco pool (peers []) first_request
           eq_refl eq_refl eq_refl).
  intros o [<-|[<-|[<-|[]]]]; discriminate.
Defined.

Lemma merge_broader_head :
  forall bo r rest,
  exists b rest',
    JobRecommender.merge_broader bo (r :: rest)
    = JobRecommender.set_broaderUri b r :: rest'.
Proof.
  intros bo r rest. unfold JobRecommender.merge_broader. cbn [flat_map].
  destruct (List.filter (fun b => String.eqb (fst b) (conceptUri r)) bo)
    as [|b0 bs]; cbn [map app]; eexists; eexists; reflexivity.
Qed.

Lemma comfort_zone_indexed_rows :
  forall top_jobs f pool h recs,
    JobRecommender.get_comfort_zone_recommendation
      top_jobs (IndexedByUri f) pool h = Ok recs ->
    rows recs
    = map (JobRecommender.set_broaderUri None)
          (firstn 5 (JobRecommender.drop_duplicates
                       (JobRecommender.merge_broader
                          (esco_helper.broaderRelationsOccPillar h)
                          (rows top_jobs)))).
Proof.
  intros top_jobs f pool0 h recs H.
  unfold JobRecommender.get_comfort_zone_recommendation,
         JobRecommender.refine_recommendations in H.
  rewrite refine_loop_indexed in H.
  match type of H with
  | context [forallb ?g ?l] => destruct (forallb g l)
  end; [|discriminate].
  cbn [Py.bind] in H. rewrite app_nil_r in H.
  injection H as <-. reflexivity.
Qed.

Lemma comfort_zone_first_uri :
  forall top_jobs f pool h recs r rest,
    rows top_jobs = r :: rest ->
    JobRecommender.get_comfort_zone_recommendation
      top_jobs (IndexedByUri f) pool h = Ok recs ->
    App.first_uri recs = Ok (conceptUri r).
Proof.
  intros top_jobs f pool0 h recs r rest Hrows H.
  unfold App.first_uri.
  rewrite (comfort_zone_indexed_rows top_jobs f pool0 h recs H), Hrows.
  destruct (merge_broader_head (esco_helper.broaderRelationsOccPillar h)
                               r rest) as [b [rest' E]].
  rewrite E. unfold JobRecommender.drop_duplicates.
  cbn [JobRecommender.drop_duplicates_from existsb firstn map].
  reflexivity.
Qed.

Lemma route_ratings_not_nan :
  forall data,
    JobMatcher.is_nan_or_empty
      (fst (JobMatcher.extract_user_rating (App.target_profile data)))
    = false.
Proof.
  intros data. unfold JobMatcher.extract_user_rating, App.target_profile.
  cbn [fst tp_job_ratings option_map].
  destruct (Py.split ","%char (App.joined (map App.str (App.rq_job_ratings data))))
    eqn:E.
  - exfalso. exact (split_not_nil _ _ E).
  - reflexivity.
Qed.

(** On a pool with one row per uri, with the profiles of the request, of
    the pool and of the peers computed without rounding: the uri that the
    route answers with is the uri of a candidate of the frame that
    [match_user_profile] chose, the first frame of [filter_by_rating] or
    the second one when the first is empty, and no candidate of that frame
    is strictly closer to the profile of the request.  The logs of a
    request are never NaN, so that the choice of the frame never takes the
    branch of a user without rating. *)
Theorem recommendation_detail_returns_closest :
  forall kldb esco pool ups data uri,
    List.length (App.profile data) = 10%nat ->
    Props.exactly_computed (App.profile data) ->
    NoDup (map occ_uri (of_rows pool)) ->
    Forall (fun o => Props.exactly_computed (occ_values o)) (of_rows pool) ->
    Forall (fun u => Props.exactly_computed (up_values u)) (uf_rows ups) ->
    snd (App.recommendation_detail kldb esco pool ups data) = Ok uri ->
    exists preferred alternate r,
      snd (JobMatcher.filter_by_rating
             pool ups kldb esco (App.preferenced_sectors data)
             (App.job_history data)
             (snd (JobMatcher.extract_user_rating (App.target_profile data)))
             (fst (JobMatcher.extract_user_rating (App.target_profile data))))
      = Ok (preferred, alternate) /\
      In r (rows (if empty preferred then alternate else preferred)) /\
      conceptUri r = uri /\
      forall c,
        In c (rows (if empty preferred then alternate else preferred)) ->
        (Props.euclidean_key (App.target_profile data) r
         <= Props.euclidean_key (App.target_profile data) c)%Q.
Proof.
  intros kldb esco0 pool0 ups data uri _ _ _ _ _ H.
  unfold App.recommendation_detail, RecommenderPipeline.run,
         RecommenderPipeline.match_user_profile in H.
  cbn [App.recom_pipe RecommenderPipeline.matcher RecommenderPipeline.ESCO
       RecommenderPipeline.ESCO2kldb RecommenderPipeline.recommender
       RecommenderPipeline.job_matcher
       RecommenderPipeline.extract_user_rating
       RecommenderPipeline.filter_by_rating
       RecommenderPipeline.calculate_distances] in H.
  pose proof (route_ratings_not_nan data) as Hnan.
  destruct (JobMatcher.extract_user_rating (App.target_profile data))
    as [ratings rated] eqn:Hext.
  cbn [fst snd] in *.
  destruct (JobMatcher.filter_by_rating
              pool0 ups kldb esco0 (App.preferenced_sectors data)
              (App.job_history data) rated ratings)
    as [ups' [[preferred alternate]|e]]; cbn [snd Py.bind fst] in *;
    [|discriminate].
  rewrite Hnan in H.
  assert (Hlen : (List.length (JobMatcher.list_of ratings) =? 0)%nat = false).
  { destruct ratings as [[|x l]|]; try discriminate. reflexivity. }
  rewrite Hlen, Bool.orb_false_r in H.
  assert (Hbucket :
    (if empty preferred then Ok alternate else Ok preferred)
    = Ok (if empty preferred then alternate else preferred))
    by (destruct (empty preferred); reflexivity).
  rewrite Hbucket in H. cbn [Py.bind] in H.
  destruct (snd (JobMatcher.calculate_distances
                   JobMatcher.default (App.target_profile data)
                   (if empty preferred then alternate else preferred)))
    as [matchings|e] eqn:Hdist; cbn [Py.bind] in H; [|discriminate].
  unfold RecommenderPipeline.recommend_occupation in H.
  cbn [App.recom_pipe RecommenderPipeline.recommender RecommenderPipeline.ESCO
       RecommenderPipeline.job_recommender
       RecommenderPipeline.get_comfort_zone_recommendation] in H.
  destruct (JobRecommender.get_comfort_zone_recommendation
              matchings (IndexedByUri pool0) pool0 esco0)
    as [recs|e] eqn:Hrecs; cbn [Py.bind] in H; [|discriminate].
  destruct (calculate_distances_ok_euclidean
              JobMatcher.default (App.target_profile data) _ matchings
              eq_refl Hdist) as [ranked [Hrows [Hperm [Hsorted Hne]]]].
  destruct ranked as [|r ranked'].
  { apply Permutation_nil in Hperm. contradiction. }
  destruct (sorted_head_least
              (Props.euclidean_key (App.target_profile data)) r ranked' _
              Hperm Hsorted) as [Hin Hleast].
  cbn [map] in Hrows.
  rewrite (comfort_zone_first_uri matchings pool0 pool0 esco0 recs _ _
                                  Hrows Hrecs) in H.
  inversion H; subst uri.
  exists preferred, alternate, r.
  split; [reflexivity|]. split; [exact Hin|]. split; [reflexivity|].
  exact Hleast.
Qed.

(** The witness: the request of the example is answered with C, the one
    occupation of sector 5 that was not shown yet. *)
Lemma recommendation_detail_returns_closest_example :
  exists preferred alternate r,
    snd (JobMatcher.filter_by_rating
           pool (peers []) esco2kldb esco (App.preferenced_sectors request)
           (App.job_history request)
           (snd (JobMatcher.extract_user_rating (App.target_profile request)))
           (fst (JobMatcher.extract_user_rating (App.target_profile request))))
    = Ok (preferred, alternate) /\
    In r (rows (if empty preferred then alternate else preferred)) /\
    conceptUri r = "C" /\
    forall c,
      In c (rows (if empty preferred then alternate else preferred)) ->
      (Props.euclidean_key (App.target_profile request) r
       <= Props.euclidean_key (App.target_profile request) c)%Q.
Proof.
  apply (recommendation_detail_returns_closest
           esco2kldb esco pool (peers []) request "C" eq_refl
           (wholeb_exactly_computed (App.profile request) eq_refl)
           pool_one_row_per_uri (wholeb_pool (of_rows pool) eq_refl)
           (wholeb_peers [] eq_refl)).
  vm_compute. reflexivity.
Defined.

Lemma comfort_zone_indexed_length :
  forall top_jobs f pool h recs,
    rows top_jobs <> [] ->
    JobRecommender.get_comfort_zone_recommendation
      top_jobs (IndexedByUri f) pool h = Ok recs ->
    (1 <= List.length (rows recs) <= 5)%nat.
Proof.
  intros top_jobs f pool0 h recs Hne H.
  rewrite (comfort_zone_indexed_rows top_jobs f pool0 h recs H).
  rewrite length_map.
  split; [|rewrite length_firstn; lia].
  destruct (rows top_jobs) as [|r rest]; [contradiction|].
  destruct (merge_broader_head (esco_helper.broaderRelationsOccPillar h)
                               r rest) as [b [rest' E]].
  rewrite E. unfold JobRecommender.drop_duplicates.
  cbn [JobRecommender.drop_duplicates_from existsb firstn List.length]. lia.
Qed.

Lemma run_ok_inv :
  forall kldb esco target prefs hist pool ups recs,
    snd (RecommenderPipeline.run (App.recom_pipe kldb esco) target prefs hist
                                 pool ups) = Ok recs ->
    exists bucket matchings,
      snd (JobMatcher.calculate_distances JobMatcher.default target bucket)
      = Ok matchings /\
      JobRecommender.get_comfort_zone_recommendation
        matchings (IndexedByUri pool) pool esco = Ok recs.
Proof.
  intros kldb esco0 target prefs hist pool0 ups recs H.
  unfold RecommenderPipeline.run, RecommenderPipeline.match_user_profile in H.
  cbn [App.recom_pipe RecommenderPipeline.matcher RecommenderPipeline.ESCO
       RecommenderPipeline.ESCO2kldb RecommenderPipeline.recommender
       RecommenderPipeline.job_matcher
       RecommenderPipeline.extract_user_rating
       RecommenderPipeline.filter_by_rating
       RecommenderPipeline.calculate_distances] in H.
  destruct (JobMatcher.extract_user_rating target) as [ratings rated].
  destruct (JobMatcher.filter_by_rating pool0 ups kldb esco0 prefs hist rated
                                        ratings)
    as [ups' [filtered|e]]; cbn [snd Py.bind] in H; [|discriminate].
  match type of H with
  | context [Py.bind (if JobMatcher.is_nan_or_empty ratings
                      then ?x else ?y) _] =>
      destruct (if JobMatcher.is_nan_or_empty ratings then x else y)
        as [bucket|e]; cbn [Py.bind] in H; [|discriminate]
  end.
  destruct (snd (JobMatcher.calculate_distances JobMatcher.default target
                                                bucket))
    as [matchings|e] eqn:Hdist; cbn [Py.bind] in H; [|discriminate].
  unfold RecommenderPipeline.recommend_occupation in H.
  cbn [App.recom_pipe RecommenderPipeline.recommender RecommenderPipeline.ESCO
       RecommenderPipeline.job_recommender
       RecommenderPipeline.get_comfort_zone_recommendation] in H.
  destruct (JobRecommender.get_comfort_zone_recommendation
              matchings (IndexedByUri pool0) pool0 esco0)
    as [recs'|e] eqn:Hrecs; [|discriminate].
  inversion H; subst recs'.
  exists bucket, matchings. split; [exact Hdist|exact Hrecs].
Qed.

Lemma ranking_not_empty :
  forall query df out,
    snd (JobMatcher.calculate_distances JobMatcher.default query df)
    = Ok out ->
    rows out <> [].
Proof.
  intros query df out Hdist.
  destruct (calculate_distances_ok_euclidean
              JobMatcher.default query df out eq_refl Hdist)
    as [ranked [Hrows [Hperm [_ Hne]]]].
  rewrite Hrows. destruct ranked as [|r ranked'].
  - apply Permutation_nil in Hperm. contradiction.
  - discriminate.
Qed.

(** Whatever the user, the pool and the peers, when [run] of the pipeline
    of the route returns, it returns at least one recommendation and at
    most five. *)
Theorem run_returns_one_to_five :
  forall kldb esco target prefs hist pool ups recs,
    snd (RecommenderPipeline.run (App.recom_pipe kldb esco) target prefs hist
                                 pool ups) = Ok recs ->
    (1 <= List.length (rows recs) <= 5)%nat.
Proof.
  intros kldb esco0 target prefs hist pool0 ups recs H.
  destruct (run_ok_inv kldb esco0 target prefs hist pool0 ups recs H)
    as [bucket [matchings [Hdist Hrecs]]].
  apply (comfort_zone_indexed_length matchings pool0 pool0 esco0 recs);
    [|exact Hrecs].
  apply (ranking_not_empty target bucket). exact Hdist.
Qed.

(** The witness: the run of the request of the example returns one
    recommendation. *)
Lemma run_returns_one_to_five_example :
  exists recs,
    snd (RecommenderPipeline.run
           (App.recom_pipe esco2kldb esco) (App.target_profile request)
           (Some [5%nat]) [[("A", true)]] pool (peers [])) = Ok recs /\
    (1 <= List.length (rows recs) <= 5)%nat.
Proof.
  eexists. split.
  - vm_compute. reflexivity.
  - apply (run_returns_one_to_five
             esco2kldb esco (App.target_profile request) (Some [5%nat])
             [[("A", true)]] pool (peers [])).
    vm_compute. reflexivity.
Defined.

(** The route reads the first row of what [run] returns, and [run]
    returns no frame without a row: a request with a profile of ten values
    is answered with a uri or ends in [SystemExit], and the look-up of the
    first row never raises. *)
Theorem recommendation_detail_uri_or_exit :
  forall kldb esco pool ups data,
    List.length (App.profile data) = 10%nat ->
    (exists uri,
        snd (App.recommendation_detail kldb esco pool ups data) = Ok uri) \/
    snd (App.recommendation_detail kldb esco pool ups data)
    = Raise SystemExit.
Proof.
  intros kldb esco0 pool0 ups data _.
  pose proof (run_ok_inv kldb esco0 (App.target_profile data)
                (App.preferenced_sectors data) (App.job_history data)
                pool0 ups) as Hinv.
  unfold App.recommendation_detail.
  destruct (RecommenderPipeline.run
              (App.recom_pipe kldb esco0) (App.target_profile data)
              (App.preferenced_sectors data) (App.job_history data) pool0 ups)
    as [ups' [recs|e]] eqn:Hrun; cbn [snd Py.bind] in *.
  - left. destruct (Hinv recs eq_refl) as [bucket [matchings [Hdist Hrecs]]].
    pose proof (ranking_not_empty _ _ _ Hdist) as Hne.
    destruct (rows matchings) as [|r rest] eqn:Hrows; [contradiction|].
    exists (conceptUri r).
    apply (comfort_zone_first_uri matchings pool0 pool0 esco0 recs r rest
                                  Hrows Hrecs).
  - right. unfold RecommenderPipeline.run in Hrun.
    destruct (RecommenderPipeline.match_user_profile
                (App.recom_pipe kldb esco0) (App.target_profile data) pool0
                ups (App.preferenced_sectors data) (App.job_history data)
                false) as [ups1 matched].
    inversion Hrun as [[Hups He]].
    match type of He with
    | match ?c with _ => _ end = _ => destruct c
    end; [discriminate|].
    inversion He. reflexivity.
Qed.

(** The witness: the request of the example. *)
Lemma recommendation_detail_uri_or_exit_example :
  (exists uri,
      snd (App.recommendation_detail esco2kldb esco pool (peers []) request)
      = Ok uri) \/
  snd (App.recommendation_detail esco2kldb esco pool (peers []) request)
  = Raise SystemExit.
Proof.
  exact (recommendation_detail_uri_or_exit
           esco2kldb esco pool (peers []) request eq_refl).
Defined.

(** ** The learning zone and the panic zone *)

Lemma zone_row_closed_form :
  forall lf pt arr user,
    JobMatcher.zone_row lf pt arr user
    = if existsb (Props.panic pt) (combine arr user) then None
      else Some (map (fun au => if Props.learning lf au then 2 else snd au)
                     (combine arr user)).
Proof.
  intros lf pt arr. induction arr as [|a arr IH]; intros [|u user];
    try reflexivity.
  cbn [JobMatcher.zone_row combine existsb map].
  unfold JobMatcher.zone_value, Props.panic at 1, Props.learning at 1.
  cbn [fst snd]. rewrite IH.
  destruct (Qle_bool a u); cbn [negb andb orb].
  - destruct (existsb (Props.panic pt) (combine arr user)); reflexivity.
  - destruct (Vec.Qltb u (2 # 10) && Vec.Qltb (u + pt) a);
      cbn [orb]; [reflexivity|].
    destruct (Qle_bool (u + lf) a);
      destruct (existsb (Props.panic pt) (combine arr user)); reflexivity.
Qed.

(** The loop over the positions of a job in closed form, for a job of as
    many values as the user and a learning factor, a panic tolerance and
    profiles on the grid of the multiples of 1/1024, whose sums are
    computed without rounding: when one position
    lies in the panic zone, wherever it is, the array of the job is -1 at
    every position; otherwise each position holds 2 when it lies in the
    learning zone and the value of the user when it does not. *)
Theorem zone_array_panic_or_learning :
  forall lf pt arr user,
    List.length arr = List.length user ->
    Props.on_grid lf ->
    Props.on_grid pt ->
    Forall Props.on_grid arr ->
    Forall Props.on_grid user ->
    JobMatcher.zone_array lf pt arr user
    = if existsb (Props.panic pt) (combine arr user)
      then repeat (- (1))%Q (List.length user)
      else map (fun au => if Props.learning lf au then 2 else snd au)
               (combine arr user).
Proof.
  intros lf pt arr user _ _ _ _ _. unfold JobMatcher.zone_array.
  rewrite zone_row_closed_form.
  destruct (existsb (Props.panic pt) (combine arr user)); reflexivity.
Qed.

Lemma on_grid_multiple :
  forall k : Z,
    (Z.abs k <=? 1048576)%Z = true -> Props.on_grid (k # 1024).
Proof.
  intros k H. exists k. split; [reflexivity|apply Z.leb_le; exact H].
Qed.

(** The witness: with the learning factor 1/4 and the panic tolerance 1/8,
    a user at 1/8 and 1/2 against a job at 1/8 and 3/4, whose second
    position is in the learning zone. *)
Lemma zone_array_panic_or_learning_example :
  JobMatcher.zone_array (256 # 1024) (128 # 1024)
                        [128 # 1024; 768 # 1024] [128 # 1024; 512 # 1024]
  = [128 # 1024; 2].
Proof.
  exact (zone_array_panic_or_learning
           (256 # 1024) (128 # 1024)
           [128 # 1024; 768 # 1024] [128 # 1024; 512 # 1024] eq_refl
           (on_grid_multiple 256 eq_refl) (on_grid_multiple 128 eq_refl)
           (Forall_cons _ (on_grid_multiple 128 eq_refl)
              (Forall_cons _ (on_grid_multiple 768 eq_refl)
                 (Forall_nil _)))
           (Forall_cons _ (on_grid_multiple 128 eq_refl)
              (Forall_cons _ (on_grid_multiple 512 eq_refl)
                 (Forall_nil _)))).
Defined.

Lemma zone_array_length :
  forall lf pt arr user,
    List.length arr = List.length user ->
    List.length (JobMatcher.zone_array lf pt arr user) = List.length user.
Proof.
  intros lf pt arr user Hlen. unfold JobMatcher.zone_array.
  rewrite zone_row_closed_form.
  destruct (existsb (Props.panic pt) (combine arr user)).
  - apply repeat_length.
  - rewrite length_map, length_combine, Hlen. apply Nat.min_id.
Qed.

(** [zone_calculator] returns when every row of the frame has as many
    values as the user, with one score and one array of that length per
    row, and raises [ValueError] when one row has not. *)
Theorem zone_calculator_returns_iff_same_length :
  forall jobs user lf pt,
    if forallb (fun arr => (List.length arr =? List.length user)%nat) jobs
    then exists scores,
        JobMatcher.zone_calculator jobs user lf pt
        = Ok (scores,
              map (fun arr => JobMatcher.zone_array lf pt arr user) jobs) /\
        List.length scores = List.length jobs /\
        Forall (fun out => List.length out = List.length user)
               (map (fun arr => JobMatcher.zone_array lf pt arr user) jobs)
    else JobMatcher.zone_calculator jobs user lf pt = Raise ValueError.
Proof.
  intros jobs user lf pt. induction jobs as [|arr jobs IH].
  - cbn [forallb JobMatcher.zone_calculator map List.length].
    exists []. split; [reflexivity|]. split; [reflexivity|constructor].
  - cbn [forallb JobMatcher.zone_calculator map List.length].
    destruct (List.length arr =? List.length user)%nat eqn:E;
      cbn [negb andb]; [|reflexivity].
    apply Nat.eqb_eq in E.
    destruct (forallb (fun arr0 => (List.length arr0 =? List.length user)%nat)
                      jobs).
    + destruct IH as [scores [-> [Hlen Hall]]]. cbn [Py.bind].
      eexists. split; [reflexivity|]. split.
      * cbn [List.length]. rewrite Hlen. reflexivity.
      * constructor; [|exact Hall]. apply zone_array_length. exact E.
    + rewrite IH. reflexivity.
Qed.

Lemma differing_le :
  forall u v, (JobMatcher.differing u v <= List.length u)%nat.
Proof.
  induction u as [|x u IH]; intros [|y v]; cbn [JobMatcher.differing
                                                List.length]; try lia.
  specialize (IH v). destruct (Qeq_bool x y); lia.
Qed.

Lemma hamming_times_length :
  forall u v,
    u <> [] ->
    (JobMatcher.hamming u v * inject_Z (Z.of_nat (List.length u))
     == inject_Z (Z.of_nat (JobMatcher.differing u v)))%Q.
Proof.
  intros u v Hu. unfold JobMatcher.hamming.
  rewrite Qmult_comm. apply Qmult_div_r.
  destruct u as [|x u]; [contradiction|].
  cbn [List.length]. unfold Qeq, inject_Z. cbn [Qnum Qden]. lia.
Qed.

(** For a user profile of 1 to 21 values, the score of a job is the
    number of positions where its array differs from the profile of the
    user, a whole number between 0 and the number of the user's values. *)
Theorem zone_calculator_scores_count_differences :
  forall jobs user lf pt scores arrays,
    user <> [] ->
    (List.length user <= 21)%nat ->
    JobMatcher.zone_calculator jobs user lf pt = Ok (scores, arrays) ->
    Forall2 (fun score out =>
               (score == inject_Z (Z.of_nat (JobMatcher.differing user out)))%Q
               /\ (JobMatcher.differing user out <= List.length user)%nat)
            scores arrays.
Proof.
  intros jobs user lf pt scores arrays Hu _. revert scores arrays.
  induction jobs as [|arr jobs IH]; intros scores arrays H.
  - cbn [JobMatcher.zone_calculator] in H. inversion H. constructor.
  - cbn [JobMatcher.zone_calculator] in H.
    destruct (negb (List.length arr =? List.length user)%nat);
      [discriminate|].
    destruct (JobMatcher.zone_calculator jobs user lf pt)
      as [[scores' arrays']|e]; cbn [Py.bind] in H; [|discriminate].
    inversion H; subst scores arrays. constructor.
    + split; [apply hamming_times_length; exact Hu|apply differing_le].
    + apply IH. reflexivity.
Qed.

(** The witness: with the learning factor 1/4 and the panic tolerance
    1/8, a user at 1/8 and 1/2 against a job at 1/2 and 3/4 (the first
    position panics) and a job at 1/8 and 3/4 (the second position is in
    the learning zone). *)
Lemma zone_calculator_scores_example :
  Forall2 (fun score out =>
             (score == inject_Z (Z.of_nat (JobMatcher.differing
                                             [1 # 8; 1 # 2] out)))%Q
             /\ (JobMatcher.differing [1 # 8; 1 # 2] out
                 <= List.length [1 # 8; 1 # 2])%nat)
          [4 # 2; 2 # 2]%Q
          [[- (1); - (1)]; [1 # 8; 2]]%Q.
Proof.
  apply (zone_calculator_scores_count_differences
           [[1 # 2; 3 # 4]; [1 # 8; 3 # 4]]%Q [1 # 8; 1 # 2]%Q
           (1 # 4) (1 # 8)).
  - discriminate.
  - cbn [List.length]. lia.
  - vm_compute. reflexivity.
Defined.

Lemma comfort_no_panic_no_learning :
  forall lf pt arr user,
    Forall2 Qle arr user ->
    existsb (Props.panic pt) (combine arr user) = false /\
    map (fun au => if Props.learning lf au then 2 else snd au)
        (combine arr user) = user.
Proof.
  intros lf pt arr user H. induction H as [|a u arr user Hle H IH].
  - split; reflexivity.
  - destruct IH as [IH1 IH2]. cbn [combine existsb map].
    unfold Props.panic at 1, Props.learning at 1. cbn [fst snd].
    apply Qle_bool_iff in Hle. rewrite Hle. cbn [negb andb orb].
    rewrite IH1, IH2. split; reflexivity.
Qed.

Lemma differing_same :
  forall u, JobMatcher.differing u u = 0%nat.
Proof.
  induction u as [|x u IH]; cbn [JobMatcher.differing]; [reflexivity|].
  rewrite IH. replace (Qeq_bool x x) with true; [reflexivity|].
  symmetry. apply Qeq_bool_iff. reflexivity.
Qed.

(** A job that asks at no position for more than the user has lies in the
    comfort zone: its array is the profile of the user, and its score is
    0, whatever the learning factor and the panic tolerance. *)
Theorem zone_calculator_comfort_zone :
  forall jobs user lf pt,
    user <> [] ->
    Forall (fun arr => Forall2 Qle arr user) jobs ->
    exists scores,
      JobMatcher.zone_calculator jobs user lf pt
      = Ok (scores, repeat user (List.length jobs)) /\
      Forall (fun score => score == 0)%Q scores.
Proof.
  intros jobs user lf pt Hu H. induction H as [|arr jobs Hle H IH].
  - exists []. split; [reflexivity|constructor].
  - destruct IH as [scores [IH Hz]].
    cbn [JobMatcher.zone_calculator List.length repeat].
    rewrite (Forall2_length Hle), Nat.eqb_refl. cbn [negb].
    rewrite IH. cbn [Py.bind].
    destruct (comfort_no_panic_no_learning lf pt arr user Hle) as [Hp Hl].
    assert (Harr : JobMatcher.zone_array lf pt arr user = user).
    { unfold JobMatcher.zone_array. rewrite zone_row_closed_form.
      rewrite Hp, Hl. reflexivity. }
    rewrite Harr. eexists. split; [reflexivity|].
    constructor; [|exact Hz].
    rewrite (hamming_times_length user user Hu), differing_same.
    reflexivity.
Qed.

(** The witness: two jobs below the user at every position. *)
Lemma zone_calculator_comfort_zone_example :
  exists scores,
    JobMatcher.zone_calculator [[1 # 10; 5 # 10]; [0; 3 # 10]]%Q
                               [1 # 10; 5 # 10]%Q (3 # 10) (1 # 10)
    = Ok (scores, repeat [1 # 10; 5 # 10]%Q 2) /\
    Forall (fun score => score == 0)%Q scores.
Proof.
  apply (zone_calculator_comfort_zone
           [[1 # 10; 5 # 10]; [0; 3 # 10]]%Q [1 # 10; 5 # 10]%Q
           (3 # 10) (1 # 10)).
  - discriminate.
  - repeat constructor; unfold Qle; cbn; lia.
Defined.

(** ** The test of the comfort zone *)

Lemma sqdist_nonneg : forall x y, (0 <= Vec.sqdist x y)%Q.
Proof.
  induction x as [|a x IH]; intros [|b y]; cbn [Vec.sqdist];
    try apply Qle_refl.
  specialize (IH y).
  assert (H : (0 <= (a - b) * (a - b))%Q).
  { destruct (Qlt_le_dec (a - b) 0) as [Hlt|Hge].
    - setoid_replace ((a - b) * (a - b))%Q with ((- (a - b)) * (- (a - b)))%Q
        by ring.
      apply Qmult_le_0_compat; apply (Qopp_le_compat (a - b) 0);
        apply Qlt_le_weak; exact Hlt.
    - apply Qmult_le_0_compat; exact Hge. }
  setoid_replace 0%Q with (0 + 0)%Q by ring.
  apply Qplus_le_compat; assumption.
Qed.

(** On profiles whose distances are computed without rounding,
    [compare_occupation_similarity] accepts every broader profile within
    the distance 30 of the profile of the recommendation: the distance
    between the first values, which it reads, is at most the distance
    between the profiles. *)
Theorem compare_occupation_similarity_accepts_close :
  forall r rest keys broader,
    origin r = Occupation keys ->
    FS r <> [] ->
    broader <> [] ->
    Props.exactly_computed (FS r) ->
    Props.exactly_computed broader ->
    Props.close (FS r) broader ->
    JobRecommender.compare_occupation_similarity (r :: rest) broader
    = Ok true.
Proof.
  intros r rest keys broader Ho Hr Hb _ _ Hclose.
  unfold JobRecommender.compare_occupation_similarity,
         JobRecommender.drop_conceptUri.
  rewrite Ho. cbn [Py.bind map List.concat].
  destruct (FS r) as [|a x]; [contradiction|].
  destruct broader as [|b y]; [contradiction|].
  cbn [app]. f_equal. apply Qltb_lt.
  unfold Props.close in Hclose. cbn [Vec.sqdist] in *.
  eapply Qle_lt_trans; [|exact Hclose].
  apply Qplus_le_compat; [apply Qle_refl|].
  apply sqdist_nonneg.
Qed.

(** The witness: B against the profile of A, at distance 5. *)
Lemma compare_occupation_similarity_accepts_close_example :
  JobRecommender.compare_occupation_similarity [candidate "B" (v 15 90)]
                                               (v 10 90)
  = Ok true.
Proof.
  apply (compare_occupation_similarity_accepts_close
           (candidate "B" (v 15 90)) [] None (v 10 90) eq_refl).
  - discriminate.
  - discriminate.
  - apply wholeb_exactly_computed. reflexivity.
  - apply wholeb_exactly_computed. reflexivity.
  - unfold Props.close. vm_compute. reflexivity.
Defined.

(** ** The narrower occupations *)

Lemma find_NoDup_In :
  forall (l : list (string * string)) k v,
    NoDup (map fst l) ->
    In (k, v) l ->
    find (fun r => String.eqb (fst r) k) l = Some (k, v).
Proof.
  induction l as [|[k' v'] l IH]; intros k v Hnd Hin; [destruct Hin|].
  cbn [find fst]. cbn [map fst] in Hnd.
  inversion Hnd as [|? ? Hnotin Hnd']; subst.
  destruct Hin as [E|Hin].
  - inversion E; subst. rewrite String.eqb_refl. reflexivity.
  - destruct (String.eqb k' k) eqn:E.
    + apply String.eqb_eq in E. subst k'. exfalso. apply Hnotin.
      apply in_map_iff. exists (k, v). split; [reflexivity|exact Hin].
    + apply IH; assumption.
Qed.

Lemma prefix_trans :
  forall a b c,
    String.prefix a b = true -> String.prefix b c = true ->
    String.prefix a c = true.
Proof.
  induction a as [|x a IH]; intros b c Hab Hbc; [destruct c; reflexivity|].
  destruct b as [|y b]; [discriminate|].
  destruct c as [|z c]; [discriminate|].
  cbn [String.prefix] in *.
  destruct (Ascii.ascii_dec x y) as [->|]; [|discriminate].
  destruct (Ascii.ascii_dec y z) as [->|]; [|discriminate].
  apply (IH b c); assumption.
Qed.

Lemma extends_trans :
  forall a b c,
    Props.extends a b = true -> Props.extends b c = true ->
    Props.extends a c = true.
Proof.
  intros a b c Hab Hbc. unfold Props.extends in *.
  apply Bool.andb_true_iff in Hab. destruct Hab as [Pab Lab].
  apply Bool.andb_true_iff in Hbc. destruct Hbc as [Pbc Lbc].
  apply Nat.ltb_lt in Lab. apply Nat.ltb_lt in Lbc.
  apply Bool.andb_true_iff. split.
  - apply (prefix_trans a b c); assumption.
  - apply Nat.ltb_lt. lia.
Qed.

Lemma narrower_rows_In :
  forall h uri rows b,
    esco_helper.get_narrower_occupations h uri = Ok rows ->
    (In [b] rows <->
     exists code code_b,
       esco_helper.look_up_code h uri = Ok code /\
       In (b, code_b) (esco_helper.occupations h) /\
       Props.extends code code_b = true).
Proof.
  intros h uri rows b H.
  unfold esco_helper.get_narrower_occupations in H.
  destruct (esco_helper.look_up_code h uri) as [code|e]; [|discriminate].
  cbn [Py.bind] in H. inversion H; subst rows. clear H.
  rewrite in_map_iff. split.
  - intros [[b' code_b] [E Hin]]. apply filter_In in Hin.
    destruct Hin as [Hin Hext]. cbn [fst snd] in *.
    inversion E; subst b'. exists code, code_b.
    split; [reflexivity|]. split; [exact Hin|exact Hext].
  - intros [code' [code_b [E [Hin Hext]]]]. inversion E; subst code'.
    exists (b, code_b). split; [reflexivity|].
    apply filter_In. split; [exact Hin|exact Hext].
Qed.

Lemma look_up_code_occupation :
  forall h b code_b,
    NoDup (map fst (esco_helper.look_up_table h)) ->
    In (b, code_b) (esco_helper.occupations h) ->
    esco_helper.look_up_code h b = Ok code_b.
Proof.
  intros h b code_b Hnd Hin. unfold esco_helper.look_up_code.
  rewrite (find_NoDup_In (esco_helper.look_up_table h) b code_b Hnd).
  - reflexivity.
  - unfold esco_helper.look_up_table. apply in_or_app. left. exact Hin.
Qed.

(** On a look-up table with one row per uri, the narrower occupations
    form a strict order: [get_narrower_occupations] returns for the uris
    of the table and for no other, an occupation is not narrower than
    itself, and a narrower occupation of a narrower occupation of [a] is a
    narrower occupation of [a]. *)
Theorem get_narrower_occupations_strict_order :
  forall h,
    NoDup (map fst (esco_helper.look_up_table h)) ->
    (forall a,
        In a (map fst (esco_helper.look_up_table h)) <->
        exists rows, esco_helper.get_narrower_occupations h a = Ok rows) /\
    (forall a rows,
        esco_helper.get_narrower_occupations h a = Ok rows ->
        ~ In [a] rows) /\
    (forall a b c rows_a rows_b,
        esco_helper.get_narrower_occupations h a = Ok rows_a ->
        esco_helper.get_narrower_occupations h b = Ok rows_b ->
        In [b] rows_a -> In [c] rows_b -> In [c] rows_a).
Proof.
  intros h Hnd. split; [|split].
  - intros a. unfold esco_helper.get_narrower_occupations,
                     esco_helper.look_up_code.
    split.
    + intros Hin. apply in_map_iff in Hin. destruct Hin as [[a' code] [E Hin]].
      cbn [fst] in E. subst a'.
      rewrite (find_NoDup_In _ a code Hnd Hin). cbn [Py.bind].
      eexists. reflexivity.
    + intros [rows H].
      destruct (find (fun r => String.eqb (fst r) a)
                     (esco_helper.look_up_table h)) as [r|] eqn:E;
        [|discriminate].
      apply find_some in E. destruct E as [Hin E].
      apply String.eqb_eq in E. subst a. apply in_map. exact Hin.
  - intros a rows H Hin.
    apply (narrower_rows_In h a rows a H) in Hin.
    destruct Hin as [code [code_a [Hcode [Hocc Hext]]]].
    rewrite (look_up_code_occupation h a code_a Hnd Hocc) in Hcode.
    inversion Hcode; subst code.
    unfold Props.extends in Hext. apply Bool.andb_true_iff in Hext.
    destruct Hext as [_ Hlt]. apply Nat.ltb_lt in Hlt. lia.
  - intros a b c rows_a rows_b Ha Hb Hab Hbc.
    apply (narrower_rows_In h a rows_a b Ha) in Hab.
    destruct Hab as [code_a [code_b [Hcode_a [Hocc_b Hext_ab]]]].
    apply (narrower_rows_In h b rows_b c Hb) in Hbc.
    destruct Hbc as [code_b' [code_c [Hcode_b [Hocc_c Hext_bc]]]].
    rewrite (look_up_code_occupation h b code_b Hnd Hocc_b) in Hcode_b.
    inversion Hcode_b; subst code_b'.
    apply (narrower_rows_In h a rows_a c Ha).
    exists code_a, code_c. split; [exact Hcode_a|].
    split; [exact Hocc_c|].
    apply (extends_trans code_a code_b code_c); assumption.
Qed.

(** The witness: the look-up table of the example, of the three
    occupations A, B and C. *)
Lemma get_narrower_occupations_strict_order_example :
  (forall a,
      In a (map fst (esco_helper.look_up_table esco)) <->
      exists rows, esco_helper.get_narrower_occupations esco a = Ok rows) /\
  (forall a rows,
      esco_helper.get_narrower_occupations esco a = Ok rows ->
      ~ In [a] rows) /\
  (forall a b c rows_a rows_b,
      esco_helper.get_narrower_occupations esco a = Ok rows_a ->
      esco_helper.get_narrower_occupations esco b = Ok rows_b ->
      In [b] rows_a -> In [c] rows_b -> In [c] rows_a).
Proof.
  apply (get_narrower_occupations_strict_order esco).
  repeat constructor; cbn; intuition discriminate.
Defined.

(** ** The dictionary of the broader relations *)

Lemma append_to_get :
  forall d k v c,
    esco_helper.get (esco_helper.append_to d k v) c
    = if String.eqb k c
      then Some match esco_helper.get d c with
                | Some vs => (vs ++ [v])%list
                | None => [v]
                end
      else esco_helper.get d c.
Proof.
  unfold esco_helper.get.
  induction d as [|[k' vs] d IH]; intros k v c.
  - cbn [esco_helper.append_to find fst option_map snd].
    destruct (String.eqb k c); reflexivity.
  - cbn [esco_helper.append_to].
    destruct (String.eqb k' k) eqn:E.
    + apply String.eqb_eq in E. subst k'.
      cbn [find fst]. destruct (String.eqb k c); reflexivity.
    + cbn [find fst]. destruct (String.eqb k' c) eqn:E'.
      * apply String.eqb_eq in E'. subst c. rewrite String.eqb_sym, E.
        reflexivity.
      * apply IH.
Qed.

Lemma append_to_keys :
  forall d k v,
    NoDup (map fst d) ->
    NoDup (map fst (esco_helper.append_to d k v)) /\
    (forall x, In x (map fst (esco_helper.append_to d k v)) ->
               x = k \/ In x (map fst d)).
Proof.
  induction d as [|[k' vs] d IH]; intros k v Hnd.
  - cbn. split; [repeat constructor; intros []|].
    intros x [E|[]]. left. symmetry. exact E.
  - cbn [esco_helper.append_to].
    destruct (String.eqb k' k) eqn:E.
    + cbn [map fst] in *. split; [exact Hnd|]. intros x Hx. right. exact Hx.
    + cbn [map fst] in *. inversion Hnd as [|? ? Hnotin Hnd']; subst.
      destruct (IH k v Hnd') as [IH1 IH2]. split.
      * constructor; [|exact IH1]. intro Hin.
        destruct (IH2 k' Hin) as [Ek|Hk].
        -- subst k'. rewrite String.eqb_refl in E. discriminate.
        -- contradiction.
      * intros x [Ex|Hx]; [right; left; exact Ex|].
        destruct (IH2 x Hx) as [Ek|Hk]; [left; exact Ek|right; right; exact Hk].
Qed.

Lemma fold_append_to :
  forall relations d c,
    NoDup (map fst d) ->
    NoDup (map fst (fold_left
                      (fun d row => esco_helper.append_to d (fst row) (snd row))
                      relations d)) /\
    esco_helper.get
      (fold_left (fun d row => esco_helper.append_to d (fst row) (snd row))
                 relations d) c
    = match esco_helper.get d c,
            map snd (List.filter (fun r => String.eqb (fst r) c) relations)
      with
      | Some vs, new => Some (vs ++ new)%list
      | None, [] => None
      | None, new => Some new
      end.
Proof.
  induction relations as [|r relations IH]; intros d c Hnd.
  - cbn [fold_left List.filter map]. split; [exact Hnd|].
    destruct (esco_helper.get d c); [rewrite app_nil_r|]; reflexivity.
  - cbn [fold_left List.filter].
    destruct (append_to_keys d (fst r) (snd r) Hnd) as [Hnd' _].
    destruct (IH (esco_helper.append_to d (fst r) (snd r)) c Hnd')
      as [IH1 IH2].
    split; [exact IH1|]. rewrite IH2, append_to_get.
    destruct (String.eqb (fst r) c); cbn [map].
    + destruct (esco_helper.get d c) as [vs|].
      * rewrite <- app_assoc. reflexivity.
      * reflexivity.
    + reflexivity.
Qed.

(** [create_broader_dict] groups the rows of the broader relations by
    their concept: the dictionary has one key per concept of the relations
    of the pillar, and the key holds the broader uris of the rows of this
    concept, in the order of the rows.  A type other than [Skill] and
    [Occupation] raises [ValueError]. *)
Theorem create_broader_dict_groups_rows :
  forall h skills,
    (exists d,
        esco_helper.create_broader_dict h skills "Skill" = Ok d /\
        NoDup (map fst d) /\
        forall c, esco_helper.get d c = Props.group skills c) /\
    (exists d,
        esco_helper.create_broader_dict h skills "Occupation" = Ok d /\
        NoDup (map fst d) /\
        forall c,
          esco_helper.get d c
          = Props.group (esco_helper.broaderRelationsOccPillar h) c) /\
    (forall type,
        type <> "Skill" -> type <> "Occupation" ->
        esco_helper.create_broader_dict h skills type = Raise ValueError).
Proof.
  intros h skills.
  assert (Hgroup : forall relations,
             NoDup (map fst (fold_left
                               (fun d row => esco_helper.append_to
                                               d (fst row) (snd row))
                               relations [])) /\
             forall c,
               esco_helper.get
                 (fold_left (fun d row => esco_helper.append_to
                                            d (fst row) (snd row))
                            relations []) c
               = Props.group relations c).
  { intros relations. split.
    - apply (fold_append_to relations [] ""). constructor.
    - intros c.
      rewrite (proj2 (fold_append_to relations [] c (NoDup_nil _))).
      unfold Props.group. cbn [esco_helper.get find option_map].
      destruct (List.filter (fun r => String.eqb (fst r) c) relations);
        reflexivity. }
  split; [|split].
  - eexists. split; [reflexivity|]. apply Hgroup.
  - eexists. split; [reflexivity|]. apply Hgroup.
  - intros type Hs Ho. unfold esco_helper.create_broader_dict.
    apply String.eqb_neq in Hs. apply String.eqb_neq in Ho.
    rewrite Hs, Ho. reflexivity.
Qed.

(** ** The ISCO levels *)

(** For an occupation of a group of four characters, the ISCO level [k]
    is the uri of the group of the first [k] characters. *)
Theorem get_detailed_ISCO_levels_prefixes :
  forall isco_groups i o,
    nth_error isco_groups i = Some o ->
    String.length (snd o) = 4%nat ->
    exists l,
      nth_error (esco_helper.get_detailed_ISCO_levels isco_groups) i
      = Some l /\
      esco_helper.il_conceptUri l = fst o /\
      esco_helper.ISCO_Level_4 l
      = "http://data.europa.eu/esco/isco/C" ++ snd o /\
      esco_helper.ISCO_Level_3 l
      = "http://data.europa.eu/esco/isco/C" ++ substring 0 3 (snd o) /\
      esco_helper.ISCO_Level_2 l
      = "http://data.europa.eu/esco/isco/C" ++ substring 0 2 (snd o) /\
      esco_helper.ISCO_Level_1 l
      = "http://data.europa.eu/esco/isco/C" ++ substring 0 1 (snd o).
Proof.
  intros isco_groups i [uri g] Hnth Hlen. cbn [fst snd] in *.
  unfold esco_helper.get_detailed_ISCO_levels.
  rewrite nth_error_map, Hnth. cbn [option_map fst snd].
  eexists. split; [reflexivity|].
  cbn [esco_helper.il_conceptUri esco_helper.ISCO_Level_4
       esco_helper.ISCO_Level_3 esco_helper.ISCO_Level_2
       esco_helper.ISCO_Level_1].
  destruct g as [|a [|b [|c [|d [|e g]]]]]; try discriminate.
  repeat split; reflexivity.
Qed.

(** The witness: the occupation A in the group 2512. *)
Lemma get_detailed_ISCO_levels_prefixes_example :
  exists l,
    nth_error (esco_helper.get_detailed_ISCO_levels [("A", "2512")]) 0
    = Some l /\
    esco_helper.il_conceptUri l = "A" /\
    esco_helper.ISCO_Level_4 l = "http://data.europa.eu/esco/isco/C2512" /\
    esco_helper.ISCO_Level_3 l = "http://data.europa.eu/esco/isco/C251" /\
    esco_helper.ISCO_Level_2 l = "http://data.europa.eu/esco/isco/C25" /\
    esco_helper.ISCO_Level_1 l = "http://data.europa.eu/esco/isco/C2".
Proof.
  exact (get_detailed_ISCO_levels_prefixes
           [("A", "2512")] 0 ("A", "2512") eq_refl eq_refl).
Defined.

(** ** The search for the narrower skills *)

Lemma narrower_concepts_In :
  forall pillar url c,
    In c (esco_helper.narrower_concepts_of pillar url) <-> In (c, url) pillar.
Proof.
  intros pillar url c. unfold esco_helper.narrower_concepts_of.
  rewrite in_map_iff. split.
  - intros [[c' b] [E Hin]]. apply filter_In in Hin.
    destruct Hin as [Hin Heq]. cbn [fst snd] in *. subst c'.
    apply String.eqb_eq in Heq. subst b. exact Hin.
  - intros Hin. exists (c, url). split; [reflexivity|].
    apply filter_In. split; [exact Hin|]. apply String.eqb_refl.
Qed.

Lemma descendant_inv :
  forall pillar b c,
    Props.descendant pillar b c ->
    exists m, In (m, b) pillar /\ (m = c \/ Props.descendant pillar m c).
Proof.
  intros pillar b c H. destruct H as [c b Hin|c m b Hin Hd].
  - exists c. split; [exact Hin|left; reflexivity].
  - exists m. split; [exact Hin|right; exact Hd].
Qed.

Lemma search_loop_none :
  forall (f : option (list string) -> string -> option (list string)) urls,
    (forall url, f None url = None) ->
    fold_left f urls None = None.
Proof.
  intros f urls Hf. induction urls as [|u urls IH]; cbn [fold_left].
  - reflexivity.
  - rewrite Hf. exact IH.
Qed.

(** When the search returns, it returns the uris that lie below one of the
    given urls in the broader relations, at any depth, and no other. *)
Theorem search_urls_for_narrower_skills_descendants :
  forall depth pillar urls relations,
    esco_helper.__search_urls_for_narrower_skills depth pillar urls
    = Some relations ->
    forall x,
      In x relations <->
      exists url, In url urls /\ Props.descendant pillar url x.
Proof.
  induction depth as [|depth IH]; intros pillar urls relations H;
    [discriminate|].
  cbn [esco_helper.__search_urls_for_narrower_skills] in H.
  assert (Hloop :
    forall urls acc out,
      fold_left
        (fun relations url =>
           match relations with
           | None => None
           | Some relations =>
               match esco_helper.narrower_concepts_of pillar url with
               | [] => Some relations
               | c :: cs =>
                   match esco_helper.__search_urls_for_narrower_skills
                           depth pillar (c :: cs) with
                   | Some narrower_relations =>
                       Some ((relations ++ c :: cs) ++ narrower_relations)%list
                   | None => None
                   end
               end
           end)
        urls (Some acc) = Some out ->
      forall x,
        In x out <->
        In x acc \/ exists url, In url urls /\ Props.descendant pillar url x).
  { clear urls relations H.
    induction urls as [|u urls IHu]; intros acc out H x.
    - cbn [fold_left] in H. inversion H; subst out. split.
      + intros Hx. left. exact Hx.
      + intros [Hx|[url [[] _]]]. exact Hx.
    - cbn [fold_left] in H.
      destruct (esco_helper.narrower_concepts_of pillar u) as [|c cs] eqn:En.
      + rewrite (IHu acc out H x). split.
        * intros [Hx|[url [Hurl Hd]]]; [left; exact Hx|].
          right. exists url. split; [right; exact Hurl|exact Hd].
        * intros [Hx|[url [[<-|Hurl] Hd]]]; [left; exact Hx| |].
          -- exfalso. apply descendant_inv in Hd.
             destruct Hd as [m [Hin _]].
             apply narrower_concepts_In in Hin. rewrite En in Hin.
             destruct Hin.
          -- right. exists url. split; [exact Hurl|exact Hd].
      + destruct (esco_helper.__search_urls_for_narrower_skills
                    depth pillar (c :: cs)) as [nr|] eqn:Es.
        * rewrite (IHu _ out H x). rewrite !in_app_iff.
          rewrite (IH pillar (c :: cs) nr Es x). rewrite <- En.
          split.
          -- intros [[[Hx|Hx]|[m [Hm Hd]]]|[url [Hurl Hd]]].
             ++ left. exact Hx.
             ++ right. exists u. split; [left; reflexivity|].
                apply Props.descendant_child.
                apply narrower_concepts_In. exact Hx.
             ++ right. exists u. split; [left; reflexivity|].
                apply (Props.descendant_step pillar x m u); [|exact Hd].
                apply narrower_concepts_In. exact Hm.
             ++ right. exists url. split; [right; exact Hurl|exact Hd].
          -- intros [Hx|[url [[<-|Hurl] Hd]]].
             ++ left. left. left. exact Hx.
             ++ left. apply descendant_inv in Hd.
                destruct Hd as [m [Hin [->|Hd]]].
                ** left. right. apply narrower_concepts_In. exact Hin.
                ** right. exists m. split; [|exact Hd].
                   apply narrower_concepts_In. exact Hin.
             ++ right. exists url. split; [exact Hurl|exact Hd].
        * rewrite search_loop_none in H; [discriminate|reflexivity]. }
  intros x. rewrite (Hloop urls [] relations H x). split.
  - intros [[]|Hx]. exact Hx.
  - intros Hx. right. exact Hx.
Qed.

(** The witness: below A lie B and C, and D below B; D is returned. *)
Lemma search_urls_for_narrower_skills_descendants_example :
  In "D" ["B"; "C"; "D"] <->
  exists url,
    In url ["A"] /\
    Props.descendant [("B", "A"); ("C", "A"); ("D", "B")] url "D".
Proof.
  apply (search_urls_for_narrower_skills_descendants
           3 [("B", "A"); ("C", "A"); ("D", "B")] ["A"] ["B"; "C"; "D"]
           eq_refl "D").
Defined.

(** On relations that form a hierarchy, where a rank decreases from every
    broader uri to its concept, the search returns as soon as the
    interpreter allows one call more than the highest rank of the urls. *)
Theorem search_urls_for_narrower_skills_returns_on_hierarchy :
  forall pillar (rank : string -> nat) n urls,
    (forall c b, In (c, b) pillar -> (rank c < rank b)%nat) ->
    (forall url, In url urls -> (rank url <= n)%nat) ->
    exists relations,
      esco_helper.__search_urls_for_narrower_skills (S n) pillar urls
      = Some relations.
Proof.
  intros pillar rank n urls Hrank. revert urls.
  induction n as [|n IH]; intros urls Hurls;
    cbn [esco_helper.__search_urls_for_narrower_skills].
  - assert (Hloop : forall urls acc,
               (forall url, In url urls -> (rank url <= 0)%nat) ->
               exists relations,
                 fold_left
                   (fun relations url =>
                      match relations with
                      | None => None
                      | Some relations =>
                          match esco_helper.narrower_concepts_of pillar url
                          with
                          | [] => Some relations
                          | c :: cs =>
                              match esco_helper.__search_urls_for_narrower_skills
                                      0 pillar (c :: cs) with
                              | Some narrower_relations =>
                                  Some ((relations ++ c :: cs)
                                          ++ narrower_relations)%list
                              | None => None
                              end
                          end
                      end)
                   urls (Some acc) = Some relations).
    { clear urls Hurls. induction urls as [|u urls IHu]; intros acc Hurls.
      - exists acc. reflexivity.
      - cbn [fold_left].
        destruct (esco_helper.narrower_concepts_of pillar u) as [|c cs] eqn:En.
        + apply IHu. intros url Hurl. apply Hurls. right. exact Hurl.
        + exfalso.
          assert (Hc : In (c, u) pillar).
          { apply narrower_concepts_In. rewrite En. left. reflexivity. }
          apply Hrank in Hc.
          specialize (Hurls u (or_introl eq_refl)). lia. }
    apply Hloop. exact Hurls.
  - assert (Hloop : forall urls acc,
               (forall url, In url urls -> (rank url <= S n)%nat) ->
               exists relations,
                 fold_left
                   (fun relations url =>
                      match relations with
                      | None => None
                      | Some relations =>
                          match esco_helper.narrower_concepts_of pillar url
                          with
                          | [] => Some relations
                          | c :: cs =>
                              match esco_helper.__search_urls_for_narrower_skills
                                      (S n) pillar (c :: cs) with
                              | Some narrower_relations =>
                                  Some ((relations ++ c :: cs)
                                          ++ narrower_relations)%list
                              | None => None
                              end
                          end
                      end)
                   urls (Some acc) = Some relations).
    { clear urls Hurls. induction urls as [|u urls IHu]; intros acc Hurls.
      - exists acc. reflexivity.
      - cbn [fold_left].
        destruct (esco_helper.narrower_concepts_of pillar u) as [|c cs] eqn:En.
        + apply IHu. intros url Hurl. apply Hurls. right. exact Hurl.
        + destruct (IH (c :: cs)) as [nr Hnr].
          { intros x Hx. rewrite <- En in Hx.
            apply narrower_concepts_In in Hx. apply Hrank in Hx.
            specialize (Hurls u (or_introl eq_refl)). lia. }
          rewrite Hnr. apply IHu.
          intros url Hurl. apply Hurls. right. exact Hurl. }
    apply Hloop. exact Hurls.
Qed.

(** The witness: a hierarchy whose uris get shorter from a broader uri to
    its concept, with the length of a uri for its rank. *)
Lemma search_urls_for_narrower_skills_returns_example :
  exists relations,
    esco_helper.__search_urls_for_narrower_skills
      4 [("ab", "abd"); ("ac", "abd"); ("a", "ab")] ["abd"]
    = Some relations.
Proof.
  apply (search_urls_for_narrower_skills_returns_on_hierarchy
           [("ab", "abd"); ("ac", "abd"); ("a", "ab")] String.length 3).
  - intros c b [E|[E|[E|[]]]]; inversion E; subst; cbn; lia.
  - intros url [<-|[]]. cbn. lia.
Defined.

(** When one of the urls is on a cycle of the broader relations, or has a
    uri of a cycle below it, the search never returns, however deep the
    interpreter allows the recursion to go. *)
Theorem search_urls_for_narrower_skills_cycle :
  forall pillar depth urls url x,
    In url urls ->
    url = x \/ Props.descendant pillar url x ->
    Props.descendant pillar x x ->
    esco_helper.__search_urls_for_narrower_skills depth pillar urls = None.
Proof.
  intros pillar depth. induction depth as [|depth IH];
    intros urls url x Hurl Hreach Hcycle; [reflexivity|].
  cbn [esco_helper.__search_urls_for_narrower_skills].
  assert (Hchild : exists m,
             In m (esco_helper.narrower_concepts_of pillar url) /\
             (m = x \/ Props.descendant pillar m x)).
  { destruct Hreach as [->|Hd].
    - apply descendant_inv in Hcycle. destruct Hcycle as [m [Hin Hm]].
      exists m. split; [apply narrower_concepts_In; exact Hin|exact Hm].
    - apply descendant_inv in Hd. destruct Hd as [m [Hin Hm]].
      exists m. split; [apply narrower_concepts_In; exact Hin|exact Hm]. }
  destruct Hchild as [m [Hm Hmx]].
  generalize (@Some (list string) []). intros acc. revert acc.
  induction urls as [|u urls IHu]; intros acc; [destruct Hurl|].
  cbn [fold_left]. destruct Hurl as [->|Hurl].
  - destruct acc as [acc|]; [|apply search_loop_none; reflexivity].
    destruct (esco_helper.narrower_concepts_of pillar url) as [|c cs] eqn:En;
      [destruct Hm|].
    rewrite (IH (c :: cs) m x Hm Hmx Hcycle).
    apply search_loop_none. reflexivity.
  - apply IHu. exact Hurl.
Qed.

(** The witness: a skill that is its own broader skill. *)
Lemma search_urls_for_narrower_skills_cycle_example :
  esco_helper.__search_urls_for_narrower_skills 1000 [("A", "A")] ["A"]
  = None.
Proof.
  apply (search_urls_for_narrower_skills_cycle
           [("A", "A")] 1000 ["A"] "A" "A").
  - left. reflexivity.
  - left. reflexivity.
  - apply Props.descendant_child. left. reflexivity.
Defined.
